(** * Evopedia local archive (archive.js): a shallow embedding and its properties

    The development follows [LocalArchive] of archive.js.  Callback chains
    are written as state passing; the collaborators that archive.js imports
    ([util], [geometry], [titleIterators], [normalize_string]) are either
    section variables or small models marked as such. *)

From Stdlib Require Import ZArith QArith Qround Lqa String Ascii List Lia Bool.
From Stdlib.Strings Require Import Byte.
From Stdlib Require Import DecimalString.
From stdpp Require Import base option list sorting strings gmap.
Import ListNotations.

Local Open Scope Z_scope.

(** ** JavaScript strings *)

Module JsString.

Definition LF : ascii := Ascii.ascii_of_nat 10.
Definition CR : ascii := Ascii.ascii_of_nat 13.
Definition SPACE : ascii := Ascii.ascii_of_nat 32.

Definition lf : string := String LF EmptyString.

(** [s.substring(start, end)]: both indices are clamped to [0, length] and
    swapped when [start > end]. *)
Definition substring (s : string) (start end_ : Z) : string :=
  let len := Z.of_nat (String.length s) in
  let clamp i := Z.max 0 (Z.min i len) in
  let a := Z.min (clamp start) (clamp end_) in
  let b := Z.max (clamp start) (clamp end_) in
  String.substring (Z.to_nat a) (Z.to_nat (b - a)) s.

(** [s] starts with the literal [p]; the rest of [s] is returned. *)
Fixpoint stripPrefix (p s : string) : option string :=
  match p with
  | EmptyString => Some s
  | String c p' =>
      match s with
      | EmptyString => None
      | String d s' => if Ascii.eqb c d then stripPrefix p' s' else None
      end
  end.

(** Number to string, for integers. *)
Definition ofZ (z : Z) : string := NilZero.string_of_int (Z.to_int z).

End JsString.

(** ** Geometry *)

(** geometry.js is not among the sources; what archive.js uses of it is
    modelled from sections 3 and 4.3 of the design.  Coordinates are exact
    rationals: the rounding of floating point arithmetic is outside the
    model. *)
Module Geometry.

(** Modelled from the spec: a point is (longitude, latitude), longitude
    first. *)
Record point := mkPoint { x : Q; y : Q }.

(** Modelled from the spec: a rectangle is stored as (origin, width, height);
    width and height may be negative before normalization. *)
Record rect := mkRect { rx : Q; ry : Q; width : Q; height : Q }.

(** Modelled from the spec: [new geometry.rect(p1, p2)], the rectangle with
    origin [p1] that extends to [p2]. *)
Definition rectFromPoints (p1 p2 : point) : rect :=
  mkRect (x p1) (y p1) (x p2 - x p1)%Q (y p2 - y p1)%Q.

Definition Qltb (a b : Q) : bool := negb (Qle_bool b a).

(** Modelled from the spec: [rect.normalized()], "if width<0 shift origin
    east by width and negate; same for height". *)
Definition normalized (r : rect) : rect :=
  let '(x1, w1) :=
    if Qltb (width r) 0 then ((rx r + width r)%Q, (- width r)%Q)
    else (rx r, width r) in
  let '(y1, h1) :=
    if Qltb (height r) 0 then ((ry r + height r)%Q, (- height r)%Q)
    else (ry r, height r) in
  mkRect x1 y1 w1 h1.

(** Modelled from the spec: [rect.containsPoint(p)], lower bound inclusive,
    upper bound exclusive. *)
Definition containsPoint (r : rect) (p : point) : bool :=
  Qle_bool (rx r) (x p) && Qltb (x p) (rx r + width r)%Q &&
  Qle_bool (ry r) (y p) && Qltb (y p) (ry r + height r)%Q.

(** Modelled from the spec: [rect.intersect(other)], "true iff the
    normalized boxes overlap in both axes". *)
Definition intersect (r o : rect) : bool :=
  Qltb (rx r) (rx o + width o)%Q && Qltb (rx o) (rx r + width r)%Q &&
  Qltb (ry r) (ry o + height o)%Q && Qltb (ry o) (ry r + height r)%Q.

(** Modelled from the spec: [rect.center()], the midpoint. *)
Definition center (r : rect) : point :=
  mkPoint (rx r + width r / 2)%Q (ry r + height r / 2)%Q.

(** Modelled from the spec: [rect.sw()], [rect.se()], [rect.nw()] and
    [rect.ne()], the four corners. *)
Definition sw (r : rect) : point := mkPoint (rx r) (ry r).

Definition se (r : rect) : point := mkPoint (rx r + width r)%Q (ry r).

Definition nw (r : rect) : point := mkPoint (rx r) (ry r + height r)%Q.

Definition ne (r : rect) : point := mkPoint (rx r + width r)%Q (ry r + height r)%Q.

(** Modelled from the spec: [point.distance(other)], a "surrogate sufficient
    for sort ordering", monotone in the planar distance on degrees: here
    the square of that distance, which orders points as the distance does. *)
Definition distance (p q : point) : Q :=
  ((x p - x q) * (x p - x q) + (y p - y q) * (y p - y q))%Q.

End Geometry.

(** ** Byte input *)

(** util.js is not among the sources; its decoders are modelled from
    section 4.1 of the design, which gives them as "total and infallible on
    correctly-sized inputs".  A decoder asked for bytes the array does not
    hold yields [None], which the callers below treat as an exception that
    ends the running handler. *)
Module Util.

Definition Uint8Array := list byte.

Definition byteVal (b : byte) : Z := Z.of_N (Byte.to_N b).

(** [a[i]]: [None] stands for [undefined]. *)
Definition at_ (a : Uint8Array) (i : Z) : option Z :=
  if i <? 0 then None else byteVal <$> nth_error a (Z.to_nat i).

Fixpoint littleEndian (bs : list byte) : Z :=
  match bs with
  | [] => 0
  | b :: bs' => byteVal b + 256 * littleEndian bs'
  end.

Definition readBytes (n : nat) (a : Uint8Array) (i : Z) : option (list byte) :=
  if i <? 0 then None
  else
    let bs := firstn n (skipn (Z.to_nat i) a) in
    if Nat.eqb (length bs) n then Some bs else None.

(** Modelled from the spec: [util.readIntegerFrom2Bytes], the little-endian
    u16 decoder. *)
Definition readIntegerFrom2Bytes (a : Uint8Array) (i : Z) : option Z :=
  littleEndian <$> readBytes 2 a i.

(** Modelled from the spec: [util.readIntegerFrom4Bytes], the little-endian
    u32 decoder. *)
Definition readIntegerFrom4Bytes (a : Uint8Array) (i : Z) : option Z :=
  littleEndian <$> readBytes 4 a i.

Definition hexDigit (n : Z) : ascii :=
  Ascii.ascii_of_nat (Z.to_nat (if n <? 10 then 48 + n else 87 + n)).

(** Modelled from the spec: [util.uint8ArrayToHex], the hex encoding of
    bytes, two lower-case digits a byte. *)
Fixpoint uint8ArrayToHex (a : Uint8Array) : string :=
  match a with
  | [] => EmptyString
  | b :: a' =>
      String (hexDigit (byteVal b / 16))
        (String (hexDigit (byteVal b mod 16)) (uint8ArrayToHex a'))
  end.

(** [blob.slice(start, end)] of the File API: a negative index counts from
    the end, both are clamped to the size, and an empty span is empty. *)
Definition slice (f : list byte) (start end_ : Z) : list byte :=
  let size := Z.of_nat (length f) in
  let rel i := if i <? 0 then Z.max (size + i) 0 else Z.min i size in
  let span := Z.max (rel end_ - rel start) 0 in
  firstn (Z.to_nat span) (skipn (Z.to_nat (rel start)) f).

(** A byte from its value, and a u32 in little-endian bytes, for writing
    files down. *)
Definition u8 (n : Z) : byte :=
  match Byte.of_N (Z.to_N (n mod 256)) with
  | Some b => b
  | None => x00
  end.

Definition u32le (n : Z) : list byte :=
  [u8 n; u8 (n / 256); u8 (n / 65536); u8 (n / 16777216)].

End Util.

(** ** The archive *)

Record File := mkFile { name : string; content : list byte }.

Definition size (f : File) : Z := Z.of_nat (length (content f)).

(** The fields of [LocalArchive].  A slot of an array that was never
    assigned, and a file that is still [null], are [None]. *)
Record LocalArchive := mkArchive {
  _dataFiles : list (option File);
  _coordinateFiles : list (option File);
  _titleFile : option File;
  _mathIndexFile : option File;
  _mathDataFile : option File;
  _date : option string;
  _language : option string;
  _titleSearchFile : option File;
  _normalizedTitles : bool
}.

(** [new LocalArchive()]. *)
Definition newLocalArchive : LocalArchive :=
  mkArchive [] [] None None None None None None true.

Definition setLanguage (v : string) (a : LocalArchive) : LocalArchive :=
  mkArchive (_dataFiles a) (_coordinateFiles a) (_titleFile a) (_mathIndexFile a)
    (_mathDataFile a) (_date a) (Some v) (_titleSearchFile a) (_normalizedTitles a).

Definition setDate (v : string) (a : LocalArchive) : LocalArchive :=
  mkArchive (_dataFiles a) (_coordinateFiles a) (_titleFile a) (_mathIndexFile a)
    (_mathDataFile a) (Some v) (_language a) (_titleSearchFile a)
    (_normalizedTitles a).

Definition setNormalizedTitles (v : bool) (a : LocalArchive) : LocalArchive :=
  mkArchive (_dataFiles a) (_coordinateFiles a) (_titleFile a) (_mathIndexFile a)
    (_mathDataFile a) (_date a) (_language a) (_titleSearchFile a) v.

(** ** Metadata file: [readMetadataFile] *)

Module Metadata.
Import JsString.

(** The regular expression [/\n<key> ?\= ?([^ \n]+)/], matched at the very
    start of [s].  Each optional blank is followed by something that cannot
    be a blank, so the greedy choice is the only one that can succeed. *)
Definition optBlank (s : string) : string :=
  match s with
  | String c s' => if Ascii.eqb c SPACE then s' else s
  | EmptyString => s
  end.

Definition isTokenChar (c : ascii) : bool :=
  negb (Ascii.eqb c SPACE) && negb (Ascii.eqb c LF).

Fixpoint token (s : string) : string :=
  match s with
  | String c s' => if isTokenChar c then String c (token s') else EmptyString
  | EmptyString => EmptyString
  end.

Definition matchHere (key s : string) : option string :=
  match stripPrefix (String LF key) s with
  | None => None
  | Some r =>
      match optBlank r with
      | String c r' =>
          if Ascii.eqb c "="%char then
            match token (optBlank r') with
            | EmptyString => None
            | t => Some t
            end
          else None
      | EmptyString => None
      end
  end.

(** [regex.exec(s)[1]] when the match exists: the leftmost match wins. *)
Fixpoint exec (key s : string) : option string :=
  match matchHere key s with
  | Some t => Some t
  | None =>
      match s with
      | EmptyString => None
      | String _ s' => exec key s'
      end
  end.

Inductive Outcome :=
| Loaded        (* the handler ran to its end; the callback, if any, was called *)
| TypeError.    (* [exec] gave null and [null[1]] raised *)

(** [reader.onload] of [readMetadataFile], on the text of the file. *)
Definition readMetadataFile (a : LocalArchive) (metadata : string)
  : LocalArchive * Outcome :=
  match exec "language" metadata with
  | None => (a, TypeError)
  | Some l =>
      let a1 := setLanguage l a in
      match exec "date" metadata with
      | None => (a1, TypeError)
      | Some d =>
          let a2 := setDate d a1 in
          match exec "normalized_titles" metadata with
          | Some normalizedTitlesInt =>
              if String.eqb normalizedTitlesInt "0"
              then (setNormalizedTitles false a2, Loaded)
              else (setNormalizedTitles true a2, Loaded)
          | None => (setNormalizedTitles true a2, Loaded)
          end
      end
  end.

(** A first line: a text without line feed. *)
Fixpoint noLF (h : string) : bool :=
  match h with
  | EmptyString => true
  | String c h' => negb (Ascii.eqb c LF) && noLF h'
  end.

(** The text of the scenario, and the same text behind a first line. *)
Definition scenarioText : string :=
  "language = en" +:+ lf +:+ "date = 2014-06-01" +:+ lf +:+
  "normalized_titles = 0" +:+ lf.

Definition dumpText : string := "[dump]" +:+ lf +:+ scenarioText.

End Metadata.

(** ** Titles *)

(** A JavaScript number as far as [_fileNr] needs it: [1 * byteArray[2]] is
    NaN when the array has no third byte. *)
Inductive JsNumber :=
| Num (z : Z)
| NaN.

Record Title := mkTitle {
  _name : string;
  _fileNr : JsNumber;
  _blockStart : Z;
  _blockOffset : Z;
  _articleLength : Z;
  _titleOffset : option Z;
  _geolocation : option Geometry.point
}.

(** ** Redirects: [resolveRedirect] *)

Module Redirect.
Import Util.

(** Titles are objects: [resolveRedirect] writes into the one it was given
    and passes that same object on.  The store maps references to objects. *)
Abbreviation Store := (gmap nat Title).

Inductive Outcome :=
| Resolved (ref : nat)   (* [callbackFunction(redirectedTitle)] *)
| NotFound               (* empty read: alert, then [throw new Error] *)
| Raised.                (* a reference to nothing, or a decoder out of range *)

(** The four assignments of [reader.onload], in their order; an assignment
    whose right-hand side raises ends the handler with the earlier ones
    done. *)
Definition assignFields (byteArray : Uint8Array) (t : Title) : Title * bool :=
  let t1 := mkTitle (_name t)
              (match at_ byteArray 2 with Some b => Num (1 * b) | None => NaN end)
              (_blockStart t) (_blockOffset t) (_articleLength t)
              (_titleOffset t) (_geolocation t) in
  match readIntegerFrom4Bytes byteArray 3 with
  | None => (t1, false)
  | Some bs =>
      let t2 := mkTitle (_name t1) (_fileNr t1) bs (_blockOffset t1)
                  (_articleLength t1) (_titleOffset t1) (_geolocation t1) in
      match readIntegerFrom4Bytes byteArray 7 with
      | None => (t2, false)
      | Some bo =>
          let t3 := mkTitle (_name t2) (_fileNr t2) (_blockStart t2) bo
                      (_articleLength t2) (_titleOffset t2) (_geolocation t2) in
          match readIntegerFrom4Bytes byteArray 11 with
          | None => (t3, false)
          | Some al =>
              (mkTitle (_name t3) (_fileNr t3) (_blockStart t3) (_blockOffset t3)
                 al (_titleOffset t3) (_geolocation t3), true)
          end
      end
  end.

(** [resolveRedirect(title, callbackFunction)]. *)
Definition resolveRedirect (a : LocalArchive) (title : nat) (st : Store)
  : Store * Outcome :=
  match _titleFile a, st !! title with
  | Some titleFile, Some t =>
      let byteArray :=
        slice (content titleFile) (_blockStart t) (_blockStart t + 16) in
      if Nat.eqb (length byteArray) 0 then (st, NotFound)
      else
        let '(t', ok) := assignFields byteArray t in
        (<[title := t']> st, if ok then Resolved title else Raised)
  | _, _ => (st, Raised)
  end.

(** An archive that has only its title file. *)
Definition withTitleFile (bytes : list byte) : LocalArchive :=
  mkArchive [] [] (Some (mkFile "titles.idx" bytes)) None None None None None true.

(** The redirect record of the design, [(fileNr, blockStart, blockOffset,
    articleLength)] in its 16 bytes. *)
Definition redirectRecord (fileNr blockStart blockOffset articleLength : Z)
  : list byte :=
  [x00; x00; u8 fileNr] ++ u32le blockStart ++ u32le blockOffset
  ++ u32le articleLength ++ [x0a].

(** Scenario 5 of the design: the record of target (3, 1000, 42, 7) at
    offset 200 of the title file, and a title whose blockStart is 200. *)
Definition scenarioFile : list byte :=
  repeat x00 200 ++ redirectRecord 3 1000 42 7.

Definition scenarioArchive : LocalArchive := withTitleFile scenarioFile.

Definition scenarioTitle : Title :=
  mkTitle "Berlin" (Num 255) 200 0 0 (Some 17) None.

(** An ordinary article of data shard 1, and a title file whose first record
    carries the pointer (3, 0, 42, 7). *)
Definition articleTitle : Title :=
  mkTitle "Paris" (Num 1) 0 5 9 (Some 0) None.

Definition selfFile : list byte := redirectRecord 3 0 42 7.

Definition selfArchive : LocalArchive := withTitleFile selfFile.

(** The little-endian word of four bytes, as the handler reads it. *)
Definition word (b0 b1 b2 b3 : byte) : Z :=
  byteVal b0 + 256 * byteVal b1 + 65536 * byteVal b2 + 16777216 * byteVal b3.

(** The four pointer fields of a title. *)
Definition pointer (t : Title) : JsNumber * Z * Z * Z :=
  (_fileNr t, _blockStart t, _blockOffset t, _articleLength t).

(** A title file of two records that point at each other: the record at
    offset 0 carries (7, 16, 1, 2) and the record at offset 16 carries
    (9, 0, 3, 4); and a title that holds the values of the second. *)
Definition cycleFile : list byte :=
  redirectRecord 7 16 1 2 ++ redirectRecord 9 0 3 4.

Definition cycleArchive : LocalArchive := withTitleFile cycleFile.

Definition cycleTitle : Title :=
  mkTitle "Roma" (Num 9) 0 3 4 (Some 16) None.

End Redirect.

(** ** Math images: [loadMathImage] and [findMathDataPosition] *)

Module MathImage.
Import Util.

Definition entrySize : Z := 16 + 4 + 4.

(** The blob read at index [mid], and the hash in its first sixteen bytes. *)
Definition recordAt (mathIndexFile : File) (mid : Z) : Uint8Array :=
  slice (content mathIndexFile) (mid * entrySize) ((mid + 1) * entrySize).

Definition hashAt (mathIndexFile : File) (mid : Z) : string :=
  uint8ArrayToHex (firstn 16 (recordAt mathIndexFile mid)).

Inductive Position :=
| Found (pos length : Z)   (* [callbackFunction(pos, length)] *)
| Returned                 (* [lo >= hi]: the search returns, nothing is called *)
| RangeError               (* a decoder ran off the record *)
| OutOfFuel.

(** One read per call; the handler calls the function again.  [lo] only
    ever holds integers; [hi] starts as the quotient [size / 24], which need
    not be one. *)
Fixpoint findMathDataPosition (fuel : nat) (mathIndexFile : File)
    (hexString : string) (lo : Z) (hi : Q) : Position :=
  match fuel with
  | O => OutOfFuel
  | S fuel' =>
      if Qle_bool hi (inject_Z lo) then Returned
      else
        let mid := Qfloor ((inject_Z lo + hi) / 2) in
        let byteArray := recordAt mathIndexFile mid in
        let hash := uint8ArrayToHex (firstn 16 byteArray) in
        if String.eqb hash hexString then
          match readIntegerFrom4Bytes byteArray 16 with
          | None => RangeError
          | Some pos =>
              match readIntegerFrom4Bytes byteArray (16 + 4) with
              | None => RangeError
              | Some length => Found pos length
              end
          end
        else if String.ltb hexString hash then
          findMathDataPosition fuel' mathIndexFile hexString lo (inject_Z mid)
        else
          findMathDataPosition fuel' mathIndexFile hexString (mid + 1) hi
  end.

Inductive Outcome :=
| Image (byteArray : Uint8Array)   (* [callbackFunction(byteArray)] *)
| Silent                           (* nothing is called and nothing is reported *)
| Raised                           (* an exception: a missing file, a decoder out of range *)
| Unfinished.

(** [loadMathImage(hexString, callbackFunction)].  The fuel covers every
    probe the search can make (see [findMathDataPosition_fuel]). *)
Definition loadMathImage (a : LocalArchive) (hexString : string) : Outcome :=
  match _mathIndexFile a with
  | None => Raised
  | Some mathIndexFile =>
      let lo := 0 in
      let hi := (inject_Z (size mathIndexFile) / inject_Z entrySize)%Q in
      match findMathDataPosition (S (Z.to_nat (size mathIndexFile)))
              mathIndexFile hexString lo hi with
      | Found pos length =>
          match _mathDataFile a with
          | None => Raised
          | Some mathDataFile => Image (slice (content mathDataFile) pos (pos + length))
          end
      | Returned => Silent
      | RangeError => Raised
      | OutOfFuel => Unfinished
      end
  end.

(** Scenario 7 of the design: two entries, and the data "HELLOBYE". *)
Definition entry (lastHashByte pos length : Z) : list byte :=
  repeat x00 15 ++ [u8 lastHashByte] ++ u32le pos ++ u32le length.

Definition scenarioArchive : LocalArchive :=
  mkArchive [] [] None
    (Some (mkFile "math.idx" (entry 1 0 5 ++ entry 2 5 3)))
    (Some (mkFile "math.dat" (map u8 [72; 69; 76; 76; 79; 66; 89; 69])))
    None None None true.

Definition hash01 : string := "00000000000000000000000000000001".
Definition hash02 : string := "00000000000000000000000000000002".
Definition hash03 : string := "00000000000000000000000000000003".

End MathImage.

(** ** Articles: [readArticle] and [readArticleChunk] *)

Module Article.
Import JsString Util.

(** Size of chunks read in the dump files: 128 KB. *)
Definition CHUNK_SIZE : Z := 131072.

(** What the bzip2 web worker posts back. *)
Inductive Message :=
| Result (msg : string)
| Recurse
| Debug (msg : string)
| Error (msg : string).

(** What the [onmessage] handler does with one message. *)
Inductive Action :=
| Deliver (title : Title) (htmlArticle : string)  (* [callbackFunction(title, htmlArticle)] *)
| ReadMore (readLength : Z)                       (* [readArticleChunk] again *)
| Report (message : string)                       (* [callbackFunction(null, message)] *)
| Logged                                          (* [console.log] *)
| URIError.                                       (* the decoding raised *)

Definition knownBugMessage : string :=
  "Oops : this article can not be displayed for now. It's a known bug that is not solved yet. See <a href='https://github.com/mossroy/evopedia-html5/issues/6' target='_blank'>issue #6 on Github</a> for more info".

Definition unexpectedMessage : string :=
  "An unexpected error occured during bzip2 decompression. Please report it to us by email or through Github (see About section), with the names of the archive and article, and the following info : message=".

(** The characters kept for the article: [substring(blockOffset,
    blockOffset + articleLength)], then [substring(0, articleLength)]. *)
Definition firstCut (title : Title) (htmlArticles : string) : string :=
  substring htmlArticles (_blockOffset title)
    (_blockOffset title + _articleLength title).

Definition storedArticle (title : Title) (htmlArticles : string) : string :=
  substring (firstCut title htmlArticles) 0 (_articleLength title).

(** [_fileNr] as the file name carries it. *)
Definition prefixedFileNumber (fileNr : JsNumber) : string :=
  match fileNr with
  | Num z => if z <? 10 then "0" +:+ ofZ z else ofZ z
  | NaN => "NaN"
  end.

Definition expectedFileName (title : Title) : string :=
  "wikipedia_" +:+ prefixedFileNumber (_fileNr title) +:+ ".dat".

(** [new RegExp(pattern + "$").test(s)] for the patterns built above: every
    character stands for itself, except the dot, which stands for any
    character but a line terminator; the match must end where [s] ends. *)
Definition matchChar (p c : ascii) : bool :=
  if Ascii.eqb p "."%char then negb (Ascii.eqb c LF) && negb (Ascii.eqb c CR)
  else Ascii.eqb p c.

Fixpoint matchAll (pattern s : string) : bool :=
  match pattern, s with
  | EmptyString, EmptyString => true
  | String p pattern', String c s' => matchChar p c && matchAll pattern' s'
  | _, _ => false
  end.

Definition endsWith (pattern s : string) : bool :=
  let lp := String.length pattern in
  let ls := String.length s in
  if (ls <? lp)%nat then false
  else matchAll pattern (String.substring (ls - lp) lp s).

Inductive Lookup :=
| Selected (dataFile : File)
| Missing     (* no file has the expected name: alert, then [throw new Error] *)
| Hole.       (* [this._dataFiles[i]] is undefined: [.name] raises *)

(** The loop over [this._dataFiles]: the last file whose name ends with the
    expected one is kept. *)
Fixpoint findDataFile (expected : string) (dataFiles : list (option File))
    (dataFile : option File) : Lookup :=
  match dataFiles with
  | [] => match dataFile with Some f => Selected f | None => Missing end
  | None :: _ => Hole
  | Some f :: rest =>
      findDataFile expected rest
        (if endsWith expected (name f) then Some f else dataFile)
  end.

Inductive Outcome :=
| Finished (act : Action)
| MissingFile
| TypeError
| StillReading.   (* the fuel ran out while the handler kept asking for more *)

Section Worker.

(** The bzip2 codec, seen as the message it answers an [uncompress] request
    with, and the built-in [decodeURIComponent(escape(s))], which raises on
    text that is not UTF-8. *)
Variable webworkerBzip2 : list byte -> Message.
Variable decodeUtf8 : string -> option string.

(** [webworkerBzip2.onmessage] as set by [readArticleChunk]. *)
Definition onmessage (title : Title) (readLength : Z) (m : Message) : Action :=
  match m with
  | Result htmlArticles =>
      let htmlArticle := firstCut title htmlArticles in
      if _articleLength title <=? Z.of_nat (String.length htmlArticle) then
        match decodeUtf8 (storedArticle title htmlArticles) with
        | Some decoded => Deliver title decoded
        | None => URIError
        end
      else ReadMore (readLength + CHUNK_SIZE)
  | Recurse => ReadMore (readLength + CHUNK_SIZE)
  | Debug _ => Logged
  | Error msg =>
      if String.eqb msg "No magic number found" then Report knownBugMessage
      else Report (unexpectedMessage +:+ msg)
  end.

(** The bytes sent to the codec for a given read length. *)
Definition compressedArticles (title : Title) (dataFile : File) (readLength : Z)
  : list byte :=
  slice (content dataFile) (_blockStart title) (_blockStart title + readLength).

(** [readArticleChunk]: read, decompress, and either finish or read a
    chunk more.  Nothing in the code bounds the number of rounds. *)
Fixpoint readArticleChunk (fuel : nat) (title : Title) (dataFile : File)
    (readLength : Z) : Outcome :=
  match fuel with
  | O => StillReading
  | S fuel' =>
      match onmessage title readLength
              (webworkerBzip2 (compressedArticles title dataFile readLength)) with
      | ReadMore readLength' => readArticleChunk fuel' title dataFile readLength'
      | act => Finished act
      end
  end.

(** [readArticle(title, callbackFunction)]. *)
Definition readArticle (fuel : nat) (a : LocalArchive) (title : Title) : Outcome :=
  match findDataFile (expectedFileName title) (_dataFiles a) None with
  | Hole => TypeError
  | Missing => MissingFile
  | Selected dataFile => readArticleChunk fuel title dataFile CHUNK_SIZE
  end.

End Worker.

(** The answer of the codec in round [j] (the first round is round 0), and
    whether the handler answers it by reading more. *)
Definition reply (webworkerBzip2 : list byte -> Message) (title : Title)
    (dataFile : File) (j : nat) : Message :=
  webworkerBzip2
    (compressedArticles title dataFile (CHUNK_SIZE + Z.of_nat j * CHUNK_SIZE)).

Definition asksForMore (title : Title) (m : Message) : bool :=
  match m with
  | Recurse => true
  | Result htmlArticles =>
      Z.of_nat (String.length (firstCut title htmlArticles)) <? _articleLength title
  | _ => false
  end.

(** A toy shard and codec: twelve characters of text, then padding; the
    codec asks for more until it has been given more than one chunk, and
    then "decompresses" to the text followed by the title line. *)
Definition toyText : list byte :=
  map u8 [60; 112; 62; 80; 97; 114; 105; 115; 60; 47; 112; 62].

Definition toyFile : File :=
  mkFile "archive/wikipedia_03.dat" (toyText ++ repeat x00 (Z.to_nat 131073)).

Fixpoint bytesToString (bs : list byte) : string :=
  match bs with
  | [] => EmptyString
  | b :: bs' => String (Ascii.ascii_of_nat (Z.to_nat (byteVal b))) (bytesToString bs')
  end.

Definition toyCodec (compressed : list byte) : Message :=
  if Z.of_nat (length compressed) <=? CHUNK_SIZE then Recurse
  else Result (bytesToString (firstn 12 compressed)).

Definition toyArchive : LocalArchive :=
  mkArchive [Some (mkFile "archive/wikipedia_00.dat" []); Some toyFile] [] None None
    None None None None true.

Definition toyTitle : Title :=
  mkTitle "Paris" (Num 3) 0 3 5 (Some 0) None.

(** A codec that answers every request with the bytes it was given, and a
    stand-in for [decodeURIComponent(escape(s))] on the texts of the
    examples: ASCII text decodes to itself, and a text that holds the byte
    255, which no UTF-8 sequence contains, is refused. *)
Definition storedCodec (compressed : list byte) : Message :=
  Result (bytesToString compressed).

Fixpoint holdsByte255 (s : string) : bool :=
  match s with
  | EmptyString => false
  | String c s' => Ascii.eqb c (Ascii.ascii_of_nat 255) || holdsByte255 s'
  end.

Definition strictDecode (s : string) : option string :=
  if holdsByte255 s then None else Some s.

(** Data file 1 with the text of the toy shard, alone in slot 1 of an
    array whose slot 0 was never assigned; and data file 0 with a text whose
    article holds the byte 255. *)
Definition parisFile : File := mkFile "wikipedia_01.dat" toyText.

Definition sparseArchive : LocalArchive :=
  mkArchive [None; Some parisFile] [] None None None None None None true.

Definition parisTitle : Title :=
  mkTitle "Paris" (Num 1) 0 3 5 (Some 0) None.

Definition brokenFile : File :=
  mkFile "wikipedia_00.dat" (map u8 [60; 112; 62; 80; 255; 114; 105; 115; 60; 47; 112; 62]).

Definition brokenArchive : LocalArchive :=
  mkArchive [Some brokenFile] [] None None None None None None true.

Definition brokenTitle : Title :=
  mkTitle "Paris" (Num 0) 0 3 5 (Some 0) None.

End Article.

(** ** Lookup by name: [getTitleByName] *)

Module TitleIndex.
Import JsString Util.

Inductive Promise :=
| Resolved (title : option Title)   (* the title, or [null] *)
| Rejected                          (* no title file *)
| Pending.                          (* the fuel ran out while iterating *)

Section Iterators.

(** The collaborators of [getTitleByName]: [normalize_string.normalizeString],
    and, from titleIterators.js, [findPrefixOffset(titleFile, prefix,
    normalize)] and the [advance] of a [SequentialTitleIterator], seen as a
    function of the offset it stands at: the title decoded there with the
    offset behind it, or [None] at the end of the index. *)
Variable normalizeString : string -> string.
Variable findPrefixOffset : File -> string -> (string -> string) -> Z.
Variable advance : File -> Z -> option (Title * Z).

(** [getNormalizeFunction()]. *)
Definition getNormalizeFunction (a : LocalArchive) : string -> string :=
  if Bool.eqb (_normalizedTitles a) true then normalizeString
  else fun s => s.

(** [iterator.advance().then(check)]: one title per round. *)
Fixpoint check (fuel : nat) (titleFile : File) (normalize : string -> string)
    (titleName normalizedTitleName : string) (offset : Z) : Promise :=
  match fuel with
  | O => Pending
  | S fuel' =>
      match advance titleFile offset with
      | None => Resolved None
      | Some (title, offset') =>
          if negb (String.eqb (normalize (_name title)) normalizedTitleName)
          then Resolved None
          else if String.eqb (_name title) titleName then Resolved (Some title)
          else check fuel' titleFile normalize titleName normalizedTitleName offset'
      end
  end.

(** [getTitleByName(titleName)]. *)
Definition getTitleByName (fuel : nat) (a : LocalArchive) (titleName : string)
  : Promise :=
  let normalize := getNormalizeFunction a in
  let normalizedTitleName := normalize titleName in
  match _titleFile a with
  | None => Rejected
  | Some titleFile =>
      let offset := findPrefixOffset titleFile titleName normalize in
      check fuel titleFile normalize titleName normalizedTitleName offset
  end.

(** The records an iterator yields from an offset on, at most [fuel] of
    them. *)
Fixpoint recordsFrom (fuel : nat) (titleFile : File) (offset : Z) : list Title :=
  match fuel with
  | O => []
  | S fuel' =>
      match advance titleFile offset with
      | None => []
      | Some (title, offset') => title :: recordsFrom fuel' titleFile offset'
      end
  end.

End Iterators.



(** A toy index for examples: each record is a name and a line feed;
    normalization folds ASCII capitals. *)
Definition lower (c : ascii) : ascii :=
  let n := Ascii.nat_of_ascii c in
  if ((65 <=? n) && (n <=? 90))%nat then Ascii.ascii_of_nat (n + 32) else c.

Fixpoint toyNormalize (s : string) : string :=
  match s with
  | EmptyString => EmptyString
  | String c s' => String (lower c) (toyNormalize s')
  end.

Fixpoint line (bs : list byte) : list byte :=
  match bs with
  | [] => []
  | b :: bs' => if Z.eqb (byteVal b) 10 then [] else b :: line bs'
  end.

Definition toyAdvance (titleFile : File) (offset : Z) : option (Title * Z) :=
  if (offset <? 0) || (size titleFile <=? offset) then None
  else
    let l := line (skipn (Z.to_nat offset) (content titleFile)) in
    Some (mkTitle (Article.bytesToString l) (Num 0) 0 0 0 (Some offset) None,
          offset + Z.of_nat (length l) + 1).

Fixpoint toyScan (fuel : nat) (titleFile : File) (prefix : string)
    (normalize : string -> string) (offset : Z) : Z :=
  match fuel with
  | O => offset
  | S fuel' =>
      match toyAdvance titleFile offset with
      | None => offset
      | Some (title, offset') =>
          if String.ltb (normalize (_name title)) prefix
          then toyScan fuel' titleFile prefix normalize offset'
          else offset
      end
  end.

(** A helper that normalizes the prefix it is given before it compares. *)
Definition toyFindPrefixOffset (titleFile : File) (prefix : string)
    (normalize : string -> string) : Z :=
  toyScan (length (content titleFile)) titleFile (normalize prefix) normalize 0.


Fixpoint stringToBytes (s : string) : list byte :=
  match s with
  | EmptyString => []
  | String c s' => u8 (Z.of_nat (Ascii.nat_of_ascii c)) :: stringToBytes s'
  end.

Definition toyIndex : File :=
  mkFile "titles.idx"
    (stringToBytes ("Apple" +:+ lf +:+ "Banana" +:+ lf +:+ "banana" +:+ lf
                    +:+ "Cherry" +:+ lf)).

Definition toyArchive : LocalArchive :=
  mkArchive [] [] (Some toyIndex) None None None None None true.

End TitleIndex.

(** ** Titles near a place: [getTitlesInCoords] *)

Module Nearby.
Import Geometry Util.

(** A rectangle representing all the earth globe. *)
Definition GLOBE_RECTANGLE : rect := mkRect (-181) (-91) 362 182.

Definition retryMessage : string :=
  "The last nearby search did not seem to end well : please try again".

Definition noTitleMessage (titleOffset : option Z) : string :=
  "No title could be found at offset " +:+
  match titleOffset with
  | Some o => JsString.ofZ o
  | None => "undefined"
  end.

(** The title object built in a leaf: a fresh [Title] with its offset in
    the title file and its coordinates set. *)
Definition positionTitle (title_pos : Z) (articleCoordinates : point) : Title :=
  mkTitle "" (Num 0) 0 0 0 (Some title_pos) (Some articleCoordinates).

Definition setGeolocation (geolocation : option point) (t : Title) : Title :=
  mkTitle (_name t) (_fileNr t) (_blockStart t) (_blockOffset t)
    (_articleLength t) (_titleOffset t) geolocation.

(** One call of [getTitlesInCoords] that went past its guard: its
    arguments, the normalized rectangle, and its array
    [titlePositionsFound], which every read of the search shares. *)
Record Search := mkSearch {
  s_archive : LocalArchive;
  s_rect : rect;
  s_maxTitles : Z;
  s_targetRect : rect;
  s_found : list Title
}.

Definition setFound (found : list Title) (s : Search) : Search :=
  mkSearch (s_archive s) (s_rect s) (s_maxTitles s) (s_targetRect s) found.

(** A read of a coordinate file that has been issued and has not come back:
    the arguments of the [getTitlesInCoordsInt] call that issued it and the
    blob it reads. *)
Record CoordRead := mkCoordRead {
  cr_search : nat;
  cr_file : nat;
  cr_pos : Z;
  cr_thisRect : rect;
  cr_blob : list byte
}.

(** A read of one title that has been issued by
    [readTitlesFromTitleCoordsInTitleFile] and has not come back. *)
Record TitleRead := mkTitleRead {
  tr_search : nat;
  tr_i : nat;
  tr_titleOffset : option Z;
  tr_geolocation : option point;
  tr_titlesFound : list Title
}.

(** What the outside sees, latest first. *)
Inductive Effect :=
| Alert (message : string)
| SearchOver (search : nat)                     (* [callbackGetTitlesInCoordsInt] is called *)
| Callback (search : nat) (titles : list Title) (* [callbackFunction(titles, maxTitles, true)] *)
| Exception.                                    (* a handler raised *)

Record State := mkState {
  counter : Z;                     (* [callbackCounterForTitlesInCoordsSearch] *)
  searches : list Search;
  coordReads : list CoordRead;
  titleReads : list TitleRead;
  log : list Effect
}.

Definition initial : State := mkState 0 [] [] [] [].

Definition setCounter (c : Z) (st : State) : State :=
  mkState c (searches st) (coordReads st) (titleReads st) (log st).

Definition emit (e : Effect) (st : State) : State :=
  mkState (counter st) (searches st) (coordReads st) (titleReads st) (e :: log st).

Definition addCoordRead (r : CoordRead) (st : State) : State :=
  mkState (counter st) (searches st) (coordReads st ++ [r]) (titleReads st) (log st).

Definition addTitleRead (r : TitleRead) (st : State) : State :=
  mkState (counter st) (searches st) (coordReads st) (titleReads st ++ [r]) (log st).

Definition setSearches (ss : list Search) (st : State) : State :=
  mkState (counter st) ss (coordReads st) (titleReads st) (log st).

(** What the application and the file readers do to the state. *)
Inductive Event :=
| Call (a : LocalArchive) (rect_ : rect) (maxTitles : Z)
| CoordLoaded (i : nat)    (* [reader.onload] of the [i]-th outstanding coordinate read *)
| TitleLoaded (i : nat).   (* the title list of the [i]-th outstanding title read arrives *)

Section Collaborators.

(** The value of the binary32 pattern held in four bytes, and the
    [advance] of a title iterator (see [TitleIndex]). *)
Variable float32 : Z -> Q.
Variable advance : File -> Z -> option (Title * Z).

(** Modelled from the spec: [util.readFloatFrom4Bytes(byteArray, startIndex,
    true)], the little-endian f32 decoder. *)
Definition readFloatFrom4Bytes (byteArray : Uint8Array) (startIndex : Z)
  : option Q :=
  float32 <$> readIntegerFrom4Bytes byteArray startIndex.

(** [readCoordinates]: latitude first, longitude second; the point is
    (longitude, latitude). *)
Definition readCoordinates (byteArray : Uint8Array) (startIndex : Z)
  : option point :=
  match readFloatFrom4Bytes byteArray startIndex with
  | None => None
  | Some lat =>
      match readFloatFrom4Bytes byteArray (startIndex + 4) with
      | None => None
      | Some long => Some (mkPoint long lat)
      end
  end.

(** [getTitlesStartingAtOffset]: [addNext] pushes titles until the list
    has [titleCount] of them or the iterator is at its end. *)
Fixpoint addNext (remaining : nat) (titleFile : File) (offset : Z)
    (titles : list Title) : list Title :=
  match remaining with
  | O => titles
  | S remaining' =>
      match advance titleFile offset with
      | None => titles
      | Some (title, offset') =>
          addNext remaining' titleFile offset' (titles ++ [title])
      end
  end.

Definition getTitlesStartingAtOffset (a : LocalArchive) (titleOffset : Z)
    (titleCount : Z) : option (list Title) :=
  match _titleFile a with
  | None => None
  | Some titleFile => Some (addNext (Z.to_nat titleCount) titleFile titleOffset [])
  end.

(** The body of [getTitlesInCoordsInt] outside its handler: a reader is set
    up and the blob is sliced from the coordinate file.  [None]: the file
    slot is empty and [.slice] raises. *)
Definition getTitlesInCoordsInt (search : nat) (localArchive : LocalArchive)
    (coordinateFileIndex : nat) (coordFilePos : Z) (thisRect : rect)
    (st : State) : option State :=
  match _coordinateFiles localArchive !! coordinateFileIndex with
  | Some (Some file) =>
      Some (addCoordRead
              (mkCoordRead search coordinateFileIndex coordFilePos thisRect
                 (slice (content file) coordFilePos (coordFilePos + 22 * 65535)))
              st)
  | _ => None
  end.

(** [readTitlesFromTitleCoordsInTitleFile] outside its callback: the
    offset and coordinates of entry [i] are read and a title read is
    issued. *)
Definition readTitlesFromTitleCoordsInTitleFile (search : nat) (i : nat)
    (titlesFound : list Title) (st : State) : State :=
  match searches st !! search with
  | None => emit Exception st
  | Some s =>
      match s_found s !! i with
      | None => emit Exception st
      | Some position =>
          addTitleRead
            (mkTitleRead search i (_titleOffset position) (_geolocation position)
               titlesFound)
            st
      end
  end.

(** [callbackGetTitlesInCoordsInt]: the search is over. *)
Definition callbackGetTitlesInCoordsInt (search : nat) (st : State) : State :=
  let st := emit (SearchOver search) st in
  match searches st !! search with
  | None => emit Exception st
  | Some s =>
      if (0 <? length (s_found s))%nat
      then readTitlesFromTitleCoordsInTitleFile search 0 [] st
      else emit (Callback search (s_found s)) st
  end.

(** The loop over the entries of a leaf.  The flag is [false] when a
    decoder raised; the entries pushed before stay pushed. *)
Fixpoint leafLoop (n : nat) (i : Z) (byteArray : Uint8Array) (targetRect : rect)
    (maxTitles : Z) (titlePositionsFound : list Title) : list Title * bool :=
  match n with
  | O => (titlePositionsFound, true)
  | S n' =>
      let indexInByteArray := 2 + i * 12 in
      match readCoordinates byteArray indexInByteArray with
      | None => (titlePositionsFound, false)
      | Some articleCoordinates =>
          match readIntegerFrom4Bytes byteArray (indexInByteArray + 8) with
          | None => (titlePositionsFound, false)
          | Some title_pos =>
              if negb (containsPoint targetRect articleCoordinates) then
                leafLoop n' (i + 1) byteArray targetRect maxTitles
                  titlePositionsFound
              else if (0 <=? maxTitles)
                      && (Z.of_nat (length titlePositionsFound) <? maxTitles) then
                leafLoop n' (i + 1) byteArray targetRect maxTitles
                  (titlePositionsFound
                   ++ [positionTitle title_pos articleCoordinates])
              else
                leafLoop n' (i + 1) byteArray targetRect maxTitles
                  titlePositionsFound
          end
      end
  end.

(** The entries of a leaf as the design describes them: [n] records of
    coordinates and title offset from entry [i] on; [None] when the bytes
    run out. *)
Fixpoint leafEntries (n : nat) (i : Z) (byteArray : Uint8Array)
  : option (list (point * Z)) :=
  match n with
  | O => Some []
  | S n' =>
      match readCoordinates byteArray (2 + i * 12),
            readIntegerFrom4Bytes byteArray (2 + i * 12 + 8),
            leafEntries n' (i + 1) byteArray with
      | Some coords, Some titleOffset, Some rest => Some ((coords, titleOffset) :: rest)
      | _, _, _ => None
      end
  end.

(** The title objects of the entries that lie in the target rectangle. *)
Definition entriesInside (targetRect : rect) (entries : list (point * Z))
  : list Title :=
  map (fun e => positionTitle (snd e) (fst e))
    (List.filter (fun e => containsPoint targetRect (fst e)) entries).

(** The four conditional recursive calls of an inner node, in their order.
    The flag is [false] when a call raised; what was done before stays
    done and the rest of the handler is skipped. *)
Fixpoint browse (search : nat) (localArchive : LocalArchive)
    (coordinateFileIndex : nat) (targetRect : rect)
    (children : list (Z * rect)) (st : State) : State * bool :=
  match children with
  | [] => (st, true)
  | (pos, rectChild) :: rest =>
      if intersect targetRect rectChild then
        let st1 := setCounter (counter st + 1) st in
        match getTitlesInCoordsInt search localArchive coordinateFileIndex pos
                rectChild st1 with
        | None => (st1, false)
        | Some st' =>
            browse search localArchive coordinateFileIndex targetRect rest st'
        end
      else browse search localArchive coordinateFileIndex targetRect rest st
  end.

Definition finishIfLast (search : nat) (st : State) : State :=
  if counter st =? 0 then callbackGetTitlesInCoordsInt search st else st.

(** [reader.onload] of [getTitlesInCoordsInt], for the read [r] that has
    just been taken off the outstanding ones. *)
Definition onload (r : CoordRead) (st : State) : State :=
  match searches st !! cr_search r with
  | None => emit Exception st
  | Some s =>
      let st := setCounter (counter st - 1) st in
      let maxTitles := s_maxTitles s in
      let targetRect := s_targetRect s in
      if (0 <=? maxTitles) && (maxTitles <=? Z.of_nat (length (s_found s))) then
        finishIfLast (cr_search r) st
      else
        let byteArray := cr_blob r in
        match readIntegerFrom2Bytes byteArray 0 with
        | None => emit Exception st
        | Some selector =>
            if selector =? 65535 then
              match readCoordinates byteArray 2,
                    readIntegerFrom4Bytes byteArray 10,
                    readIntegerFrom4Bytes byteArray 14,
                    readIntegerFrom4Bytes byteArray 18 with
              | Some center, Some lensw, Some lense, Some lennw =>
                  let thisRect := cr_thisRect r in
                  let pos0 := cr_pos r + 22 in
                  let pos1 := pos0 + lensw in
                  let pos2 := pos1 + lense in
                  let pos3 := pos2 + lennw in
                  let rectSW := normalized (rectFromPoints (sw thisRect) center) in
                  let rectNE := normalized (rectFromPoints (ne thisRect) center) in
                  let rectSE := normalized (rectFromPoints (se thisRect) center) in
                  let rectNW := normalized (rectFromPoints (nw thisRect) center) in
                  let '(st', ok) :=
                    browse (cr_search r) (s_archive s) (cr_file r) targetRect
                      [(pos0, rectSW); (pos1, rectSE); (pos2, rectNW);
                       (pos3, rectNE)] st in
                  if ok then finishIfLast (cr_search r) st'
                  else emit Exception st'
              | _, _, _, _ => emit Exception st
              end
            else
              let '(found, ok) :=
                leafLoop (Z.to_nat selector) 0 byteArray targetRect maxTitles
                  (s_found s) in
              let st :=
                setSearches (<[cr_search r := setFound found s]> (searches st)) st in
              if ok then finishIfLast (cr_search r) st else emit Exception st
        end
  end.

(** The loop of [getTitlesInCoords] over the coordinate files: [n] files
    are left, the next one is file [i]. *)
Fixpoint startFiles (search : nat) (localArchive : LocalArchive)
    (n : nat) (i : nat) (st : State) : State :=
  match n with
  | O => st
  | S n' =>
      let st1 := setCounter (counter st + 1) st in
      match getTitlesInCoordsInt search localArchive i 0 GLOBE_RECTANGLE st1 with
      | None => emit Exception st1
      | Some st' => startFiles search localArchive n' (S i) st'
      end
  end.

(** [getTitlesInCoords(rect, maxTitles, callbackFunction)]. *)
Definition getTitlesInCoords (a : LocalArchive) (rect_ : rect) (maxTitles : Z)
    (st : State) : State :=
  if 0 <? counter st then
    setCounter 0 (emit (Alert retryMessage) st)
  else
    let normalizedRectangle := normalized rect_ in
    let search := length (searches st) in
    let st :=
      setSearches
        (searches st ++ [mkSearch a rect_ maxTitles normalizedRectangle []]) st in
    startFiles search a (length (_coordinateFiles a)) 0 st.

(** [Array.prototype.sort] with the comparator of the code: the titles in
    the order of their distance from [currentPosition]; a merge sort stands
    for the sort of the engine, and nothing is said of the order of titles
    at the same distance. *)
Definition distanceTo (currentPosition : point) (t : Title) : Q :=
  match _geolocation t with
  | Some p => distance currentPosition p
  | None => 0
  end.

Definition closerFirst (currentPosition : point) (a b : Title) : Prop :=
  (distanceTo currentPosition a - distanceTo currentPosition b <= 0)%Q.

#[export] Instance closerFirst_dec (c : point) (a b : Title) :
  Decision (closerFirst c a b).
Proof.
  unfold closerFirst.
  destruct (Qlt_le_dec 0 (distanceTo c a - distanceTo c b)) as [H|H].
  - right. intros Hle. exact (Qlt_not_le _ _ H Hle).
  - left. exact H.
Defined.

Definition sortTitles (currentPosition : point) (titles : list Title)
  : list Title :=
  merge_sort (closerFirst currentPosition) titles.

(** The callback of [readTitlesFromTitleCoordsInTitleFile], for the title
    read [r] that has just been taken off the outstanding ones. *)
Definition onTitleList (r : TitleRead) (st : State) : State :=
  match searches st !! tr_search r with
  | None => emit Exception st
  | Some s =>
      let titleList :=
        match tr_titleOffset r with
        | Some titleOffset => getTitlesStartingAtOffset (s_archive s) titleOffset 1
        | None => None
        end in
      match titleList with
      | None => emit Exception st
      | Some [title] =>
          let title := setGeolocation (tr_geolocation r) title in
          let titlesFound := tr_titlesFound r ++ [title] in
          let i := S (tr_i r) in
          if (i <? length (s_found s))%nat then
            readTitlesFromTitleCoordsInTitleFile (tr_search r) i titlesFound st
          else
            let currentPosition := center (s_targetRect s) in
            let sortedTitlesFound := sortTitles currentPosition titlesFound in
            emit (Callback (tr_search r) sortedTitlesFound) st
      | Some _ => emit (Alert (noTitleMessage (tr_titleOffset r))) st
      end
  end.

Definition step (st : State) (e : Event) : State :=
  match e with
  | Call a rect_ maxTitles => getTitlesInCoords a rect_ maxTitles st
  | CoordLoaded i =>
      match coordReads st !! i with
      | None => st
      | Some r =>
          onload r
            (mkState (counter st) (searches st) (delete i (coordReads st))
               (titleReads st) (log st))
      end
  | TitleLoaded i =>
      match titleReads st !! i with
      | None => st
      | Some r =>
          onTitleList r
            (mkState (counter st) (searches st) (coordReads st)
               (delete i (titleReads st)) (log st))
      end
  end.

Definition run (events : list Event) (st : State) : State :=
  fold_left step events st.

End Collaborators.

(** The value of a binary32 pattern, for examples: sign, biased exponent,
    fraction.  The patterns with exponent 255 (infinities, NaN) are not
    numbers and are outside what the examples use. *)
Definition binary32 (bits : Z) : Q :=
  let sign := if bits / 2147483648 =? 0 then 1 else -1 in
  let e := (bits / 8388608) mod 256 in
  let m := bits mod 8388608 in
  if e =? 255 then 0
  else if e =? 0 then Qmake (sign * m) (Pos.pow 2 149)
  else if 150 <=? e then inject_Z (sign * (8388608 + m) * 2 ^ (e - 150))
  else Qmake (sign * (8388608 + m)) (Pos.pow 2 (Z.to_pos (150 - e))).

Definition u16le (n : Z) : list byte := [u8 n; u8 (n / 256)].

(** A leaf entry: latitude and longitude as binary32 patterns, then the
    offset of the title. *)
Definition leafEntry (latBits lonBits titleOffset : Z) : list byte :=
  u32le latBits ++ u32le lonBits ++ u32le titleOffset.

(** Three places: (lon 9, lat 46), (lon 2.25, lat 48.75) and
    (lon -74, lat 40.75), with the offsets of three records of
    [TitleIndex.toyIndex]. *)
Definition placesLeaf : list byte :=
  u16le 3
  ++ leafEntry 1110966272 1091567616 20
  ++ leafEntry 1111687168 1074790400 6
  ++ leafEntry 1109590016 3264479232 0.

(** The same leaf as north-east child of a root whose centre is (0, 0) and
    whose three other children are empty leaves. *)
Definition placesTree : list byte :=
  u16le 65535 ++ u32le 0 ++ u32le 0 ++ u32le 2 ++ u32le 2 ++ u32le 2
  ++ u16le 0 ++ u16le 0 ++ u16le 0 ++ placesLeaf.

Definition placesArchive (coordinates : list byte) : LocalArchive :=
  mkArchive [] [Some (mkFile "coordinates_01.idx" coordinates)]
    (Some TitleIndex.toyIndex) None None None None None true.

(** The rectangle of scenario 6. *)
Definition scenarioRect : rect := mkRect 0 45 10 10.

End Nearby.

(** ** Predicates on the states of the search *)

Module NearbyInv.
Import Geometry Nearby.

(** A title whose coordinates lie in a rectangle. *)
Definition inRect (r : rect) (t : Title) : Prop :=
  exists p, _geolocation t = Some p /\ containsPoint r p = true.

(** A title read issued for entry [tr_i] of the array of [search], with
    [titlesFound] as the titles read so far. *)
Definition NewTitleRead (st' : State) (search : nat) (titlesFound : list Title)
    (tr : TitleRead) : Prop :=
  exists s position,
    searches st' !! search = Some s /\
    s_found s !! tr_i tr = Some position /\
    tr = mkTitleRead search (tr_i tr) (_titleOffset position)
           (_geolocation position) titlesFound.

(** The effects a coordinate handler of [search] may add. *)
Definition OverEffect (st' : State) (search : nat) (e : Effect) : Prop :=
  e = Exception \/ e = SearchOver search \/
  (e = Callback search [] /\ is_Some (searches st' !! search)).

(** The titles read so far once the title of the read [r] has arrived. *)
Definition titlesWith (r : TitleRead) (title : Title) : list Title :=
  tr_titlesFound r ++ [setGeolocation (tr_geolocation r) title].

(** The effects the handler of the title read [r] may add. *)
Definition TitleEffect (st : State) (r : TitleRead) (e : Effect) : Prop :=
  e = Exception \/ (exists message, e = Alert message) \/
  (exists s title,
     searches st !! tr_search r = Some s /\
     e = Callback (tr_search r)
           (sortTitles (center (s_targetRect s)) (titlesWith r title))).

(** What holds of every search, outstanding title read and effect. *)
Definition GoodSearch (s : Search) : Prop :=
  s_targetRect s = normalized (s_rect s) /\
  Forall (inRect (s_targetRect s)) (s_found s).

Definition GoodTitleRead (ss : list Search) (r : TitleRead) : Prop :=
  exists s,
    ss !! tr_search r = Some s /\
    (exists p, tr_geolocation r = Some p /\ containsPoint (s_targetRect s) p = true) /\
    Forall (inRect (s_targetRect s)) (tr_titlesFound r).

Definition Delivered (ss : list Search) (search : nat) (titles : list Title)
  : Prop :=
  exists s,
    ss !! search = Some s /\
    Forall (inRect (s_targetRect s)) titles /\
    StronglySorted (closerFirst (center (s_targetRect s))) titles.

Definition GoodEffect (ss : list Search) (e : Effect) : Prop :=
  match e with
  | Callback search titles => Delivered ss search titles
  | _ => True
  end.

Definition Sound (st : State) : Prop :=
  Forall GoodSearch (searches st) /\
  Forall (GoodTitleRead (searches st)) (titleReads st) /\
  Forall (GoodEffect (searches st)) (log st).

(** The searches of [ss] are still there in [ss'], with the same target
    rectangle. *)
Definition Extends (ss ss' : list Search) : Prop :=
  forall search s,
    ss !! search = Some s ->
    exists s', ss' !! search = Some s' /\ s_targetRect s' = s_targetRect s.

(** A search with a negative bound has found nothing. *)
Definition NothingFound (st : State) : Prop :=
  Forall (fun s => s_maxTitles s < 0 -> s_found s = []) (searches st).

(** Every read and every effect belongs to a search that exists. *)
Definition effectSearch (e : Effect) : option nat :=
  match e with
  | SearchOver search => Some search
  | Callback search _ => Some search
  | _ => None
  end.

Definition WellFormed (st : State) : Prop :=
  Forall (fun r => (cr_search r < length (searches st))%nat) (coordReads st) /\
  Forall (fun r => (tr_search r < length (searches st))%nat) (titleReads st) /\
  Forall (fun e => forall search, effectSearch e = Some search ->
                                  (search < length (searches st))%nat) (log st).

(** Nothing is outstanding for [search] and nothing was ever called for it. *)
Definition Idle (search : nat) (st : State) : Prop :=
  (search < length (searches st))%nat /\
  Forall (fun r => cr_search r <> search) (coordReads st) /\
  Forall (fun r => tr_search r <> search) (titleReads st) /\
  Forall (fun e => effectSearch e <> Some search) (log st).

End NearbyInv.

(** ** Proof steps used more than once *)

Ltac eq_conj := repeat (split; [reflexivity|]).

Ltac over_effects :=
  repeat match goal with
         | |- Forall _ [] => constructor
         | |- Forall _ (_ :: _) =>
             constructor; [first [left; reflexivity | right; left; reflexivity]|]
         end.


(** ** Filling an archive: [initializeFromArchiveFiles] and the storage readers *)

Module Init.
Import JsString.

(** [\d] and [.] of a regular expression without flags. *)
Definition isDigit (c : ascii) : bool :=
  let n := Ascii.nat_of_ascii c in ((48 <=? n) && (n <=? 57))%nat.

Definition digitValue (c : ascii) : Z := Z.of_nat (Ascii.nat_of_ascii c) - 48.

Definition notLineTerminator (c : ascii) : bool :=
  negb (Ascii.eqb c LF) && negb (Ascii.eqb c CR).

(** [1 * /^<prefix>(\d\d).<suffix>$/.exec(name)[1]], or [None] when [exec]
    gives null.  The dot of the pattern is not escaped: it stands for any
    character but a line terminator. *)
Definition execFileNr (prefix suffix name : string) : option Z :=
  match stripPrefix prefix name with
  | Some (String d1 (String d2 (String c rest))) =>
      if isDigit d1 && isDigit d2 && notLineTerminator c && String.eqb rest suffix
      then Some (10 * digitValue d1 + digitValue d2)
      else None
  | _ => None
  end.

(** [/^wikipedia_(\d\d).dat$/] and [/^coordinates_(\d\d).idx$/]. *)
Definition dataFileNr (name : string) : option Z :=
  execFileNr "wikipedia_" "dat" name.

Definition coordinateFileNr (name : string) : option Z :=
  execFileNr "coordinates_" "idx" name.

(** [array[i] = file] on a JavaScript array: below the length the slot is
    replaced; at or past it the array grows to [i + 1] slots and the slots
    in between are holes.  A negative [i] names a property that is no slot:
    the length and the slots stay as they are, and nothing in archive.js
    reads such a property. *)
Definition arraySet (array : list (option File)) (i : Z) (file : File)
  : list (option File) :=
  if i <? 0 then array
  else
    let n := Z.to_nat i in
    if (n <? length array)%nat then <[n := Some file]> array
    else array ++ replicate (n - length array) None ++ [Some file].

(** The file in a slot, if the slot exists and is no hole. *)
Definition slot (array : list (option File)) (n : nat) : option File :=
  match array !! n with
  | Some (Some f) => Some f
  | _ => None
  end.

Definition setDataFiles (v : list (option File)) (a : LocalArchive) : LocalArchive :=
  mkArchive v (_coordinateFiles a) (_titleFile a) (_mathIndexFile a)
    (_mathDataFile a) (_date a) (_language a) (_titleSearchFile a)
    (_normalizedTitles a).

Definition setCoordinateFiles (v : list (option File)) (a : LocalArchive)
  : LocalArchive :=
  mkArchive (_dataFiles a) v (_titleFile a) (_mathIndexFile a)
    (_mathDataFile a) (_date a) (_language a) (_titleSearchFile a)
    (_normalizedTitles a).

Definition setTitleFile (v : File) (a : LocalArchive) : LocalArchive :=
  mkArchive (_dataFiles a) (_coordinateFiles a) (Some v) (_mathIndexFile a)
    (_mathDataFile a) (_date a) (_language a) (_titleSearchFile a)
    (_normalizedTitles a).

Definition setTitleSearchFile (v : File) (a : LocalArchive) : LocalArchive :=
  mkArchive (_dataFiles a) (_coordinateFiles a) (_titleFile a) (_mathIndexFile a)
    (_mathDataFile a) (_date a) (_language a) (Some v) (_normalizedTitles a).

Definition setMathIndexFile (v : File) (a : LocalArchive) : LocalArchive :=
  mkArchive (_dataFiles a) (_coordinateFiles a) (_titleFile a) (Some v)
    (_mathDataFile a) (_date a) (_language a) (_titleSearchFile a)
    (_normalizedTitles a).

Definition setMathDataFile (v : File) (a : LocalArchive) : LocalArchive :=
  mkArchive (_dataFiles a) (_coordinateFiles a) (_titleFile a) (_mathIndexFile a)
    (Some v) (_date a) (_language a) (_titleSearchFile a) (_normalizedTitles a).

(** The body of the loop of [initializeFromArchiveFiles] for one file that
    is not the metadata file. *)
Definition assignFile (file : File) (a : LocalArchive) : LocalArchive :=
  if String.eqb (name file) "titles.idx" then setTitleFile file a
  else if String.eqb (name file) "titles_search.idx" then setTitleSearchFile file a
  else if String.eqb (name file) "math.idx" then setMathIndexFile file a
  else if String.eqb (name file) "math.dat" then setMathDataFile file a
  else
    match coordinateFileNr (name file) with
    | Some intFileNr =>
        setCoordinateFiles (arraySet (_coordinateFiles a) (intFileNr - 1) file) a
    | None =>
        match dataFileNr (name file) with
        | Some intFileNr => setDataFiles (arraySet (_dataFiles a) intFileNr file) a
        | None => a
        end
    end.

(** The loop over [archiveFiles]; a slot that holds no file is skipped.
    [reads] collects the files handed to [readMetadataFile(file, callback)]:
    their text arrives later, and the callback is only ever called from
    there. *)
Fixpoint assignFiles (archiveFiles : list (option File)) (a : LocalArchive)
    (reads : list File) : LocalArchive * list File :=
  match archiveFiles with
  | [] => (a, reads)
  | None :: rest => assignFiles rest a reads
  | Some file :: rest =>
      if String.eqb (name file) "metadata.txt"
      then assignFiles rest a (reads ++ [file])
      else assignFiles rest (assignFile file a) reads
  end.

(** [initializeFromArchiveFiles(archiveFiles, callback)]: the archive when
    the function returns, and the metadata reads it has issued. *)
Definition initializeFromArchiveFiles (a : LocalArchive)
    (archiveFiles : list (option File)) : LocalArchive * list File :=
  assignFiles archiveFiles (setCoordinateFiles [] (setDataFiles [] a)) [].

(** [isReady()] and [hasCoordinates()]. *)
Definition isReady (a : LocalArchive) : bool :=
  match _titleFile a with
  | Some _ => (0 <? length (_dataFiles a))%nat
  | None => false
  end.

Definition hasCoordinates (a : LocalArchive) : bool :=
  (0 <? length (_coordinateFiles a))%nat.

(** What a chain of storage reads has come to. *)
Inductive Reading :=
| Done (a : LocalArchive) (alerts : list string)
| StillListing (a : LocalArchive).   (* the fuel ran out while files kept coming *)

Section Storage.

(** [storage.get(path)]: the file the promise resolves to, or the error it
    is rejected with, as the string the code compares it with. *)
Variable get : string -> File + string.

Definition dataFilePath (directory : string) (index : Z) : string :=
  directory +:+ "wikipedia_" +:+ Article.prefixedFileNumber (Num index) +:+ ".dat".

Definition coordinateFilePath (directory : string) (index : Z) : string :=
  directory +:+ "coordinates_" +:+ Article.prefixedFileNumber (Num index) +:+ ".idx".

Definition dataFileAlert (directory : string) (index : Z) (error : string) : string :=
  "Error reading data file " +:+ ofZ index +:+ " in directory " +:+ directory
  +:+ " : " +:+ error.

Definition coordinateFileAlert (directory : string) (index : Z) (error : string)
  : string :=
  "Error reading coordinates file " +:+ ofZ index +:+ " in directory "
  +:+ directory +:+ " : " +:+ error.

(** [readDataFilesFromStorage(storage, directory, index)]: one file per
    round, until the storage refuses one. *)
Fixpoint readDataFilesFromStorage (fuel : nat) (directory : string) (index : Z)
    (a : LocalArchive) : Reading :=
  match fuel with
  | O => StillListing a
  | S fuel' =>
      match get (dataFilePath directory index) with
      | inl file =>
          readDataFilesFromStorage fuel' directory (index + 1)
            (setDataFiles (arraySet (_dataFiles a) index file) a)
      | inr error =>
          if negb (String.eqb error "NotFoundError")
          then Done a [dataFileAlert directory index error]
          else Done a []
      end
  end.

(** [readCoordinateFilesFromStorage(storage, directory, index)]: file
    [index] goes to slot [index - 1]. *)
Fixpoint readCoordinateFilesFromStorage (fuel : nat) (directory : string)
    (index : Z) (a : LocalArchive) : Reading :=
  match fuel with
  | O => StillListing a
  | S fuel' =>
      match get (coordinateFilePath directory index) with
      | inl file =>
          readCoordinateFilesFromStorage fuel' directory (index + 1)
            (setCoordinateFiles (arraySet (_coordinateFiles a) (index - 1) file) a)
      | inr error =>
          if negb (String.eqb error "NotFoundError")
          then Done a [coordinateFileAlert directory index error]
          else Done a []
      end
  end.

End Storage.

(** A storage that holds the given data files of a directory and nothing
    else, for examples. *)
Definition toyStorage (directory : string) (files : list File) (path : string)
  : File + string :=
  match List.find (fun f => String.eqb (directory +:+ name f) path) files with
  | Some f => inl f
  | None => inr "NotFoundError"
  end.

Definition shard (n : string) : File :=
  mkFile ("wikipedia_" +:+ n +:+ ".dat") [x00].

End Init.

(** ** Prefix search and random title: [findTitlesWithPrefix], [getRandomTitle] *)

Module Prefix.
Import JsString Util.

Inductive Outcome :=
| Delivered (titles : list Title) (maxSize : Z)   (* [callbackFunction(titles, maxSize)] *)
| NoTitleFile                                   (* there is no title file to search *)
| Pending.                                      (* the fuel ran out while iterating *)

(** The test of [addNext]: [name.length < prefix.length ||
    name.substring(0, prefix.length) !== prefix]. *)
Definition lacksPrefix (prefix name : string) : bool :=
  (String.length name <? String.length prefix)%nat
  || negb (String.eqb (substring name 0 (Z.of_nat (String.length prefix))) prefix).

Section Iterators.

(** The collaborators, as in [TitleIndex]. *)
Variable normalizeString : string -> string.
Variable findPrefixOffset : File -> string -> (string -> string) -> Z.
Variable advance : File -> Z -> option (Title * Z).

(** [addNext] of [findTitlesWithPrefix]: one title per round. *)
Fixpoint addNext (fuel : nat) (titleFile : File) (normalize : string -> string)
    (prefix : string) (maxSize : Z) (titles : list Title) (offset : Z) : Outcome :=
  match fuel with
  | O => Pending
  | S fuel' =>
      if maxSize <=? Z.of_nat (length titles) then Delivered titles maxSize
      else
        match advance titleFile offset with
        | None => Delivered titles maxSize
        | Some (title, offset') =>
            let name := normalize (_name title) in
            if lacksPrefix prefix name then Delivered titles maxSize
            else
              addNext fuel' titleFile normalize prefix maxSize (titles ++ [title])
                offset'
        end
  end.

(** [findTitlesWithPrefix(prefix, maxSize, callbackFunction)]. *)
Definition findTitlesWithPrefix (fuel : nat) (a : LocalArchive) (prefix : string)
    (maxSize : Z) : Outcome :=
  let titles := [] in
  let normalize := TitleIndex.getNormalizeFunction normalizeString a in
  let prefix := normalize prefix in
  match _titleFile a with
  | None => NoTitleFile
  | Some titleFile =>
      let offset := findPrefixOffset titleFile prefix normalize in
      addNext fuel titleFile normalize prefix maxSize titles offset
  end.

(** [normalizeStringIfCompatibleArchive(string)]. *)
Definition normalizeStringIfCompatibleArchive (a : LocalArchive) (s : string)
  : string :=
  if Bool.eqb (_normalizedTitles a) true then normalizeString s else s.

End Iterators.

(** The offset an iterator stands at after [n] titles. *)
Fixpoint offsetAfter (advance : File -> Z -> option (Title * Z)) (n : nat)
    (titleFile : File) (offset : Z) : Z :=
  match n with
  | O => offset
  | S n' =>
      match advance titleFile offset with
      | None => offset
      | Some (_, offset') => offsetAfter advance n' titleFile offset'
      end
  end.

(** The loop of [getRandomTitle] that finds the next line feed:
    [newLineIndex] counts up while it is inside the array and the byte it
    is at is not 10. *)
Fixpoint newLine (byteArray : Uint8Array) (newLineIndex : Z) : Z :=
  match byteArray with
  | [] => newLineIndex
  | b :: rest => if byteVal b =? 10 then newLineIndex else newLine rest (newLineIndex + 1)
  end.

Inductive Pick :=
| Picked (title : option Title)   (* [callbackFunction(title)]; [None] is null *)
| TypeError.                      (* [this._titleFile] is null *)

Section Random.

(** [titleIterators.MAX_TITLE_LENGTH] and the [advance] of an iterator. *)
Variable MAX_TITLE_LENGTH : Z.
Variable advance : File -> Z -> option (Title * Z).

(** Modelled from the spec: [util.readFileSlice(file, begin, size)], a
    random-access read of a byte range of a file. *)
Definition readFileSlice (file : File) (begin size_ : Z) : Uint8Array :=
  slice (content file) begin (begin + size_).

(** The offset the iterator of [getRandomTitle] is created at, for the
    value [offset] that [Math.floor(Math.random() * this._titleFile.size)]
    gave. *)
Definition iteratorOffset (offset : Z) (titleFile : File) : Z :=
  let byteArray := readFileSlice titleFile offset MAX_TITLE_LENGTH in
  offset + newLine byteArray 0 + 1.

(** [getRandomTitle(callbackFunction)], for that value [offset]. *)
Definition getRandomTitle (offset : Z) (a : LocalArchive) : Pick :=
  match _titleFile a with
  | None => TypeError
  | Some titleFile =>
      Picked (fst <$> advance titleFile (iteratorOffset offset titleFile))
  end.

End Random.

End Prefix.

(** ** The bound of a search *)

Module NearbyBound.
Import Nearby.

(** No search holds more title positions than its bound allows, and no
    title read is further than the bound. *)
Definition BoundedSearch (s : Search) : Prop :=
  0 <= s_maxTitles s -> Z.of_nat (length (s_found s)) <= s_maxTitles s.

Definition BoundedRead (ss : list Search) (r : TitleRead) : Prop :=
  exists s,
    ss !! tr_search r = Some s /\
    (length (tr_titlesFound r) <= tr_i r)%nat /\
    (0 <= s_maxTitles s -> Z.of_nat (tr_i r) < s_maxTitles s).

Definition BoundedEffect (ss : list Search) (e : Effect) : Prop :=
  match e with
  | Callback search titles =>
      exists s,
        ss !! search = Some s /\
        (0 <= s_maxTitles s -> Z.of_nat (length titles) <= s_maxTitles s)
  | _ => True
  end.

Definition Bounded (st : State) : Prop :=
  Forall BoundedSearch (searches st) /\
  Forall (BoundedRead (searches st)) (titleReads st) /\
  Forall (BoundedEffect (searches st)) (log st).

(** The searches of [ss] are still there in [ss'], with the same bound. *)
Definition SameBounds (ss ss' : list Search) : Prop :=
  forall search s,
    ss !! search = Some s ->
    exists s', ss' !! search = Some s' /\ s_maxTitles s' = s_maxTitles s.

End NearbyBound.

(** ** The start of a search *)

Module NearbyStart.
Import Nearby.

(** The reads that [getTitlesInCoords] issues for the coordinate files
    [files], the first of which is file [i]: each at the root of its file,
    for the rectangle of the whole globe. *)
Definition rootReads (search i : nat) (files : list File) : list CoordRead :=
  imap (fun j file =>
          mkCoordRead search (i + j) 0 GLOBE_RECTANGLE
            (Util.slice (content file) 0 (0 + 22 * 65535)))
    files.



End NearbyStart.

(** * Part II: properties *)

(** *** Properties of the metadata parse *)

Section MetadataFacts.
Import JsString Metadata.

Lemma matchHere_needs_LF key c s :
  Ascii.eqb c LF = false -> matchHere key (String c s) = None.
Proof.
  intros Hc. unfold matchHere. cbn [stripPrefix].
  rewrite Ascii.eqb_sym, Hc. reflexivity.
Qed.

Lemma exec_skips_first_line key h s :
  noLF h = true -> exec key (h +:+ s) = exec key s.
Proof.
  induction h as [|c h IH]; intros Hh; [reflexivity|].
  cbn [noLF] in Hh. apply andb_true_iff in Hh as [Hc Hh].
  apply negb_true_iff in Hc.
  change (String c h +:+ s) with (String c (h +:+ s)).
  cbn [exec]. rewrite (matchHere_needs_LF _ _ _ Hc). auto.
Qed.

Lemma readMetadataFile_found a md l d :
  exec "language" md = Some l -> exec "date" md = Some d ->
  readMetadataFile a md =
    (setNormalizedTitles
       match exec "normalized_titles" md with
       | Some v => negb (String.eqb v "0")
       | None => true
       end
       (setDate d (setLanguage l a)), Loaded).
Proof.
  intros Hl Hd. unfold readMetadataFile. rewrite Hl, Hd.
  destruct (exec "normalized_titles" md) as [v|]; [|reflexivity].
  destruct (String.eqb v "0"); reflexivity.
Qed.

End MetadataFacts.

Example metadata_scenario_raises :
  Metadata.readMetadataFile newLocalArchive Metadata.scenarioText
  = (newLocalArchive, Metadata.TypeError).
Proof. vm_compute. reflexivity. Qed.

Example metadata_dump_parses :
  Metadata.readMetadataFile newLocalArchive Metadata.dumpText
  = (mkArchive [] [] None None None (Some "2014-06-01"%string) (Some "en"%string)
       None false, Metadata.Loaded).
Proof. vm_compute. reflexivity. Qed.

Example metadata_other_value_is_true :
  _normalizedTitles
    (fst (Metadata.readMetadataFile
            (setNormalizedTitles false newLocalArchive)
            (JsString.lf +:+ "language=de" +:+ JsString.lf +:+ "date=2013" +:+
             JsString.lf +:+ "normalized_titles = 00" +:+ JsString.lf)))
  = true.
Proof. vm_compute. reflexivity. Qed.

(** C3 (as stated, refuted): on the text of the scenario, whose first key
    sits on the first line, the parse does not set the language to "en",
    the date to "2014-06-01" and normalizedTitles to false: the pattern for
    [language] asks for a line feed before the key, finds none, and the
    handler raises with the three fields as the constructor left them. *)
Lemma C3_scenario_text_not_parsed :
  let r := Metadata.readMetadataFile newLocalArchive Metadata.scenarioText in
  snd r = Metadata.TypeError /\
  _language (fst r) = None /\
  _date (fst r) = None /\
  _normalizedTitles (fst r) = true /\
  ~ (_language (fst r) = Some "en"%string /\
     _date (fst r) = Some "2014-06-01"%string /\
     _normalizedTitles (fst r) = false).
Proof.
  vm_compute. repeat split; try reflexivity.
  intros [H _]. discriminate H.
Qed.

(** C3 (amended): behind any first line (a text [h] without line feed, e.g.
    the header "[dump]"), the text of the scenario sets language to "en",
    date to "2014-06-01" and normalizedTitles to false; and whenever the
    language and date patterns both match, the parse completes and
    normalizedTitles is false for the value "0", true for any other value
    and true when the key is absent. *)
Theorem C3_metadata_parse :
  forall (a : LocalArchive) (h : string),
    Metadata.noLF h = true ->
    (let r := Metadata.readMetadataFile a
                (h +:+ JsString.lf +:+ Metadata.scenarioText) in
     snd r = Metadata.Loaded /\
     _language (fst r) = Some "en"%string /\
     _date (fst r) = Some "2014-06-01"%string /\
     _normalizedTitles (fst r) = false)
    /\
    forall (md l d : string),
      Metadata.exec "language" md = Some l ->
      Metadata.exec "date" md = Some d ->
      let r := Metadata.readMetadataFile a md in
      snd r = Metadata.Loaded /\
      _language (fst r) = Some l /\
      _date (fst r) = Some d /\
      (Metadata.exec "normalized_titles" md = Some "0"%string ->
         _normalizedTitles (fst r) = false) /\
      (forall v, Metadata.exec "normalized_titles" md = Some v -> v <> "0"%string ->
         _normalizedTitles (fst r) = true) /\
      (Metadata.exec "normalized_titles" md = None ->
         _normalizedTitles (fst r) = true).
Proof.
  intros a h Hh. split.
  - cbv zeta. unfold Metadata.readMetadataFile.
    rewrite !(exec_skips_first_line _ h _ Hh).
    change (Metadata.exec "language" (JsString.lf +:+ Metadata.scenarioText))
      with (Some "en"%string).
    change (Metadata.exec "date" (JsString.lf +:+ Metadata.scenarioText))
      with (Some "2014-06-01"%string).
    change (Metadata.exec "normalized_titles"
              (JsString.lf +:+ Metadata.scenarioText))
      with (Some "0"%string).
    cbn. auto.
  - intros md l d Hl Hd r. subst r.
    rewrite (readMetadataFile_found a md l d Hl Hd). cbn [fst snd].
    cbn [setNormalizedTitles setDate setLanguage _language _date
         _normalizedTitles].
    repeat split.
    + intros ->. reflexivity.
    + intros v -> Hv. apply negb_true_iff. apply String.eqb_neq. exact Hv.
    + intros ->. reflexivity.
Qed.

Lemma C3_metadata_parse_witness :
  Metadata.noLF "[dump]" = true /\
  Metadata.exec "language" Metadata.dumpText = Some "en"%string /\
  Metadata.exec "date" Metadata.dumpText = Some "2014-06-01"%string /\
  _normalizedTitles
    (fst (Metadata.readMetadataFile newLocalArchive Metadata.dumpText)) = false.
Proof.
  assert (Hh : Metadata.noLF "[dump]" = true) by reflexivity.
  assert (Hl : Metadata.exec "language" Metadata.dumpText = Some "en"%string)
    by (vm_compute; reflexivity).
  assert (Hd : Metadata.exec "date" Metadata.dumpText = Some "2014-06-01"%string)
    by (vm_compute; reflexivity).
  split; [exact Hh|]. split; [exact Hl|]. split; [exact Hd|].
  destruct (C3_metadata_parse newLocalArchive "[dump]" Hh) as [_ Hgen].
  destruct (Hgen Metadata.dumpText _ _ Hl Hd) as (_ & _ & _ & H0 & _).
  apply H0. vm_compute. reflexivity.
Defined.

(** *** Ranged reads and decoders *)

Section UtilFacts.
Import Util.

Lemma slice_nonneg (f : list byte) (s n : Z) :
  0 <= s -> 0 <= n ->
  slice f s (s + n) = firstn (Z.to_nat n) (skipn (Z.to_nat s) f).
Proof.
  intros Hs Hn. unfold slice.
  set (size := Z.of_nat (length f)).
  assert (Hsize : 0 <= size) by (unfold size; lia).
  rewrite (proj2 (Z.ltb_ge s 0) Hs).
  rewrite (proj2 (Z.ltb_ge (s + n) 0)) by lia.
  destruct (Z.le_gt_cases s size) as [Hle|Hgt].
  - rewrite (Z.min_l s size) by lia.
    destruct (Z.le_gt_cases (s + n) size) as [Hle2|Hgt2].
    + rewrite Z.min_l by lia. rewrite Z.max_l by lia.
      f_equal. f_equal. lia.
    + rewrite Z.min_r by lia. rewrite Z.max_l by lia.
      assert (Hlen : length (skipn (Z.to_nat s) f) = Z.to_nat (size - s)).
      { rewrite length_skipn. unfold size. lia. }
      rewrite <- Hlen. rewrite firstn_all.
      symmetry. apply firstn_all2. lia.
  - rewrite (Z.min_r s size) by lia.
    rewrite !skipn_all2 by (unfold size in *; lia).
    rewrite !firstn_nil. reflexivity.
Qed.

Lemma slice_window (pre w post : list byte) (n : Z) :
  Z.of_nat (length w) <= n ->
  exists rest,
    slice (pre ++ w ++ post) (Z.of_nat (length pre)) (Z.of_nat (length pre) + n)
    = w ++ rest.
Proof.
  intros Hn. rewrite slice_nonneg by lia.
  rewrite Nat2Z.id. rewrite skipn_app, skipn_all, Nat.sub_diag, drop_0.
  cbn [app]. rewrite firstn_app.
  rewrite firstn_all2 by lia. eexists. reflexivity.
Qed.

Lemma byteVal_u8 (n : Z) : byteVal (u8 n) = n mod 256.
Proof.
  unfold byteVal, u8.
  assert (Hlt : (Z.to_N (n mod 256) < 256)%N).
  { pose proof (Z.mod_pos_bound n 256 ltac:(lia)). lia. }
  destruct (Byte.of_N (Z.to_N (n mod 256))) as [b|] eqn:Hb.
  - apply Byte.to_of_N in Hb. rewrite Hb.
    pose proof (Z.mod_pos_bound n 256 ltac:(lia)). lia.
  - apply Byte.of_N_None_iff in Hb. lia.
Qed.

Lemma littleEndian_u32le (n : Z) :
  0 <= n < 4294967296 -> littleEndian (u32le n) = n.
Proof.
  intros Hn. unfold u32le. cbn [littleEndian]. rewrite !byteVal_u8.
  replace (n / 65536) with (n / 256 / 256)
    by (rewrite Z.div_div by lia; reflexivity).
  replace (n / 16777216) with (n / 256 / 256 / 256)
    by (rewrite !Z.div_div by lia; reflexivity).
  pose proof (Z.div_mod n 256 ltac:(lia)).
  pose proof (Z.div_mod (n / 256) 256 ltac:(lia)).
  pose proof (Z.div_mod (n / 256 / 256) 256 ltac:(lia)).
  assert (n / 256 / 256 / 256 < 256).
  { apply Z.div_lt_upper_bound; [lia|].
    apply Z.div_lt_upper_bound; [lia|].
    apply Z.div_lt_upper_bound; lia. }
  assert (0 <= n / 256 / 256 / 256).
  { repeat (apply Z.div_pos; [|lia]). lia. }
  rewrite (Z.mod_small (n / 256 / 256 / 256) 256) by lia.
  lia.
Qed.

End UtilFacts.

(** *** Redirect resolution *)

Section RedirectFacts.
Import Util Redirect.

(** The handler on a window that holds the fifteen bytes of a record. *)
Lemma assignFields_window (r0 r1 f s0 s1 s2 s3 o0 o1 o2 o3 a0 a1 a2 a3 : byte)
    (rest : list byte) (t : Title) :
  assignFields
    ([r0; r1; f; s0; s1; s2; s3; o0; o1; o2; o3; a0; a1; a2; a3] ++ rest) t
  = (mkTitle (_name t) (Num (byteVal f))
       (byteVal s0 + 256 * byteVal s1 + 65536 * byteVal s2 + 16777216 * byteVal s3)
       (byteVal o0 + 256 * byteVal o1 + 65536 * byteVal o2 + 16777216 * byteVal o3)
       (byteVal a0 + 256 * byteVal a1 + 65536 * byteVal a2 + 16777216 * byteVal a3)
       (_titleOffset t) (_geolocation t), true).
Proof.
  cbv - [byteVal Z.add Z.mul].
  rewrite Z.mul_1_l.
  f_equal. f_equal; lia.
Qed.

Lemma resolveRedirect_window (a : LocalArchive) (titleFile : File)
    (pre post : list byte)
    (r0 r1 f s0 s1 s2 s3 o0 o1 o2 o3 a0 a1 a2 a3 : byte)
    (title : nat) (st : gmap nat Title) (t : Title) :
  _titleFile a = Some titleFile ->
  st !! title = Some t ->
  content titleFile = pre ++ [r0; r1; f; s0; s1; s2; s3; o0; o1; o2; o3; a0; a1; a2; a3]
                  ++ post ->
  _blockStart t = Z.of_nat (length pre) ->
  resolveRedirect a title st
  = (<[title :=
        mkTitle (_name t) (Num (byteVal f))
          (byteVal s0 + 256 * byteVal s1 + 65536 * byteVal s2 + 16777216 * byteVal s3)
          (byteVal o0 + 256 * byteVal o1 + 65536 * byteVal o2 + 16777216 * byteVal o3)
          (byteVal a0 + 256 * byteVal a1 + 65536 * byteVal a2 + 16777216 * byteVal a3)
          (_titleOffset t) (_geolocation t)]> st,
     Resolved title).
Proof.
  intros Hf Hst Hc Hbs. unfold resolveRedirect. rewrite Hf, Hst, Hc, Hbs.
  destruct (slice_window pre
              [r0; r1; f; s0; s1; s2; s3; o0; o1; o2; o3; a0; a1; a2; a3]
              post 16 ltac:(cbn; lia)) as [rest ->].
  rewrite assignFields_window. reflexivity.
Qed.

(** An empty read: nothing is written and nothing is called. *)
Lemma resolveRedirect_past_end (a : LocalArchive) (titleFile : File)
    (title : nat) (st : gmap nat Title) (t : Title) :
  _titleFile a = Some titleFile ->
  st !! title = Some t ->
  size titleFile <= _blockStart t ->
  resolveRedirect a title st = (st, NotFound).
Proof.
  intros Hf Hst Hge. unfold size in Hge. unfold resolveRedirect. rewrite Hf, Hst.
  rewrite slice_nonneg by lia.
  rewrite skipn_all2 by lia. rewrite firstn_nil. reflexivity.
Qed.

Lemma u32le_value (n : Z) :
  0 <= n < 4294967296 ->
  byteVal (u8 n) + 256 * byteVal (u8 (n / 256)) + 65536 * byteVal (u8 (n / 65536))
  + 16777216 * byteVal (u8 (n / 16777216)) = n.
Proof.
  intros Hn. pose proof (littleEndian_u32le n Hn) as H.
  unfold u32le in H. cbn [littleEndian] in H. lia.
Qed.

End RedirectFacts.

Example redirect_scenario :
  Redirect.resolveRedirect Redirect.scenarioArchive 0%nat
    {[ 0%nat := Redirect.scenarioTitle ]} =
  ({[ 0%nat := mkTitle "Berlin" (Num 3) 1000 42 7 (Some 17) None ]},
   Redirect.Resolved 0%nat).
Proof. vm_compute. reflexivity. Qed.

(** C6 (as stated, refuted): not for every title.  The title of scenario 5,
    once resolved, has blockStart 1000, past the end of the 216-byte title
    file: the read is empty, [resolveRedirect] raises, writes no field and
    passes no title on. *)
Lemma C6_empty_read_rewrites_nothing :
  let t := mkTitle "Berlin" (Num 3) 1000 42 7 (Some 17) None in
  let r := Redirect.resolveRedirect Redirect.scenarioArchive 0%nat
             {[ 0%nat := t ]} in
  snd r = Redirect.NotFound /\
  snd r <> Redirect.Resolved 0%nat /\
  fst r !! 0%nat = Some t.
Proof. vm_compute. repeat split; try reflexivity. discriminate. Qed.

(** C6 (amended): for every title object [t] of the store for which the
    title file holds the fifteen bytes [0..=14] of a record at offset
    [t.blockStart], [resolveRedirect] passes the same reference on and has
    rewritten, in that object, fileNr from byte [2] and blockStart,
    blockOffset and articleLength from the little-endian words at [3..=6],
    [7..=10] and [11..=14]; name, titleOffset and geolocation keep their
    values and every other object of the store is untouched. *)
Theorem C6_resolveRedirect_rewrites_four_fields :
  forall (a : LocalArchive) (titleFile : File) (pre post : list byte)
         (r0 r1 f s0 s1 s2 s3 o0 o1 o2 o3 a0 a1 a2 a3 : byte)
         (title : nat) (st : gmap nat Title) (t : Title),
    _titleFile a = Some titleFile ->
    st !! title = Some t ->
    content titleFile
    = pre ++ [r0; r1; f; s0; s1; s2; s3; o0; o1; o2; o3; a0; a1; a2; a3] ++ post ->
    _blockStart t = Z.of_nat (length pre) ->
    let r := Redirect.resolveRedirect a title st in
    snd r = Redirect.Resolved title /\
    fst r !! title =
      Some (mkTitle (_name t) (Num (Util.byteVal f))
              (Util.byteVal s0 + 256 * Util.byteVal s1 + 65536 * Util.byteVal s2
               + 16777216 * Util.byteVal s3)
              (Util.byteVal o0 + 256 * Util.byteVal o1 + 65536 * Util.byteVal o2
               + 16777216 * Util.byteVal o3)
              (Util.byteVal a0 + 256 * Util.byteVal a1 + 65536 * Util.byteVal a2
               + 16777216 * Util.byteVal a3)
              (_titleOffset t) (_geolocation t)) /\
    forall other : nat, other <> title -> fst r !! other = st !! other.
Proof.
  intros a titleFile pre post r0 r1 f s0 s1 s2 s3 o0 o1 o2 o3 a0 a1 a2 a3
         title st t Hf Hst Hfile Hbs r.
  subst r.
  rewrite (resolveRedirect_window a titleFile pre post r0 r1 f s0 s1 s2 s3
             o0 o1 o2 o3 a0 a1 a2 a3 title st t Hf Hst Hfile Hbs).
  cbn [fst snd]. split; [reflexivity|]. split.
  - apply lookup_insert_eq.
  - intros other Hne. apply lookup_insert_ne. congruence.
Qed.

Lemma C6_resolveRedirect_witness :
  fst (Redirect.resolveRedirect Redirect.scenarioArchive 0%nat
         {[ 0%nat := Redirect.scenarioTitle; 1%nat := Redirect.articleTitle ]})
    !! 0%nat
  = Some (mkTitle "Berlin" (Num 3) 1000 42 7 (Some 17) None).
Proof.
  set (st := {[ 0%nat := Redirect.scenarioTitle;
                1%nat := Redirect.articleTitle ]} : gmap nat Title).
  assert (Hst : st !! 0%nat = Some Redirect.scenarioTitle)
    by (vm_compute; reflexivity).
  assert (Hfile : content (mkFile "titles.idx" Redirect.scenarioFile)
                  = repeat x00 200
                    ++ [x00; x00; Util.u8 3; Util.u8 1000; Util.u8 3; x00; x00;
                        Util.u8 42; x00; x00; x00; Util.u8 7; x00; x00; x00]
                    ++ [x0a])
    by (vm_compute; reflexivity).
  assert (Hbs : _blockStart Redirect.scenarioTitle
                = Z.of_nat (length (repeat x00 200)))
    by (vm_compute; reflexivity).
  pose proof (C6_resolveRedirect_rewrites_four_fields
                Redirect.scenarioArchive _ _ _ _ _ _ _ _ _ _ _ _ _ _ _ _ _ _
                0%nat st _ eq_refl Hst Hfile Hbs) as H.
  cbv zeta in H. destruct H as (_ & H & _).
  rewrite H. vm_compute. reflexivity.
Defined.

(** C7 (as stated, refuted): [resolveRedirect] never looks at whether its
    title is a redirect.  The article title (shard 1, blockStart 0,
    blockOffset 5, length 9) is rewritten by the first call to the pointer
    (3, 0, 42, 7) found at offset 0 of the title file, and the second call
    leaves it there: its four fields are not back at their original
    values. *)
Lemma C7_twice_changes_an_article_title :
  let st := {[ 0%nat := Redirect.articleTitle ]} : gmap nat Title in
  let r1 := Redirect.resolveRedirect Redirect.selfArchive 0%nat st in
  let r2 := Redirect.resolveRedirect Redirect.selfArchive 0%nat (fst r1) in
  snd r1 = Redirect.Resolved 0%nat /\
  snd r2 = Redirect.Resolved 0%nat /\
  fst r2 !! 0%nat = Some (mkTitle "Paris" (Num 3) 0 42 7 (Some 0) None) /\
  (_fileNr Redirect.articleTitle, _blockStart Redirect.articleTitle,
   _blockOffset Redirect.articleTitle, _articleLength Redirect.articleTitle)
  = (Num 1, 0, 5, 9).
Proof. vm_compute. repeat split; reflexivity. Qed.

(** C7 (amended): [resolveRedirect] makes no redirect test: each call
    overwrites the four fields with the record found at the blockStart the
    title holds.  When the title file holds a record at [t.blockStart] and a
    record at the blockStart that this first record encodes, two calls
    pass the same reference on and leave in the object the four values of
    the second record, with name, titleOffset and geolocation as they were:
    applied twice it is a no-op exactly when that second record encodes the
    four values [t] started with, whatever kind of title [t] is. *)
Theorem C7_resolveRedirect_twice_follows_two_records :
  forall (a : LocalArchive) (titleFile : File)
         (pre1 post1 pre2 post2 : list byte)
         (r0 r1 f s0 s1 s2 s3 o0 o1 o2 o3 a0 a1 a2 a3 : byte)
         (q0 q1 g u0 u1 u2 u3 p0 p1 p2 p3 l0 l1 l2 l3 : byte)
         (title : nat) (st : gmap nat Title) (t : Title),
    _titleFile a = Some titleFile ->
    st !! title = Some t ->
    content titleFile
    = pre1 ++ [r0; r1; f; s0; s1; s2; s3; o0; o1; o2; o3; a0; a1; a2; a3]
      ++ post1 ->
    _blockStart t = Z.of_nat (length pre1) ->
    content titleFile
    = pre2 ++ [q0; q1; g; u0; u1; u2; u3; p0; p1; p2; p3; l0; l1; l2; l3]
      ++ post2 ->
    Redirect.word s0 s1 s2 s3 = Z.of_nat (length pre2) ->
    let first := Redirect.resolveRedirect a title st in
    let second := Redirect.resolveRedirect a title (fst first) in
    let t2 := mkTitle (_name t) (Num (Util.byteVal g))
                (Redirect.word u0 u1 u2 u3) (Redirect.word p0 p1 p2 p3)
                (Redirect.word l0 l1 l2 l3) (_titleOffset t) (_geolocation t) in
    snd first = Redirect.Resolved title /\
    snd second = Redirect.Resolved title /\
    fst second = <[title := t2]> st /\
    (fst second = st <-> Redirect.pointer t2 = Redirect.pointer t).
Proof.
  intros a titleFile pre1 post1 pre2 post2
         r0 r1 f s0 s1 s2 s3 o0 o1 o2 o3 a0 a1 a2 a3
         q0 q1 g u0 u1 u2 u3 p0 p1 p2 p3 l0 l1 l2 l3
         title st t Hf Hst Hfile1 Hpre1 Hfile2 Hpre2.
  cbv zeta. unfold Redirect.word in *.
  rewrite (resolveRedirect_window a titleFile pre1 post1 r0 r1 f s0 s1 s2 s3
             o0 o1 o2 o3 a0 a1 a2 a3 title st t Hf Hst Hfile1 Hpre1).
  cbn [fst snd].
  match goal with |- context [<[title := ?x]> st] => set (t1 := x) end.
  assert (Hst1 : (<[title := t1]> st) !! title = Some t1)
    by apply lookup_insert_eq.
  rewrite (resolveRedirect_window a titleFile pre2 post2 q0 q1 g u0 u1 u2 u3
             p0 p1 p2 p3 l0 l1 l2 l3 title (<[title := t1]> st) t1 Hf Hst1
             Hfile2 Hpre2).
  cbn [fst snd t1 _name _titleOffset _geolocation]. rewrite insert_insert_eq.
  match goal with |- context [<[title := ?x]> st] => set (t2 := x) end.
  split; [reflexivity|]. split; [reflexivity|]. split; [reflexivity|].
  split.
  - intros Heq.
    assert (Hlook : (<[title := t2]> st) !! title = Some t)
      by (rewrite Heq; exact Hst).
    rewrite lookup_insert_eq in Hlook. injection Hlook as Ht. rewrite Ht.
    reflexivity.
  - intros Hptr. unfold Redirect.pointer in Hptr. subst t2.
    cbn [_fileNr _blockStart _blockOffset _articleLength] in Hptr.
    injection Hptr as Hnr Hbs Hbo Hal. rewrite Hnr, Hbs, Hbo, Hal.
    destruct t. cbn. apply insert_id. exact Hst.
Qed.

(** C7 (amended), on two records that point at each other: the first call
    changes the title and the second brings it back. *)
Lemma C7_resolveRedirect_two_record_cycle :
  let st := {[ 0%nat := Redirect.cycleTitle ]} : gmap nat Title in
  let first := Redirect.resolveRedirect Redirect.cycleArchive 0%nat st in
  let second := Redirect.resolveRedirect Redirect.cycleArchive 0%nat (fst first) in
  fst first !! 0%nat = Some (mkTitle "Roma" (Num 7) 16 1 2 (Some 16) None) /\
  fst second = st.
Proof.
  intros st first second.
  assert (Hst : st !! 0%nat = Some Redirect.cycleTitle)
    by (vm_compute; reflexivity).
  assert (Hfile1 : content (mkFile "titles.idx" Redirect.cycleFile)
                   = [] ++ [x00; x00; Util.u8 7; Util.u8 16; x00; x00; x00;
                            Util.u8 1; x00; x00; x00; Util.u8 2; x00; x00; x00]
                     ++ (x0a :: Redirect.redirectRecord 9 0 3 4))
    by (vm_compute; reflexivity).
  assert (Hfile2 : content (mkFile "titles.idx" Redirect.cycleFile)
                   = Redirect.redirectRecord 7 16 1 2
                     ++ [x00; x00; Util.u8 9; x00; x00; x00; x00;
                         Util.u8 3; x00; x00; x00; Util.u8 4; x00; x00; x00]
                     ++ [x0a])
    by (vm_compute; reflexivity).
  pose proof (C7_resolveRedirect_twice_follows_two_records
                Redirect.cycleArchive _ _ _ _ _
                _ _ _ _ _ _ _ _ _ _ _ _ _ _ _
                _ _ _ _ _ _ _ _ _ _ _ _ _ _ _
                0%nat st _ eq_refl Hst Hfile1 eq_refl Hfile2 eq_refl) as H.
  cbv zeta in H. destruct H as (_ & _ & _ & Hiff).
  split; [vm_compute; reflexivity|].
  apply Hiff. vm_compute. reflexivity.
Defined.

(** *** Math images *)

Example math_scenario_hit :
  MathImage.loadMathImage MathImage.scenarioArchive MathImage.hash02
  = MathImage.Image (map Util.u8 [66; 89; 69]).
Proof. vm_compute. reflexivity. Qed.

Example math_scenario_miss :
  MathImage.loadMathImage MathImage.scenarioArchive MathImage.hash03
  = MathImage.Silent.
Proof. vm_compute. reflexivity. Qed.

Section MathFacts.
Import Util MathImage.

Lemma Qhalf (a : Q) : (a / 2 == a * (1 # 2))%Q.
Proof. unfold Qdiv. reflexivity. Qed.

Lemma probe_bounds (lo : Z) (hi : Q) :
  (inject_Z lo < hi)%Q ->
  lo <= Qfloor ((inject_Z lo + hi) / 2) /\
  (inject_Z (Qfloor ((inject_Z lo + hi) / 2)) < hi)%Q.
Proof.
  intros Hlt. split.
  - rewrite <- (Qfloor_Z lo) at 1. apply Qfloor_resp_le.
    rewrite Qhalf. lra.
  - pose proof (Qfloor_le ((inject_Z lo + hi) / 2)) as H.
    rewrite Qhalf in H at 2.
    set (m := inject_Z (Qfloor ((inject_Z lo + hi) / 2))) in *. lra.
Qed.

Lemma Qlt_ceiling (z : Z) (q : Q) : (inject_Z z < q)%Q -> z < Qceiling q.
Proof.
  intros Hlt. pose proof (Qle_ceiling q) as Hc.
  assert (H : (inject_Z z < inject_Z (Qceiling q))%Q) by lra.
  rewrite <- Zlt_Qlt in H. exact H.
Qed.

Lemma Qle_bool_false (x y : Q) : Qle_bool x y = false -> (y < x)%Q.
Proof.
  intros H. apply Qnot_le_lt. intros Hle.
  apply Qle_bool_iff in Hle. congruence.
Qed.

Lemma findMathDataPosition_S (fuel : nat) (idx : File) (h : string)
    (lo : Z) (hi : Q) :
  findMathDataPosition (S fuel) idx h lo hi =
  if Qle_bool hi (inject_Z lo) then Returned
  else
    let mid := Qfloor ((inject_Z lo + hi) / 2) in
    if String.eqb (hashAt idx mid) h then
      match readIntegerFrom4Bytes (recordAt idx mid) 16 with
      | None => RangeError
      | Some pos =>
          match readIntegerFrom4Bytes (recordAt idx mid) (16 + 4) with
          | None => RangeError
          | Some length => Found pos length
          end
      end
    else if String.ltb h (hashAt idx mid) then
      findMathDataPosition fuel idx h lo (inject_Z mid)
    else
      findMathDataPosition fuel idx h (mid + 1) hi.
Proof. reflexivity. Qed.

Lemma search_over (lo : Z) (hi : Q) :
  Qceiling hi - lo <= 0 -> Qle_bool hi (inject_Z lo) = true.
Proof.
  intros H. apply Qle_bool_iff.
  apply Qle_trans with (inject_Z (Qceiling hi)); [apply Qle_ceiling|].
  rewrite <- Zle_Qle. lia.
Qed.

(** The search makes progress at every probe: the fuel given by
    [loadMathImage] is never used up. *)
Lemma findMathDataPosition_fuel (idx : File) (h : string) :
  forall (fuel : nat) (lo : Z) (hi : Q),
    Qceiling hi - lo <= Z.of_nat fuel ->
    findMathDataPosition (S fuel) idx h lo hi <> OutOfFuel.
Proof.
  induction fuel as [|fuel IH]; intros lo hi Hf;
    rewrite findMathDataPosition_S.
  - rewrite (search_over lo hi) by lia. discriminate.
  - destruct (Qle_bool hi (inject_Z lo)) eqn:Hle; [discriminate|].
    apply Qle_bool_false in Hle.
    destruct (probe_bounds lo hi Hle) as [Hlo Hhi].
    cbv zeta. set (mid := Qfloor ((inject_Z lo + hi) / 2)) in *.
    destruct (String.eqb _ h).
    + destruct (readIntegerFrom4Bytes _ 16); [|discriminate].
      destruct (readIntegerFrom4Bytes _ (16 + 4)); discriminate.
    + destruct (String.ltb h _).
      * apply IH. rewrite Qceiling_Z. apply Qlt_ceiling in Hhi. lia.
      * apply IH. lia.
Qed.

(** When no record in the range carries the hash, the search ends in the
    branch that returns without calling anything. *)
Lemma findMathDataPosition_miss (idx : File) (h : string) :
  forall (fuel : nat) (lo : Z) (hi : Q),
    (forall mid : Z, lo <= mid -> (inject_Z mid < hi)%Q -> hashAt idx mid <> h) ->
    Qceiling hi - lo <= Z.of_nat fuel ->
    findMathDataPosition (S fuel) idx h lo hi = Returned.
Proof.
  induction fuel as [|fuel IH]; intros lo hi Hmiss Hf;
    rewrite findMathDataPosition_S.
  - rewrite (search_over lo hi) by lia. reflexivity.
  - destruct (Qle_bool hi (inject_Z lo)) eqn:Hle; [reflexivity|].
    apply Qle_bool_false in Hle.
    destruct (probe_bounds lo hi Hle) as [Hlo Hhi].
    cbv zeta. set (mid := Qfloor ((inject_Z lo + hi) / 2)) in *.
    destruct (String.eqb (hashAt idx mid) h) eqn:Heq.
    + apply String.eqb_eq in Heq. destruct (Hmiss mid Hlo Hhi Heq).
    + destruct (String.ltb h _).
      * apply IH.
        -- intros m Hm1 Hm2. apply Hmiss; [exact Hm1|].
           apply Qlt_trans with (inject_Z mid); assumption.
        -- rewrite Qceiling_Z. apply Qlt_ceiling in Hhi. lia.
      * apply IH.
        -- intros m Hm1 Hm2. apply Hmiss; [lia | exact Hm2].
        -- lia.
Qed.

Lemma initial_fuel (sz : Z) :
  0 <= sz ->
  Qceiling (inject_Z sz / inject_Z entrySize) - 0 <= Z.of_nat (Z.to_nat sz).
Proof.
  intros Hsz.
  assert (Hq : (inject_Z sz / inject_Z entrySize <= inject_Z sz)%Q).
  { assert (H0 : (inject_Z 0 <= inject_Z sz)%Q) by (rewrite <- Zle_Qle; exact Hsz).
    change (inject_Z 0) with 0%Q in H0.
    unfold Qdiv. change (/ inject_Z entrySize)%Q with (1 # 24)%Q.
    lra. }
  apply Qceiling_resp_le in Hq. rewrite Qceiling_Z in Hq. lia.
Qed.

Lemma Qfloor_mid (lo hiZ : Z) (hi : Q) :
  (hi == inject_Z hiZ)%Q ->
  Qfloor ((inject_Z lo + hi) / 2) = (lo + hiZ) / 2.
Proof.
  intros Hhi. rewrite Hhi. rewrite <- inject_Z_plus.
  change 2%Q with (inject_Z 2). symmetry. apply Zdiv_Qdiv.
Qed.

Lemma ltb_asym (s1 s2 : string) :
  String.ltb s1 s2 = true -> String.ltb s2 s1 = false.
Proof.
  unfold String.ltb. rewrite (String.compare_antisym s2 s1).
  destruct (String.compare s1 s2); cbn; congruence.
Qed.

Lemma ltb_irrefl (s : string) : String.ltb s s = false.
Proof.
  destruct (String.ltb s s) eqn:E; [|reflexivity].
  pose proof (ltb_asym s s E). congruence.
Qed.

Lemma readIntegerFrom4Bytes_some (a : Uint8Array) (i : Z) :
  0 <= i -> i + 4 <= Z.of_nat (length a) ->
  exists v, readIntegerFrom4Bytes a i = Some v.
Proof.
  intros Hi Hlen. unfold readIntegerFrom4Bytes, readBytes.
  rewrite (proj2 (Z.ltb_ge i 0) Hi).
  assert (Hl : length (firstn 4 (skipn (Z.to_nat i) a)) = 4%nat).
  { rewrite length_firstn, length_skipn. lia. }
  rewrite Hl. cbn. eexists. reflexivity.
Qed.

Lemma recordAt_full (idx : File) (n k : Z) :
  size idx = entrySize * n -> 0 <= k < n ->
  length (recordAt idx k) = 24%nat.
Proof.
  intros Hsize Hk. unfold recordAt.
  replace ((k + 1) * entrySize) with (k * entrySize + 24)
    by (unfold entrySize; lia).
  rewrite slice_nonneg by (unfold entrySize; lia).
  rewrite length_firstn, length_skipn.
  unfold size, entrySize in *. lia.
Qed.

(** On an index of [n] whole records whose hashes increase strictly, the
    search finds the record that carries the hash. *)
Lemma findMathDataPosition_hit (idx : File) (h : string) (n k : Z) :
  (forall i j, 0 <= i -> i < j -> j < n ->
     String.ltb (hashAt idx i) (hashAt idx j) = true) ->
  0 <= k < n -> hashAt idx k = h ->
  forall (fuel : nat) (lo hiZ : Z) (hi : Q),
    (hi == inject_Z hiZ)%Q ->
    0 <= lo -> lo <= k -> k < hiZ -> hiZ <= n ->
    hiZ - lo <= Z.of_nat fuel ->
    findMathDataPosition (S fuel) idx h lo hi =
    match readIntegerFrom4Bytes (recordAt idx k) 16 with
    | None => RangeError
    | Some pos =>
        match readIntegerFrom4Bytes (recordAt idx k) (16 + 4) with
        | None => RangeError
        | Some length => Found pos length
        end
    end.
Proof.
  intros Hsorted Hk Hh.
  induction fuel as [|fuel IH]; intros lo hiZ hi Hhi Hlo Hlk Hkh Hhn Hf;
    [lia|].
  rewrite findMathDataPosition_S.
  assert (Hle : Qle_bool hi (inject_Z lo) = false).
  { destruct (Qle_bool hi (inject_Z lo)) eqn:E; [|reflexivity].
    apply Qle_bool_iff in E. rewrite Hhi in E. rewrite <- Zle_Qle in E. lia. }
  rewrite Hle. cbv zeta. rewrite (Qfloor_mid lo hiZ hi Hhi).
  set (mid := (lo + hiZ) / 2).
  assert (Hmid : lo <= mid < hiZ).
  { unfold mid. pose proof (Z.div_mod (lo + hiZ) 2 ltac:(lia)).
    pose proof (Z.mod_pos_bound (lo + hiZ) 2 ltac:(lia)). lia. }
  destruct (Z.lt_trichotomy mid k) as [Hlt|[Heq|Hgt]].
  - (* the probe is below the record *)
    assert (Hltb : String.ltb (hashAt idx mid) h = true)
      by (rewrite <- Hh; apply Hsorted; lia).
    assert (Hne : String.eqb (hashAt idx mid) h = false).
    { apply String.eqb_neq. intros E. rewrite E, ltb_irrefl in Hltb.
      discriminate. }
    rewrite Hne, (ltb_asym _ _ Hltb).
    apply (IH (mid + 1) hiZ hi Hhi); lia.
  - subst k. rewrite Hh, String.eqb_refl. reflexivity.
  - assert (Hltb : String.ltb h (hashAt idx mid) = true)
      by (rewrite <- Hh; apply Hsorted; lia).
    assert (Hne : String.eqb (hashAt idx mid) h = false).
    { apply String.eqb_neq. intros E. rewrite E, ltb_irrefl in Hltb.
      discriminate. }
    rewrite Hne, Hltb.
    apply (IH lo mid (inject_Z mid)); try lia. reflexivity.
Qed.

Lemma loadMathImage_hit (a : LocalArchive) (idx dat : File) (h : string)
    (n k : Z) :
  _mathIndexFile a = Some idx -> _mathDataFile a = Some dat ->
  size idx = entrySize * n ->
  (forall i j, 0 <= i -> i < j -> j < n ->
     String.ltb (hashAt idx i) (hashAt idx j) = true) ->
  0 <= k < n -> hashAt idx k = h ->
  exists pos len,
    readIntegerFrom4Bytes (recordAt idx k) 16 = Some pos /\
    readIntegerFrom4Bytes (recordAt idx k) 20 = Some len /\
    loadMathImage a h = Image (slice (content dat) pos (pos + len)).
Proof.
  intros Hidx Hdat Hsize Hsorted Hk Hh.
  pose proof (recordAt_full idx n k Hsize Hk) as Hfull.
  destruct (readIntegerFrom4Bytes_some (recordAt idx k) 16) as [pos Hpos];
    [lia | rewrite Hfull; lia |].
  destruct (readIntegerFrom4Bytes_some (recordAt idx k) 20) as [len Hlen];
    [lia | rewrite Hfull; lia |].
  exists pos, len. split; [exact Hpos|]. split; [exact Hlen|].
  unfold loadMathImage. rewrite Hidx.
  rewrite (findMathDataPosition_hit idx h n k Hsorted Hk Hh _ 0 n).
  - change (16 + 4) with 20. rewrite Hpos, Hlen, Hdat. reflexivity.
  - rewrite Hsize. unfold entrySize.
    rewrite inject_Z_mult. change (inject_Z (16 + 4 + 4)) with (24 # 1)%Q.
    field.
  - lia.
  - lia.
  - lia.
  - lia.
  - unfold size, entrySize in *. lia.
Qed.

Lemma loadMathImage_miss (a : LocalArchive) (idx : File) (h : string) :
  _mathIndexFile a = Some idx ->
  (forall mid : Z, 0 <= mid -> entrySize * mid < size idx -> hashAt idx mid <> h) ->
  loadMathImage a h = Silent.
Proof.
  intros Hidx Hmiss. unfold loadMathImage. rewrite Hidx.
  rewrite (findMathDataPosition_miss idx h).
  - reflexivity.
  - intros mid Hmid Hlt. apply Hmiss; [exact Hmid|].
    unfold Qdiv in Hlt. change (/ inject_Z entrySize)%Q with (1 # 24)%Q in Hlt.
    assert (H : (inject_Z (entrySize * mid) < inject_Z (size idx))%Q).
    { rewrite inject_Z_mult. change (inject_Z entrySize) with (24 # 1)%Q.
      set (m := inject_Z mid) in *. set (s := inject_Z (size idx)) in *.
      clearbody m s. lra. }
    rewrite <- Zlt_Qlt in H. exact H.
  - apply initial_fuel. unfold size. lia.
Qed.

End MathFacts.

(** C8, the part the code does not do: when no record of the math index
    carries the hash, the search ends at [lo >= hi] in the branch marked
    "TODO error - not found", which returns: [loadMathImage] calls nothing
    and reports nothing, where the design asks for NotFound. *)
Theorem C8_loadMathImage_miss_is_silent :
  forall (a : LocalArchive) (mathIndexFile : File) (hexString : string),
    _mathIndexFile a = Some mathIndexFile ->
    (forall mid : Z,
       0 <= mid -> MathImage.entrySize * mid < size mathIndexFile ->
       MathImage.hashAt mathIndexFile mid <> hexString) ->
    MathImage.loadMathImage a hexString = MathImage.Silent.
Proof.
  intros a idx h Hidx Hmiss. exact (loadMathImage_miss a idx h Hidx Hmiss).
Qed.

Lemma C8_loadMathImage_miss_witness :
  MathImage.loadMathImage MathImage.scenarioArchive MathImage.hash03
  = MathImage.Silent.
Proof.
  apply (C8_loadMathImage_miss_is_silent MathImage.scenarioArchive
           (mkFile "math.idx" (MathImage.entry 1 0 5 ++ MathImage.entry 2 5 3))
           MathImage.hash03 eq_refl).
  intros mid H0 H1.
  assert (Hc : mid = 0 \/ mid = 1).
  { unfold MathImage.entrySize, size in H1. cbn in H1. lia. }
  destruct Hc as [-> | ->]; vm_compute; discriminate.
Defined.

(** *** Articles *)

Example readArticle_toy :
  Article.readArticle Article.toyCodec Some 2 Article.toyArchive Article.toyTitle
  = Article.Finished (Article.Deliver Article.toyTitle "Paris").
Proof. vm_compute. reflexivity. Qed.

Example readArticle_toy_one_round :
  Article.readArticle Article.toyCodec Some 1 Article.toyArchive Article.toyTitle
  = Article.StillReading.
Proof. vm_compute. reflexivity. Qed.

Section ArticleFacts.
Import JsString Util Article.

Variable webworkerBzip2 : list byte -> Message.
Variable decodeUtf8 : string -> option string.

Lemma String_substring_length (s : string) :
  forall n m : nat,
    (n + m <= String.length s)%nat ->
    String.length (String.substring n m s) = m.
Proof.
  induction s as [|c s IH]; intros n m Hle; cbn [String.length] in Hle.
  - assert (n = 0%nat) by lia. assert (m = 0%nat) by lia. subst. reflexivity.
  - destruct n as [|n]; destruct m as [|m]; cbn [String.substring String.length].
    + reflexivity.
    + f_equal. apply IH. lia.
    + apply IH. lia.
    + apply IH. lia.
Qed.

Lemma substring_length (s : string) (a b : Z) :
  0 <= a -> a <= b -> b <= Z.of_nat (String.length s) ->
  Z.of_nat (String.length (substring s a b)) = b - a.
Proof.
  intros Ha Hab Hb. unfold substring.
  rewrite (Z.min_l a) by lia. rewrite (Z.min_l b) by lia.
  rewrite (Z.max_r 0 a) by lia. rewrite (Z.max_r 0 b) by lia.
  rewrite Z.min_l by lia. rewrite Z.max_r by lia.
  rewrite String_substring_length by lia. lia.
Qed.

Lemma firstCut_length (title : Title) (htmlArticles : string) :
  0 <= _blockOffset title -> 0 <= _articleLength title ->
  _blockOffset title + _articleLength title
    <= Z.of_nat (String.length htmlArticles) ->
  Z.of_nat (String.length (firstCut title htmlArticles)) = _articleLength title.
Proof.
  intros Hbo Hal Hlen. unfold firstCut.
  rewrite substring_length by lia. lia.
Qed.

Lemma storedArticle_length (title : Title) (htmlArticles : string) :
  0 <= _blockOffset title -> 0 <= _articleLength title ->
  _blockOffset title + _articleLength title
    <= Z.of_nat (String.length htmlArticles) ->
  Z.of_nat (String.length (storedArticle title htmlArticles))
  = _articleLength title.
Proof.
  intros Hbo Hal Hlen. unfold storedArticle.
  rewrite substring_length; rewrite ?firstCut_length; lia.
Qed.

Lemma onmessage_asksForMore (title : Title) (readLength : Z) (m : Message) :
  asksForMore title m = true ->
  onmessage decodeUtf8 title readLength m = ReadMore (readLength + CHUNK_SIZE).
Proof.
  destruct m as [htmlArticles| | |]; cbn [asksForMore onmessage];
    try discriminate; [|reflexivity].
  intros H. apply Z.ltb_lt in H.
  rewrite (proj2 (Z.leb_gt _ _) H). reflexivity.
Qed.

Lemma onmessage_enough (title : Title) (readLength : Z) (htmlArticles : string) :
  0 <= _blockOffset title -> 0 <= _articleLength title ->
  _blockOffset title + _articleLength title
    <= Z.of_nat (String.length htmlArticles) ->
  onmessage decodeUtf8 title readLength (Result htmlArticles) =
  match decodeUtf8 (storedArticle title htmlArticles) with
  | Some decoded => Deliver title decoded
  | None => URIError
  end.
Proof.
  intros Hbo Hal Hlen. cbn [onmessage].
  rewrite (firstCut_length title htmlArticles Hbo Hal Hlen).
  rewrite Z.leb_refl. reflexivity.
Qed.

Lemma readArticleChunk_rounds (title : Title) (dataFile : File)
    (htmlArticles : string) :
  0 <= _blockOffset title -> 0 <= _articleLength title ->
  _blockOffset title + _articleLength title
    <= Z.of_nat (String.length htmlArticles) ->
  forall (k fuel : nat) (readLength : Z),
    (forall j : nat, (j < k)%nat ->
       asksForMore title
         (webworkerBzip2
            (compressedArticles title dataFile
               (readLength + Z.of_nat j * CHUNK_SIZE))) = true) ->
    webworkerBzip2
      (compressedArticles title dataFile (readLength + Z.of_nat k * CHUNK_SIZE))
    = Result htmlArticles ->
    (k < fuel)%nat ->
    readArticleChunk webworkerBzip2 decodeUtf8 fuel title dataFile readLength =
    Finished
      match decodeUtf8 (storedArticle title htmlArticles) with
      | Some decoded => Deliver title decoded
      | None => URIError
      end.
Proof.
  intros Hbo Hal Hlen.
  induction k as [|k IH]; intros fuel readLength Hmore Hres Hfuel;
    (destruct fuel as [|fuel]; [lia|]); cbn [readArticleChunk].
  - replace (readLength + Z.of_nat 0 * CHUNK_SIZE) with readLength in Hres by lia.
    rewrite Hres, (onmessage_enough title readLength htmlArticles Hbo Hal Hlen).
    destruct (decodeUtf8 _); reflexivity.
  - pose proof (Hmore 0%nat ltac:(lia)) as H0.
    replace (readLength + Z.of_nat 0 * CHUNK_SIZE) with readLength in H0 by lia.
    rewrite (onmessage_asksForMore title readLength _ H0).
    apply IH; [| |lia].
    + intros j Hj. pose proof (Hmore (S j) ltac:(lia)) as Hj'.
      replace (readLength + CHUNK_SIZE + Z.of_nat j * CHUNK_SIZE)
        with (readLength + Z.of_nat (S j) * CHUNK_SIZE) by lia.
      exact Hj'.
    + replace (readLength + CHUNK_SIZE + Z.of_nat k * CHUNK_SIZE)
        with (readLength + Z.of_nat (S k) * CHUNK_SIZE) by lia.
      exact Hres.
Qed.

End ArticleFacts.

(** C4 (as stated, refuted): the data shard of the title is in the
    archive and its block holds the article, and yet nothing is delivered.
    On an array whose slot 0 was never assigned, the scan of [readArticle]
    raises a TypeError at that slot before it reaches the shard in slot 1;
    and where the slice of [articleLength] characters holds the byte 255,
    the decoding step raises. *)
Lemma C4_present_shard_is_not_always_delivered :
  In (Some Article.parisFile) (_dataFiles Article.sparseArchive) /\
  Article.endsWith (Article.expectedFileName Article.parisTitle)
    (name Article.parisFile) = true /\
  Article.storedCodec
    (Article.compressedArticles Article.parisTitle Article.parisFile
       Article.CHUNK_SIZE)
  = Article.Result "<p>Paris</p>" /\
  Article.readArticle Article.storedCodec Article.strictDecode 3
    Article.sparseArchive Article.parisTitle
  = Article.TypeError /\
  Article.findDataFile (Article.expectedFileName Article.brokenTitle)
    (_dataFiles Article.brokenArchive) None
  = Article.Selected Article.brokenFile /\
  Z.of_nat
    (String.length
       (Article.storedArticle Article.brokenTitle
          (Article.bytesToString (content Article.brokenFile))))
  = _articleLength Article.brokenTitle /\
  Article.readArticle Article.storedCodec Article.strictDecode 3
    Article.brokenArchive Article.brokenTitle
  = Article.Finished Article.URIError.
Proof.
  split; [right; left; reflexivity|].
  vm_compute. repeat split; reflexivity.
Qed.

(** C4 (amended): when the scan of [readArticle] selects the data file of
    [t] and the codec, after [k] rounds that each ask for more input,
    answers with at least [blockOffset + articleLength] characters,
    [readArticle] hands to the UTF-8 decoding step a slice of exactly
    [articleLength] characters (the article in the storage encoding); it
    delivers the decoding of that slice with the title when the built-in
    decodes it, and raises a URIError when the built-in refuses it. *)
Theorem C4_readArticle_slice_has_articleLength :
  forall (webworkerBzip2 : list byte -> Article.Message)
         (decodeUtf8 : string -> option string)
         (a : LocalArchive) (t : Title) (dataFile : File)
         (k fuel : nat) (htmlArticles : string),
    Article.findDataFile (Article.expectedFileName t) (_dataFiles a) None
    = Article.Selected dataFile ->
    0 <= _blockOffset t -> 0 <= _articleLength t ->
    (forall j : nat, (j < k)%nat ->
       Article.asksForMore t (Article.reply webworkerBzip2 t dataFile j) = true) ->
    Article.reply webworkerBzip2 t dataFile k = Article.Result htmlArticles ->
    _blockOffset t + _articleLength t <= Z.of_nat (String.length htmlArticles) ->
    (k < fuel)%nat ->
    Z.of_nat (String.length (Article.storedArticle t htmlArticles))
    = _articleLength t /\
    Article.readArticle webworkerBzip2 decodeUtf8 fuel a t =
    Article.Finished
      match decodeUtf8 (Article.storedArticle t htmlArticles) with
      | Some decoded => Article.Deliver t decoded
      | None => Article.URIError
      end.
Proof.
  intros w d a t f k fuel s Hfile Hbo Hal Hmore Hres Hlen Hfuel. split.
  - apply storedArticle_length; assumption.
  - unfold Article.readArticle. rewrite Hfile.
    apply (readArticleChunk_rounds w d t f s Hbo Hal Hlen k fuel
             Article.CHUNK_SIZE Hmore Hres Hfuel).
Qed.

Lemma C4_readArticle_witness :
  Z.of_nat (String.length (Article.storedArticle Article.toyTitle "<p>Paris</p>"))
  = 5 /\
  Article.readArticle Article.toyCodec Some 2 Article.toyArchive Article.toyTitle
  = Article.Finished (Article.Deliver Article.toyTitle "Paris").
Proof.
  assert (Hfile : Article.findDataFile (Article.expectedFileName Article.toyTitle)
                    (_dataFiles Article.toyArchive) None
                  = Article.Selected Article.toyFile)
    by reflexivity.
  assert (Hmore : forall j : nat, (j < 1)%nat ->
            Article.asksForMore Article.toyTitle
              (Article.reply Article.toyCodec Article.toyTitle Article.toyFile j)
            = true).
  { intros j Hj. assert (j = 0%nat) by lia. subst j. vm_compute. reflexivity. }
  assert (Hres : Article.reply Article.toyCodec Article.toyTitle Article.toyFile 1
                 = Article.Result "<p>Paris</p>")
    by (vm_compute; reflexivity).
  exact (C4_readArticle_slice_has_articleLength Article.toyCodec Some
           Article.toyArchive Article.toyTitle Article.toyFile 1 2 "<p>Paris</p>"
           Hfile ltac:(cbn; lia) ltac:(cbn; lia) Hmore Hres ltac:(cbn; lia)
           ltac:(lia)).
Defined.

(** *** Lookup by name *)

Example getTitleByName_present :
  TitleIndex.getTitleByName TitleIndex.toyNormalize TitleIndex.toyFindPrefixOffset
    TitleIndex.toyAdvance 10 TitleIndex.toyArchive "banana"
  = TitleIndex.Resolved (Some (mkTitle "banana" (Num 0) 0 0 0 (Some 13) None)).
Proof. vm_compute. reflexivity. Qed.

Example getTitleByName_absent :
  TitleIndex.getTitleByName TitleIndex.toyNormalize TitleIndex.toyFindPrefixOffset
    TitleIndex.toyAdvance 10 TitleIndex.toyArchive "blueberry"
  = TitleIndex.Resolved None.
Proof. vm_compute. reflexivity. Qed.



Section TitleIndexFacts.
Import TitleIndex.

Variable advance : File -> Z -> option (Title * Z).



End TitleIndexFacts.

Section ToyIndexFacts.
Import TitleIndex.

Lemma lower_idempotent (c : ascii) : lower (lower c) = lower c.
Proof.
  destruct c as [[] [] [] [] [] [] [] []]; vm_compute; reflexivity.
Qed.

Lemma toyNormalize_idempotent (s : string) :
  toyNormalize (toyNormalize s) = toyNormalize s.
Proof.
  induction s as [|c s IH]; cbn [toyNormalize]; [reflexivity|].
  rewrite lower_idempotent, IH. reflexivity.
Qed.



End ToyIndexFacts.



(** *** Titles near a place *)

Example binary32_values :
  (Nearby.binary32 1111687168 == 48.75)%Q /\ (Nearby.binary32 1074790400 == 2.25)%Q /\
  (Nearby.binary32 3264479232 == -74)%Q /\ (Nearby.binary32 1091567616 == 9)%Q.
Proof. repeat split; vm_compute; reflexivity. Qed.

Example nearby_leaf :
  Nearby.log
    (Nearby.run Nearby.binary32 TitleIndex.toyAdvance
       [Nearby.Call (Nearby.placesArchive Nearby.placesLeaf) Nearby.scenarioRect 10;
        Nearby.CoordLoaded 0; Nearby.TitleLoaded 0; Nearby.TitleLoaded 0]
       Nearby.initial)
  = [Nearby.Callback 0
       [mkTitle "Banana" (Num 0) 0 0 0 (Some 6)
          (Some (Geometry.mkPoint (Nearby.binary32 1074790400)
                   (Nearby.binary32 1111687168)));
        mkTitle "Cherry" (Num 0) 0 0 0 (Some 20)
          (Some (Geometry.mkPoint (Nearby.binary32 1091567616)
                   (Nearby.binary32 1110966272)))];
     Nearby.SearchOver 0].
Proof. vm_compute. reflexivity. Qed.

Example nearby_tree :
  let st :=
    Nearby.run Nearby.binary32 TitleIndex.toyAdvance
      [Nearby.Call (Nearby.placesArchive Nearby.placesTree) Nearby.scenarioRect 1;
       Nearby.CoordLoaded 0; Nearby.CoordLoaded 0; Nearby.TitleLoaded 0]
      Nearby.initial in
  Nearby.counter st = 0 /\
  Nearby.log st
  = [Nearby.Callback 0
       [mkTitle "Cherry" (Num 0) 0 0 0 (Some 20)
          (Some (Geometry.mkPoint (Nearby.binary32 1091567616)
                   (Nearby.binary32 1110966272)))];
     Nearby.SearchOver 0].
Proof. vm_compute. split; reflexivity. Qed.

Section NearbyFacts.
Import Geometry Util Nearby NearbyInv.

Variable float32 : Z -> Q.
Variable advance : File -> Z -> option (Title * Z).

(** **** The loop over a leaf *)

Lemma leafLoop_inRect (byteArray : Uint8Array) (targetRect : rect)
    (maxTitles : Z) :
  forall (n : nat) (i : Z) (found : list Title),
    Forall (inRect targetRect) found ->
    Forall (inRect targetRect)
      (fst (leafLoop float32 n i byteArray targetRect maxTitles found)).
Proof.
  induction n as [|n IH]; intros i found Hfound; cbn [leafLoop]; [exact Hfound|].
  destruct (readCoordinates float32 byteArray (2 + i * 12)) as [p|];
    [|exact Hfound].
  destruct (readIntegerFrom4Bytes byteArray (2 + i * 12 + 8)) as [pos|];
    [|exact Hfound].
  destruct (containsPoint targetRect p) eqn:Hin; cbn [negb].
  - destruct (_ && _).
    + apply IH. apply Forall_app. split; [exact Hfound|].
      constructor; [|constructor]. exists p. split; [reflexivity|exact Hin].
    + apply IH. exact Hfound.
  - apply IH. exact Hfound.
Qed.

Lemma leafLoop_negative (byteArray : Uint8Array) (targetRect : rect)
    (maxTitles : Z) :
  maxTitles < 0 ->
  forall (n : nat) (i : Z) (found : list Title),
    fst (leafLoop float32 n i byteArray targetRect maxTitles found) = found.
Proof.
  intros Hneg.
  induction n as [|n IH]; intros i found; cbn [leafLoop]; [reflexivity|].
  destruct (readCoordinates float32 byteArray (2 + i * 12)) as [p|];
    [|reflexivity].
  destruct (readIntegerFrom4Bytes byteArray (2 + i * 12 + 8)) as [pos|];
    [|reflexivity].
  rewrite (proj2 (Z.leb_gt 0 maxTitles) Hneg). cbn [andb].
  destruct (negb _); apply IH.
Qed.

(** With a bound that is not negative, the loop appends the entries that
    lie in the rectangle, in their order, until the array holds [maxTitles]
    titles. *)
Lemma leafLoop_bounded (byteArray : Uint8Array) (targetRect : rect)
    (maxTitles : Z) :
  0 <= maxTitles ->
  forall (n : nat) (i : Z) (found : list Title) (entries : list (point * Z)),
    leafEntries float32 n i byteArray = Some entries ->
    leafLoop float32 n i byteArray targetRect maxTitles found
    = (found
       ++ firstn (Z.to_nat (maxTitles - Z.of_nat (length found)))
            (entriesInside targetRect entries),
       true).
Proof.
  intros Hmax.
  induction n as [|n IH]; intros i found entries Hentries;
    cbn [leafLoop leafEntries] in *.
  - injection Hentries as <-. unfold entriesInside. cbn.
    rewrite firstn_nil, app_nil_r. reflexivity.
  - destruct (readCoordinates float32 byteArray (2 + i * 12)) as [p|];
      [|discriminate].
    destruct (readIntegerFrom4Bytes byteArray (2 + i * 12 + 8)) as [pos|];
      [|discriminate].
    destruct (leafEntries float32 n (i + 1) byteArray) as [rest|] eqn:Hrest;
      [|discriminate].
    injection Hentries as <-.
    unfold entriesInside. cbn [List.filter fst snd].
    destruct (containsPoint targetRect p) eqn:Hin; cbn [negb map].
    + rewrite (proj2 (Z.leb_le 0 maxTitles) Hmax). cbn [andb].
      destruct (Z.of_nat (length found) <? maxTitles) eqn:Hlt.
      * apply Z.ltb_lt in Hlt.
        rewrite (IH (i + 1) _ rest Hrest).
        rewrite length_app. cbn [length].
        replace (Z.to_nat (maxTitles - Z.of_nat (length found)))
          with (S (Z.to_nat (maxTitles - Z.of_nat (length found + 1)))) by lia.
        cbn [firstn]. rewrite <- app_assoc. reflexivity.
      * apply Z.ltb_ge in Hlt.
        rewrite (IH (i + 1) _ rest Hrest).
        replace (Z.to_nat (maxTitles - Z.of_nat (length found))) with 0%nat by lia.
        reflexivity.
    + apply (IH (i + 1) _ rest Hrest).
Qed.

(** **** What each part of a handler leaves behind *)

Lemma browse_shape (search : nat) (a : LocalArchive) (file : nat)
    (targetRect : rect) :
  forall (children : list (Z * rect)) (st : State),
    let st' := fst (browse search a file targetRect children st) in
    searches st' = searches st /\
    titleReads st' = titleReads st /\
    log st' = log st /\
    exists new,
      coordReads st' = coordReads st ++ new /\
      Forall (fun r => cr_search r = search) new.
Proof.
  assert (Hnone : forall st c,
            searches (setCounter c st) = searches st /\
            titleReads (setCounter c st) = titleReads st /\
            log (setCounter c st) = log st /\
            exists new,
              coordReads (setCounter c st) = coordReads st ++ new /\
              Forall (fun r => cr_search r = search) new).
  { intros st c. cbn. split; [reflexivity|]. split; [reflexivity|].
    split; [reflexivity|]. exists []. rewrite app_nil_r.
    split; [reflexivity|constructor]. }
  induction children as [|[pos rectChild] children IH]; intros st; cbn [browse].
  - cbn. split; [reflexivity|]. split; [reflexivity|]. split; [reflexivity|].
    exists []. rewrite app_nil_r. split; [reflexivity|constructor].
  - destruct (intersect targetRect rectChild); [|apply IH].
    unfold getTitlesInCoordsInt.
    destruct (_coordinateFiles a !! file) as [[f|]|];
      [|apply Hnone|apply Hnone].
    match goal with |- context [browse _ _ _ _ _ ?s] => specialize (IH s) end.
    cbv zeta in IH. destruct IH as (Hs & Ht & Hl & new & Hc & Hnew).
    cbv zeta. rewrite Hs, Ht, Hl, Hc. cbn.
    split; [reflexivity|]. split; [reflexivity|]. split; [reflexivity|].
    eexists (_ :: new). rewrite <- app_assoc. cbn.
    split; [reflexivity|]. constructor; [reflexivity|exact Hnew].
Qed.

Lemma readTitles_shape (search i : nat) (titlesFound : list Title) (st : State) :
  let st' := readTitlesFromTitleCoordsInTitleFile search i titlesFound st in
  counter st' = counter st /\
  searches st' = searches st /\
  coordReads st' = coordReads st /\
  ((titleReads st' = titleReads st /\ log st' = Exception :: log st) \/
   (exists tr, titleReads st' = titleReads st ++ [tr] /\ tr_i tr = i /\
               NewTitleRead st' search titlesFound tr /\ log st' = log st)).
Proof.
  unfold readTitlesFromTitleCoordsInTitleFile.
  destruct (searches st !! search) as [s|] eqn:Hs;
    [|cbn; eq_conj; left; split; reflexivity].
  destruct (s_found s !! i) as [position|] eqn:Hp;
    [|cbn; eq_conj; left; split; reflexivity].
  cbn. eq_conj. right. eexists. split; [reflexivity|].
  split; [reflexivity|]. split; [|reflexivity].
  exists s, position. cbn. auto.
Qed.

Lemma finishIfLast_shape (search : nat) (st : State) :
  let st' := finishIfLast search st in
  counter st' = counter st /\
  searches st' = searches st /\
  coordReads st' = coordReads st /\
  (titleReads st' = titleReads st \/
   exists tr, titleReads st' = titleReads st ++ [tr] /\
              NewTitleRead st' search [] tr) /\
  exists newL,
    log st' = newL ++ log st /\
    Forall (OverEffect st' search) newL /\
    (In (SearchOver search) newL -> counter st' = 0).
Proof.
  unfold finishIfLast.
  destruct (counter st =? 0) eqn:Hc.
  - apply Z.eqb_eq in Hc.
    unfold callbackGetTitlesInCoordsInt.
    cbn [searches emit].
    destruct (searches st !! search) as [s|] eqn:Hs.
    + destruct (0 <? length (s_found s))%nat eqn:Hlen.
      * pose proof (readTitles_shape search 0 [] (emit (SearchOver search) st))
          as H.
        cbv zeta in H. destruct H as (H1 & H2 & H3 & H4).
        cbn [counter searches coordReads titleReads log emit] in H1, H2, H3, H4.
        cbv zeta. rewrite H1, H2, H3. eq_conj. split.
        -- destruct H4 as [[Ht _]|(tr & Ht & _ & Hn & _)]; [left; exact Ht|].
           right. exists tr. split; [exact Ht | exact Hn].
        -- destruct H4 as [[_ Hl]|(tr & _ & _ & _ & Hl)]; rewrite Hl.
           ++ exists [Exception; SearchOver search].
              cbn. split; [reflexivity|]. split; [|intros _; exact Hc].
              over_effects.
           ++ exists [SearchOver search].
              cbn. split; [reflexivity|]. split; [|intros _; exact Hc].
              over_effects.
      * apply Nat.ltb_ge in Hlen.
        assert (Hnil : s_found s = [])
          by (destruct (s_found s); [reflexivity | cbn in Hlen; lia]).
        rewrite Hnil. cbn [counter searches coordReads titleReads log emit].
        eq_conj. split; [left; reflexivity|].
        exists [Callback search []; SearchOver search].
        split; [reflexivity|]. split; [|intros _; exact Hc].
        constructor; [|over_effects].
        right. right. split; [reflexivity|]. cbn [searches emit].
        rewrite Hs. eauto.
    + cbn. eq_conj. split; [left; reflexivity|].
      exists [Exception; SearchOver search].
      cbn. split; [reflexivity|]. split; [|intros _; exact Hc].
      over_effects.
  - cbn. eq_conj. split; [left; reflexivity|].
    exists []. cbn. split; [reflexivity|]. split; [constructor|tauto].
Qed.

(** The end of a coordinate handler: either the check of the counter, or
    an exception. *)
Lemma ending_shape (search : nat) (st : State) (ok : bool) :
  let st' := if ok then finishIfLast search st else emit Exception st in
  searches st' = searches st /\
  coordReads st' = coordReads st /\
  (titleReads st' = titleReads st \/
   exists tr, titleReads st' = titleReads st ++ [tr] /\
              NewTitleRead st' search [] tr) /\
  exists newL,
    log st' = newL ++ log st /\
    Forall (OverEffect st' search) newL /\
    (In (SearchOver search) newL -> counter st' = 0).
Proof.
  destruct ok.
  - destruct (finishIfLast_shape search st) as (_ & H2 & H3 & H4 & H5).
    cbv zeta. auto.
  - cbn. eq_conj. split; [left; reflexivity|].
    exists [Exception]. split; [reflexivity|]. split; [over_effects|].
    cbn. intros [H|[]]. discriminate H.
Qed.

Lemma onload_shape (r : CoordRead) (st : State) :
  let search := cr_search r in
  let st' := onload float32 r st in
  (searches st' = searches st \/
   exists s n,
     searches st !! search = Some s /\
     searches st'
     = <[search :=
          setFound
            (fst (leafLoop float32 n 0 (cr_blob r) (s_targetRect s)
                    (s_maxTitles s) (s_found s))) s]> (searches st)) /\
  (exists new,
     coordReads st' = coordReads st ++ new /\
     Forall (fun x => cr_search x = search) new) /\
  (titleReads st' = titleReads st \/
   exists tr, titleReads st' = titleReads st ++ [tr] /\
              NewTitleRead st' search [] tr) /\
  exists newL,
    log st' = newL ++ log st /\
    Forall (OverEffect st' search) newL /\
    (In (SearchOver search) newL -> counter st' = 0).
Proof.
  cbv zeta. unfold onload.
  assert (Hraise : forall X : State,
    searches X = searches st -> coordReads X = coordReads st ->
    titleReads X = titleReads st -> log X = log st ->
    let st' := emit Exception X in
    (searches st' = searches st \/
     exists s n,
       searches st !! cr_search r = Some s /\
       searches st'
       = <[cr_search r :=
            setFound
              (fst (leafLoop float32 n 0 (cr_blob r) (s_targetRect s)
                      (s_maxTitles s) (s_found s))) s]> (searches st)) /\
    (exists new,
       coordReads st' = coordReads st ++ new /\
       Forall (fun x => cr_search x = cr_search r) new) /\
    (titleReads st' = titleReads st \/
     exists tr, titleReads st' = titleReads st ++ [tr] /\
                NewTitleRead st' (cr_search r) [] tr) /\
    exists newL,
      log st' = newL ++ log st /\
      Forall (OverEffect st' (cr_search r)) newL /\
      (In (SearchOver (cr_search r)) newL -> counter st' = 0)).
  { intros X Hs Hc Ht Hl. cbn. rewrite Hs, Hc, Ht, Hl.
    split; [left; reflexivity|].
    split; [exists []; rewrite app_nil_r; split; [reflexivity|constructor]|].
    split; [left; reflexivity|].
    exists [Exception]. split; [reflexivity|]. split; [over_effects|].
    cbn. intros [H|[]]. discriminate H. }
  destruct (searches st !! cr_search r) as [s|] eqn:Hs;
    [|apply Hraise; reflexivity].
  set (st1 := setCounter (counter st - 1) st).
  destruct ((0 <=? s_maxTitles s)
            && (s_maxTitles s <=? Z.of_nat (length (s_found s)))).
  { destruct (ending_shape (cr_search r) st1 true) as (H1 & H2 & H3 & H4).
    cbv zeta in H1, H2, H3, H4.
    split; [left; exact H1|].
    split; [exists []; rewrite app_nil_r; split; [exact H2|constructor]|].
    split; [exact H3 | exact H4]. }
  destruct (readIntegerFrom2Bytes (cr_blob r) 0) as [selector|];
    [|apply Hraise; reflexivity].
  destruct (selector =? 65535).
  - destruct (readCoordinates float32 (cr_blob r) 2) as [center|];
      [|apply Hraise; reflexivity].
    destruct (readIntegerFrom4Bytes (cr_blob r) 10) as [lensw|];
      [|apply Hraise; reflexivity].
    destruct (readIntegerFrom4Bytes (cr_blob r) 14) as [lense|];
      [|apply Hraise; reflexivity].
    destruct (readIntegerFrom4Bytes (cr_blob r) 18) as [lennw|];
      [|apply Hraise; reflexivity].
    match goal with
    | |- context [browse ?a ?b ?c ?d ?e ?f] =>
        pose proof (browse_shape a b c d e f) as Hb;
        destruct (browse a b c d e f) as [st2 ok]
    end.
    cbv zeta in Hb. cbn [fst] in Hb.
    destruct Hb as (Hb1 & Hb2 & Hb3 & new & Hb4 & Hnew).
    cbn [searches coordReads titleReads log setCounter st1] in Hb1, Hb2, Hb3, Hb4.
    destruct (ending_shape (cr_search r) st2 ok) as (H1 & H2 & H3 & H4).
    cbv zeta in H1, H2, H3, H4. rewrite Hb2, Hb3 in *.
    split; [left; congruence|].
    split; [exists new; split; [congruence|exact Hnew]|].
    split; [exact H3 | exact H4].
  - destruct (leafLoop float32 (Z.to_nat selector) 0 (cr_blob r) (s_targetRect s)
                (s_maxTitles s) (s_found s)) as [found ok] eqn:Hleaf.
    match goal with
    | |- context [if ok then finishIfLast _ ?X else _] => set (st3 := X)
    end.
    destruct (ending_shape (cr_search r) st3 ok) as (H1 & H2 & H3 & H4).
    cbv zeta in H1, H2, H3, H4.
    cbn [searches coordReads titleReads log setSearches setCounter st1 st3]
      in H1, H2, H3, H4.
    split.
    { right. exists s, (Z.to_nat selector). split; [reflexivity|].
      rewrite Hleaf. exact H1. }
    split; [exists []; rewrite app_nil_r; split; [exact H2|constructor]|].
    split; [exact H3 | exact H4].
Qed.

Lemma onTitleList_cases (r : TitleRead) (st : State) :
  let search := tr_search r in
  let st' := onTitleList advance r st in
  st' = emit Exception st \/
  (exists message, st' = emit (Alert message) st) \/
  (exists s title,
     searches st !! search = Some s /\
     st' = emit
             (Callback search
                (sortTitles (center (s_targetRect s))
                   (tr_titlesFound r
                    ++ [setGeolocation (tr_geolocation r) title])))
             st) \/
  (exists title,
     st' = readTitlesFromTitleCoordsInTitleFile search (S (tr_i r))
             (tr_titlesFound r ++ [setGeolocation (tr_geolocation r) title])
             st).
Proof.
  cbv zeta. unfold onTitleList.
  destruct (searches st !! tr_search r) as [s|] eqn:Hs; [|left; reflexivity].
  destruct (match tr_titleOffset r with
            | Some titleOffset =>
                getTitlesStartingAtOffset advance (s_archive s) titleOffset 1
            | None => None
            end) as [[|title [|title2 rest]]|];
    [right; left; eexists; reflexivity
    | 
    | right; left; eexists; reflexivity
    | left; reflexivity].
  destruct (S (tr_i r) <? length (s_found s))%nat.
  - right. right. right. exists title. reflexivity.
  - right. right. left. exists s, title. split; [reflexivity|reflexivity].
Qed.

Lemma startFiles_shape (search : nat) (a : LocalArchive) :
  forall (n i : nat) (st : State),
    let st' := startFiles search a n i st in
    searches st' = searches st /\
    titleReads st' = titleReads st /\
    (log st' = log st \/ log st' = Exception :: log st) /\
    exists new,
      coordReads st' = coordReads st ++ new /\
      Forall (fun r => cr_search r = search) new.
Proof.
  induction n as [|n IH]; intros i st; cbn [startFiles].
  - cbn. eq_conj. split; [left; reflexivity|].
    exists []. rewrite app_nil_r. split; [reflexivity|constructor].
  - unfold getTitlesInCoordsInt.
    destruct (_coordinateFiles a !! i) as [[f|]|].
    + match goal with |- context [startFiles _ _ _ _ ?s] => specialize (IH (S i) s) end.
      cbv zeta in IH. destruct IH as (Hs & Ht & Hl & new & Hc & Hnew).
      cbv zeta. rewrite Hs, Ht, Hc. cbn. eq_conj. split; [exact Hl|].
      eexists (_ :: new). rewrite <- app_assoc. cbn.
      split; [reflexivity|]. constructor; [reflexivity|exact Hnew].
    + cbn. eq_conj. split; [right; reflexivity|].
      exists []. rewrite app_nil_r. split; [reflexivity|constructor].
    + cbn. eq_conj. split; [right; reflexivity|].
      exists []. rewrite app_nil_r. split; [reflexivity|constructor].
Qed.

Lemma getTitlesInCoords_shape (a : LocalArchive) (rect_ : rect) (maxTitles : Z)
    (st : State) :
  let st' := getTitlesInCoords a rect_ maxTitles st in
  (0 < counter st /\ st' = setCounter 0 (emit (Alert retryMessage) st)) \/
  (counter st <= 0 /\
   searches st'
   = searches st ++ [mkSearch a rect_ maxTitles (normalized rect_) []] /\
   titleReads st' = titleReads st /\
   (log st' = log st \/ log st' = Exception :: log st) /\
   exists new,
     coordReads st' = coordReads st ++ new /\
     Forall (fun r => cr_search r = length (searches st)) new).
Proof.
  cbv zeta. unfold getTitlesInCoords.
  destruct (0 <? counter st) eqn:Hc.
  - left. apply Z.ltb_lt in Hc. split; [exact Hc|reflexivity].
  - right. apply Z.ltb_ge in Hc. split; [exact Hc|].
    match goal with
    | |- context [startFiles ?s ?b ?n ?i ?x] =>
        destruct (startFiles_shape s b n i x) as (H1 & H2 & H3 & H4)
    end.
    cbv zeta in H1, H2, H3, H4. auto.
Qed.

Lemma onTitleList_shape (r : TitleRead) (st : State) :
  let search := tr_search r in
  let st' := onTitleList advance r st in
  counter st' = counter st /\
  searches st' = searches st /\
  coordReads st' = coordReads st /\
  (titleReads st' = titleReads st \/
   exists tr title,
     titleReads st' = titleReads st ++ [tr] /\
     NewTitleRead st' search (titlesWith r title) tr) /\
  exists newL,
    log st' = newL ++ log st /\ Forall (TitleEffect st r) newL.
Proof.
  cbv zeta.
  destruct (onTitleList_cases r st)
    as [H|[(m & H)|[(s & title & Hs & H)|(title & H)]]];
    cbv zeta in H; rewrite H.
  - cbn. eq_conj. split; [left; reflexivity|].
    exists [Exception]. split; [reflexivity|].
    constructor; [left; reflexivity|constructor].
  - cbn. eq_conj. split; [left; reflexivity|].
    exists [Alert m]. split; [reflexivity|].
    constructor; [right; left; eauto|constructor].
  - cbn. eq_conj. split; [left; reflexivity|].
    eexists [_]. split; [reflexivity|].
    constructor; [right; right; exists s, title; split; [exact Hs|reflexivity]
                 |constructor].
  - match goal with |- context [readTitlesFromTitleCoordsInTitleFile ?a ?b ?c ?d] =>
      destruct (readTitles_shape a b c d) as (H1 & H2 & H3 & H4)
    end.
    cbv zeta in H1, H2, H3, H4. rewrite H1, H2, H3. eq_conj.
    destruct H4 as [[Ht Hl]|(tr & Ht & _ & Hn & Hl)]; rewrite Ht, Hl.
    + split; [left; reflexivity|].
      exists [Exception]. split; [reflexivity|].
      constructor; [left; reflexivity|constructor].
    + split; [right; exists tr, title; split; [reflexivity|exact Hn]|].
      exists []. split; [reflexivity|constructor].
Qed.

(** **** A search with a negative bound collects nothing *)

Lemma onTitleList_searches (r : TitleRead) (st : State) :
  searches (onTitleList advance r st) = searches st.
Proof.
  destruct (onTitleList_cases r st)
    as [H|[(m & H)|[(s & title & _ & H)|(title & H)]]];
    cbv zeta in H; rewrite H; try reflexivity.
  apply readTitles_shape.
Qed.

Lemma step_NothingFound (st : State) (e : Event) :
  NothingFound st -> NothingFound (step float32 advance st e).
Proof.
  unfold NothingFound. intros Hinv. destruct e as [a rect_ maxTitles|i|i];
    cbn [step].
  - destruct (getTitlesInCoords_shape a rect_ maxTitles st)
      as [[_ H]|(_ & H & _)]; cbv zeta in H; rewrite H.
    + exact Hinv.
    + apply Forall_app. split; [exact Hinv|].
      constructor; [|constructor]. reflexivity.
  - destruct (coordReads st !! i) as [r|]; [|exact Hinv].
    match goal with |- context [onload _ r ?X] =>
      destruct (onload_shape r X) as ([H|(s & n & Hs & H)] & _)
    end; cbv zeta in H; rewrite H; cbn [searches]; [exact Hinv|].
    cbn [searches] in Hs.
    apply Forall_insert; [exact Hinv|].
    cbn [setFound s_maxTitles s_found]. intros Hneg.
    rewrite leafLoop_negative by exact Hneg.
    exact (proj1 (Forall_lookup _ _) Hinv _ _ Hs Hneg).
  - destruct (titleReads st !! i) as [r|]; [|exact Hinv].
    rewrite onTitleList_searches. exact Hinv.
Qed.

Lemma run_NothingFound (events : list Event) :
  forall st, NothingFound st -> NothingFound (run float32 advance events st).
Proof.
  induction events as [|e events IH]; intros st Hinv; [exact Hinv|].
  cbn [run fold_left]. apply IH. apply step_NothingFound. exact Hinv.
Qed.

(** **** Reads and effects belong to existing searches *)

Lemma NewTitleRead_search (st' : State) (search : nat) (tf : list Title)
    (tr : TitleRead) :
  NewTitleRead st' search tf tr -> tr_search tr = search.
Proof. intros (s & p & _ & _ & ->). reflexivity. Qed.

Lemma OverEffect_search (st' : State) (search : nat) (e : Effect) (x : nat) :
  OverEffect st' search e -> effectSearch e = Some x -> x = search.
Proof.
  intros [->|[->|[-> _]]]; cbn; congruence.
Qed.

Lemma TitleEffect_search (st : State) (r : TitleRead) (e : Effect) (x : nat) :
  TitleEffect st r e -> effectSearch e = Some x -> x = tr_search r.
Proof.
  intros [->|[(m & ->)|(s & title & _ & ->)]]; cbn; congruence.
Qed.

Lemma step_Idle (search : nat) (st : State) (e : Event) :
  Idle search st -> Idle search (step float32 advance st e).
Proof.
  intros (Hlen & Hc & Ht & Hl). destruct e as [a rect_ maxTitles|i|i];
    cbn [step].
  - destruct (getTitlesInCoords_shape a rect_ maxTitles st)
      as [[_ H]|(_ & H1 & H2 & H3 & new & H4 & Hnew)].
    + cbv zeta in H. rewrite H. unfold Idle. cbn.
      repeat split; try assumption. constructor; [discriminate|exact Hl].
    + cbv zeta in H1, H2, H3, H4. unfold Idle. rewrite H1, H2, H4.
      rewrite length_app. cbn [length]. split; [lia|].
      split.
      { apply Forall_app. split; [exact Hc|].
        eapply Forall_impl; [exact Hnew|]. cbn. intros r ->. lia. }
      split; [exact Ht|].
      destruct H3 as [->| ->]; [exact Hl|].
      constructor; [discriminate|exact Hl].
  - destruct (coordReads st !! i) as [r|] eqn:Hr;
      [|unfold Idle; auto].
    pose proof (Forall_lookup_1 _ _ _ _ Hc Hr) as Hne. cbv beta in Hne.
    match goal with |- context [onload _ r ?X] =>
      destruct (onload_shape r X)
        as (H1 & (new & H2 & Hnew) & H3 & (newL & H4 & HnewL & _))
    end.
    cbv zeta in H1, H2, H3, H4, HnewL.
    cbn [searches coordReads titleReads log] in H1, H2, H3, H4.
    unfold Idle. rewrite H2, H4. split.
    { destruct H1 as [->|(s & n & _ & ->)]; [exact Hlen|].
      rewrite length_insert. exact Hlen. }
    split.
    { apply Forall_app. split; [apply Forall_delete; exact Hc|].
      eapply Forall_impl; [exact Hnew|]. cbn. intros x ->. exact Hne. }
    split.
    { destruct H3 as [->|(tr & -> & Hn)]; [exact Ht|].
      apply Forall_app. split; [exact Ht|].
      constructor; [|constructor].
      rewrite (NewTitleRead_search _ _ _ _ Hn). exact Hne. }
    apply Forall_app. split; [|exact Hl].
    eapply Forall_impl; [exact HnewL|]. cbn. intros x Hx Hs.
    apply (OverEffect_search _ _ _ _ Hx) in Hs. congruence.
  - destruct (titleReads st !! i) as [r|] eqn:Hr;
      [|unfold Idle; auto].
    pose proof (Forall_lookup_1 _ _ _ _ Ht Hr) as Hne. cbv beta in Hne.
    match goal with |- context [onTitleList _ r ?X] =>
      destruct (onTitleList_shape r X)
        as (_ & H1 & H2 & H3 & (newL & H4 & HnewL))
    end.
    cbv zeta in H1, H2, H3, H4, HnewL.
    cbn [searches coordReads titleReads log] in H1, H2, H3, H4.
    unfold Idle. rewrite H1, H2, H4. split; [exact Hlen|].
    split; [exact Hc|]. split.
    { destruct H3 as [->|(tr & title & -> & Hn)];
        [apply Forall_delete; exact Ht|].
      apply Forall_app. split; [apply Forall_delete; exact Ht|].
      constructor; [|constructor].
      rewrite (NewTitleRead_search _ _ _ _ Hn). exact Hne. }
    apply Forall_app. split; [|exact Hl].
    eapply Forall_impl; [exact HnewL|]. cbn. intros x Hx Hs.
    apply (TitleEffect_search _ _ _ _ Hx) in Hs. congruence.
Qed.

Lemma run_Idle (search : nat) (events : list Event) :
  forall st, Idle search st -> Idle search (run float32 advance events st).
Proof.
  induction events as [|e events IH]; intros st Hinv; [exact Hinv|].
  cbn [run fold_left]. apply IH. apply step_Idle. exact Hinv.
Qed.

Lemma WellFormed_grow (st : State) (n : nat) :
  WellFormed st -> (length (searches st) <= n)%nat ->
  Forall (fun r => (cr_search r < n)%nat) (coordReads st) /\
  Forall (fun r => (tr_search r < n)%nat) (titleReads st) /\
  Forall (fun e => forall search, effectSearch e = Some search ->
                                  (search < n)%nat) (log st).
Proof.
  intros (Hc & Ht & Hl) Hn. split; [|split].
  - eapply Forall_impl; [exact Hc|]. cbn. intros. lia.
  - eapply Forall_impl; [exact Ht|]. cbn. intros. lia.
  - eapply Forall_impl; [exact Hl|]. cbn. intros e He x Hx.
    specialize (He x Hx). lia.
Qed.

Lemma step_WellFormed (st : State) (e : Event) :
  WellFormed st -> WellFormed (step float32 advance st e).
Proof.
  intros Hwf. destruct e as [a rect_ maxTitles|i|i]; cbn [step].
  - destruct (getTitlesInCoords_shape a rect_ maxTitles st)
      as [[_ H]|(_ & H1 & H2 & H3 & new & H4 & Hnew)].
    + cbv zeta in H. rewrite H. destruct Hwf as (Hc & Ht & Hl).
      unfold WellFormed. cbn. repeat split; try assumption.
      constructor; [discriminate|exact Hl].
    + cbv zeta in H1, H2, H3, H4.
      destruct (WellFormed_grow st (S (length (searches st))) Hwf ltac:(lia))
        as (Hc & Ht & Hl).
      unfold WellFormed. rewrite H1, H2, H4.
      rewrite length_app. cbn [length]. rewrite Nat.add_1_r.
      split.
      { apply Forall_app. split; [exact Hc|].
        eapply Forall_impl; [exact Hnew|]. cbn. intros r ->. lia. }
      split; [exact Ht|].
      destruct H3 as [->| ->]; [exact Hl|].
      constructor; [discriminate|exact Hl].
  - destruct (coordReads st !! i) as [r|] eqn:Hr; [|exact Hwf].
    destruct Hwf as (Hc & Ht & Hl).
    pose proof (Forall_lookup_1 _ _ _ _ Hc Hr) as Hlt. cbv beta in Hlt.
    match goal with |- context [onload _ r ?X] =>
      destruct (onload_shape r X)
        as (H1 & (new & H2 & Hnew) & H3 & (newL & H4 & HnewL & _))
    end.
    cbv zeta in H1, H2, H3, H4, HnewL.
    cbn [searches coordReads titleReads log] in H1, H2, H3, H4.
    assert (Hlen : length (searches (onload float32 r
                     {| counter := counter st; searches := searches st;
                        coordReads := delete i (coordReads st);
                        titleReads := titleReads st; log := log st |}))
                   = length (searches st)).
    { destruct H1 as [->|(s & n & _ & ->)]; [reflexivity|].
      apply length_insert. }
    unfold WellFormed. rewrite Hlen, H2, H4. split.
    { apply Forall_app. split; [apply Forall_delete; exact Hc|].
      eapply Forall_impl; [exact Hnew|]. cbn. intros x ->. exact Hlt. }
    split.
    { destruct H3 as [->|(tr & -> & Hn)]; [exact Ht|].
      apply Forall_app. split; [exact Ht|].
      constructor; [|constructor].
      rewrite (NewTitleRead_search _ _ _ _ Hn). exact Hlt. }
    apply Forall_app. split; [|exact Hl].
    eapply Forall_impl; [exact HnewL|]. cbn. intros x Hx y Hy.
    apply (OverEffect_search _ _ _ _ Hx) in Hy. subst y. exact Hlt.
  - destruct (titleReads st !! i) as [r|] eqn:Hr; [|exact Hwf].
    destruct Hwf as (Hc & Ht & Hl).
    pose proof (Forall_lookup_1 _ _ _ _ Ht Hr) as Hlt. cbv beta in Hlt.
    match goal with |- context [onTitleList _ r ?X] =>
      destruct (onTitleList_shape r X)
        as (_ & H1 & H2 & H3 & (newL & H4 & HnewL))
    end.
    cbv zeta in H1, H2, H3, H4, HnewL.
    cbn [searches coordReads titleReads log] in H1, H2, H3, H4.
    unfold WellFormed. rewrite H1, H2, H4. split; [exact Hc|].
    split.
    { destruct H3 as [->|(tr & title & -> & Hn)];
        [apply Forall_delete; exact Ht|].
      apply Forall_app. split; [apply Forall_delete; exact Ht|].
      constructor; [|constructor].
      rewrite (NewTitleRead_search _ _ _ _ Hn). exact Hlt. }
    apply Forall_app. split; [|exact Hl].
    eapply Forall_impl; [exact HnewL|]. cbn. intros x Hx y Hy.
    apply (TitleEffect_search _ _ _ _ Hx) in Hy. subst y. exact Hlt.
Qed.

Lemma run_WellFormed (events : list Event) :
  forall st, WellFormed st -> WellFormed (run float32 advance events st).
Proof.
  induction events as [|e events IH]; intros st Hinv; [exact Hinv|].
  cbn [run fold_left]. apply IH. apply step_WellFormed. exact Hinv.
Qed.

Lemma initial_WellFormed : WellFormed initial.
Proof. unfold WellFormed. cbn. repeat split; constructor. Qed.

(** A call on an archive without coordinate files, made while the counter
    is 0, starts nothing. *)
Lemma getTitlesInCoords_no_files (a : LocalArchive) (rect_ : rect)
    (maxTitles : Z) (st : State) :
  _coordinateFiles a = [] -> counter st = 0 ->
  getTitlesInCoords a rect_ maxTitles st
  = setSearches
      (searches st ++ [mkSearch a rect_ maxTitles (normalized rect_) []]) st.
Proof.
  intros Hfiles Hc. unfold getTitlesInCoords. rewrite Hc, Hfiles. reflexivity.
Qed.

Lemma Idle_after_empty_call (a : LocalArchive) (rect_ : rect) (maxTitles : Z)
    (st : State) :
  WellFormed st -> _coordinateFiles a = [] -> counter st = 0 ->
  Idle (length (searches st)) (getTitlesInCoords a rect_ maxTitles st).
Proof.
  intros (Hc & Ht & Hl) Hfiles Hcount.
  rewrite (getTitlesInCoords_no_files a rect_ maxTitles st Hfiles Hcount).
  unfold Idle. cbn. rewrite length_app. cbn. split; [lia|].
  split; [|split].
  - eapply Forall_impl; [exact Hc|]. cbn. intros. lia.
  - eapply Forall_impl; [exact Ht|]. cbn. intros. lia.
  - eapply Forall_impl; [exact Hl|]. cbn. intros e He Hs.
    specialize (He _ Hs). lia.
Qed.

(** **** What is delivered lies in the rectangle, nearest first *)

Lemma Extends_refl (ss : list Search) : Extends ss ss.
Proof. intros i s H. eauto. Qed.

Lemma Extends_app (ss : list Search) (s0 : Search) : Extends ss (ss ++ [s0]).
Proof.
  intros i s H. exists s. split; [|reflexivity].
  apply lookup_app_l_Some. exact H.
Qed.

Lemma Extends_insert (ss : list Search) (i : nat) (s : Search)
    (found : list Title) :
  ss !! i = Some s -> Extends ss (<[i := setFound found s]> ss).
Proof.
  intros Hs j s1 Hj. destruct (decide (i = j)) as [->|Hne].
  - rewrite list_lookup_insert_eq by (eapply lookup_lt_Some; eassumption).
    eexists. split; [reflexivity|]. cbn. congruence.
  - rewrite list_lookup_insert_ne by exact Hne. eauto.
Qed.

Lemma GoodTitleRead_mono (ss ss' : list Search) (r : TitleRead) :
  Extends ss ss' -> GoodTitleRead ss r -> GoodTitleRead ss' r.
Proof.
  intros Hext (s & Hs & Hg & Hf).
  destruct (Hext _ _ Hs) as (s' & Hs' & Heq).
  exists s'. rewrite Heq. auto.
Qed.

Lemma GoodEffect_mono (ss ss' : list Search) (e : Effect) :
  Extends ss ss' -> GoodEffect ss e -> GoodEffect ss' e.
Proof.
  intros Hext. destruct e as [m|x|x titles|]; cbn; try tauto.
  intros (s & Hs & Hf & Hsorted).
  destruct (Hext _ _ Hs) as (s' & Hs' & Heq).
  exists s'. rewrite Heq. auto.
Qed.

Lemma closerFirst_total (c : point) : Total (closerFirst c).
Proof.
  intros a b. unfold closerFirst.
  destruct (Qlt_le_dec 0 (distanceTo c a - distanceTo c b)) as [H|H];
    [right|left; exact H].
  set (da := distanceTo c a) in *. set (db := distanceTo c b) in *.
  clearbody da db. lra.
Qed.

Lemma closerFirst_trans (c : point) : Transitive (closerFirst c).
Proof.
  intros x y z. unfold closerFirst.
  set (dx := distanceTo c x). set (dy := distanceTo c y).
  set (dz := distanceTo c z). clearbody dx dy dz. intros H1 H2. lra.
Qed.

Lemma sortTitles_sorted (c : point) (titles : list Title) :
  StronglySorted (closerFirst c) (sortTitles c titles).
Proof.
  unfold sortTitles.
  exact (@StronglySorted_merge_sort Title (closerFirst c) _
           (closerFirst_trans c) (closerFirst_total c) titles).
Qed.

Lemma sortTitles_Forall (P : Title -> Prop) (c : point) (titles : list Title) :
  Forall P titles -> Forall P (sortTitles c titles).
Proof.
  intros H. unfold sortTitles.
  rewrite (merge_sort_Permutation (closerFirst c) titles). exact H.
Qed.

Lemma NewTitleRead_good (st' : State) (search : nat) (tf : list Title)
    (tr : TitleRead) :
  Forall GoodSearch (searches st') ->
  (forall s, searches st' !! search = Some s -> Forall (inRect (s_targetRect s)) tf) ->
  NewTitleRead st' search tf tr ->
  GoodTitleRead (searches st') tr.
Proof.
  intros Hgood Htf (s & position & Hs & Hp & ->).
  exists s. cbn. split; [exact Hs|].
  destruct (Forall_lookup_1 _ _ _ _ Hgood Hs) as [_ Hfound].
  pose proof (Forall_lookup_1 _ _ _ _ Hfound Hp) as Hin.
  split; [exact Hin | exact (Htf s Hs)].
Qed.

Lemma step_Sound (st : State) (e : Event) :
  Sound st -> Sound (step float32 advance st e).
Proof.
  intros (Hs & Ht & Hl). destruct e as [a rect_ maxTitles|i|i]; cbn [step].
  - destruct (getTitlesInCoords_shape a rect_ maxTitles st)
      as [[_ H]|(_ & H1 & H2 & H3 & _)].
    + cbv zeta in H. rewrite H. unfold Sound. cbn.
      split; [exact Hs|]. split; [exact Ht|]. constructor; [exact I|exact Hl].
    + cbv zeta in H1, H2, H3. unfold Sound. rewrite H1, H2.
      pose proof (Extends_app (searches st)
                    (mkSearch a rect_ maxTitles (normalized rect_) [])) as Hext.
      split.
      { apply Forall_app. split; [exact Hs|].
        constructor; [|constructor]. split; [reflexivity|constructor]. }
      split.
      { eapply Forall_impl; [exact Ht|]. intros r. apply GoodTitleRead_mono.
        exact Hext. }
      assert (Hl' : Forall (GoodEffect (searches st
                      ++ [mkSearch a rect_ maxTitles (normalized rect_) []]))
                      (log st)).
      { eapply Forall_impl; [exact Hl|]. intros x. apply GoodEffect_mono.
        exact Hext. }
      destruct H3 as [->| ->]; [exact Hl'|].
      constructor; [exact I|exact Hl'].
  - destruct (coordReads st !! i) as [r|] eqn:Hr;
      [|unfold Sound; auto].
    match goal with |- context [onload _ r ?X] =>
      set (st' := onload float32 r X);
      destruct (onload_shape r X)
        as (H1 & _ & H3 & (newL & H4 & HnewL & _))
    end.
    cbv zeta in H1, H3, H4, HnewL. fold st' in H1, H3, H4, HnewL.
    cbn [searches coordReads titleReads log] in H1, H3, H4.
    assert (Hgood : Forall GoodSearch (searches st')
                    /\ Extends (searches st) (searches st')).
    { destruct H1 as [->|(s & n & Hlook & ->)];
        [split; [exact Hs|apply Extends_refl]|].
      split; [|apply Extends_insert; exact Hlook].
      apply Forall_insert; [exact Hs|].
      destruct (Forall_lookup_1 _ _ _ _ Hs Hlook) as [Hrect Hfound].
      split; [exact Hrect|]. cbn [setFound s_targetRect s_found].
      apply leafLoop_inRect. exact Hfound. }
    destruct Hgood as [Hgood Hext].
    assert (Ht' : Forall (GoodTitleRead (searches st')) (titleReads st)).
    { eapply Forall_impl; [exact Ht|]. intros x. apply GoodTitleRead_mono.
      exact Hext. }
    unfold Sound. split; [exact Hgood|]. split.
    { destruct H3 as [->|(tr & -> & Hn)]; [exact Ht'|].
      apply Forall_app. split; [exact Ht'|].
      constructor; [|constructor].
      apply (NewTitleRead_good st' (cr_search r) [] tr Hgood); [|exact Hn].
      intros. constructor. }
    rewrite H4. apply Forall_app. split.
    { eapply Forall_impl; [exact HnewL|]. cbn.
      intros x [->|[->|[-> [s Hlook]]]]; cbn; try exact I.
      exists s. split; [exact Hlook|]. split; constructor. }
    eapply Forall_impl; [exact Hl|]. intros x. apply GoodEffect_mono.
    exact Hext.
  - destruct (titleReads st !! i) as [r|] eqn:Hr;
      [|unfold Sound; auto].
    destruct (Forall_lookup_1 _ _ _ _ Ht Hr) as (s0 & Hs0 & (p & Hp & Hin) & Htf).
    match goal with |- context [onTitleList _ r ?X] =>
      set (st' := onTitleList advance r X);
      destruct (onTitleList_shape r X)
        as (_ & H1 & _ & H3 & (newL & H4 & HnewL))
    end.
    cbv zeta in H1, H3, H4, HnewL. fold st' in H1, H3, H4.
    cbn [searches coordReads titleReads log] in H1, H3, H4, HnewL.
    assert (Hwith : forall title,
              Forall (inRect (s_targetRect s0)) (titlesWith r title)).
    { intros title. unfold titlesWith. apply Forall_app. split; [exact Htf|].
      constructor; [|constructor]. exists p. split; [|exact Hin].
      rewrite <- Hp. reflexivity. }
    unfold Sound. rewrite H1. split; [exact Hs|]. split.
    { destruct H3 as [->|(tr & title & -> & Hn)];
        [apply Forall_delete; exact Ht|].
      apply Forall_app. split; [apply Forall_delete; exact Ht|].
      constructor; [|constructor]. rewrite <- H1.
      apply (NewTitleRead_good st' (tr_search r) (titlesWith r title) tr);
        [rewrite H1; exact Hs | | exact Hn].
      intros s Hlook. rewrite H1, Hs0 in Hlook. injection Hlook as <-.
      apply Hwith. }
    rewrite H4. apply Forall_app. split; [|exact Hl].
    eapply Forall_impl; [exact HnewL|]. cbn.
    intros x [->|[(m & ->)|(s & title & Hlook & ->)]]; cbn; try exact I.
    cbn [searches] in Hlook. rewrite Hs0 in Hlook. injection Hlook as <-.
    exists s0. split; [exact Hs0|]. split.
    + apply sortTitles_Forall. apply Hwith.
    + apply sortTitles_sorted.
Qed.

Lemma run_Sound (events : list Event) :
  forall st, Sound st -> Sound (run float32 advance events st).
Proof.
  induction events as [|e events IH]; intros st Hinv; [exact Hinv|].
  cbn [run fold_left]. apply IH. apply step_Sound. exact Hinv.
Qed.

Lemma initial_Sound : Sound initial.
Proof. unfold Sound. cbn. repeat split; constructor. Qed.

(** **** The search is over only at counter 0 *)

Lemma step_over_counter (st : State) (e : Event) (search : nat) :
  let st' := step float32 advance st e in
  exists newL,
    log st' = newL ++ log st /\
    (In (SearchOver search) newL -> counter st' = 0).
Proof.
  cbv zeta. destruct e as [a rect_ maxTitles|i|i]; cbn [step].
  - destruct (getTitlesInCoords_shape a rect_ maxTitles st)
      as [[_ H]|(_ & _ & _ & H3 & _)].
    + cbv zeta in H. rewrite H. exists [Alert retryMessage].
      split; [reflexivity|]. cbn. intros [H0|[]]. discriminate H0.
    + cbv zeta in H3. destruct H3 as [->| ->].
      * exists []. split; [reflexivity|]. intros [].
      * exists [Exception]. split; [reflexivity|].
        cbn. intros [H0|[]]. discriminate H0.
  - destruct (coordReads st !! i) as [r|];
      [|exists []; split; [reflexivity|intros []]].
    match goal with |- context [onload _ r ?X] =>
      destruct (onload_shape r X) as (_ & _ & _ & (newL & H4 & HnewL & Hover))
    end.
    cbv zeta in H4, HnewL, Hover. cbn [log] in H4.
    exists newL. split; [exact H4|]. intros Hin.
    pose proof (proj1 (List.Forall_forall _ _) HnewL _ Hin) as Hx.
    assert (search = cr_search r)
      by (apply (OverEffect_search _ _ _ _ Hx); reflexivity).
    subst search. exact (Hover Hin).
  - destruct (titleReads st !! i) as [r|];
      [|exists []; split; [reflexivity|intros []]].
    match goal with |- context [onTitleList _ r ?X] =>
      destruct (onTitleList_shape r X) as (_ & _ & _ & _ & (newL & H4 & HnewL))
    end.
    cbv zeta in H4, HnewL. cbn [log] in H4.
    exists newL. split; [exact H4|]. intros Hin.
    pose proof (proj1 (List.Forall_forall _ _) HnewL _ Hin) as Hx.
    destruct Hx as [Hx|[(m & Hx)|(s & title & _ & Hx)]]; discriminate Hx.
Qed.

End NearbyFacts.

(** **** The centre of a rectangle and of its normal form *)

Section GeometryFacts.
Import Geometry Nearby NearbyInv.

Lemma center_normalized (r : rect) :
  (x (center (normalized r)) == x (center r))%Q /\
  (y (center (normalized r)) == y (center r))%Q.
Proof.
  unfold normalized, center.
  destruct (Qltb (width r) 0); destruct (Qltb (height r) 0);
    cbn [x y rx ry width height]; split; field.
Qed.

Lemma distance_center_normalized (r : rect) (p : point) :
  (distance (center (normalized r)) p == distance (center r) p)%Q.
Proof.
  destruct (center_normalized r) as [Hx Hy].
  unfold distance. rewrite Hx, Hy. reflexivity.
Qed.

Lemma closerFirst_center_normalized (r : rect) (a b : Title) :
  closerFirst (center (normalized r)) a b -> closerFirst (center r) a b.
Proof.
  unfold closerFirst, distanceTo.
  destruct (_geolocation a) as [pa|]; destruct (_geolocation b) as [pb|];
    rewrite ?distance_center_normalized; tauto.
Qed.

Lemma StronglySorted_weaken {A : Type} (R1 R2 : A -> A -> Prop) (l : list A) :
  (forall a b, R1 a b -> R2 a b) ->
  StronglySorted R1 l -> StronglySorted R2 l.
Proof.
  intros Himpl. induction 1 as [|a l Hs IH Hall]; constructor.
  - exact IH.
  - eapply Forall_impl; [exact Hall|]. intros b. apply Himpl.
Qed.

End GeometryFacts.

(** **** What a search delivers *)

Example nearby_negative_bound :
  Nearby.log
    (Nearby.run Nearby.binary32 TitleIndex.toyAdvance
       [Nearby.Call (Nearby.placesArchive Nearby.placesLeaf) Nearby.scenarioRect (-1);
        Nearby.CoordLoaded 0]
       Nearby.initial)
  = [Nearby.Callback 0 []; Nearby.SearchOver 0].
Proof. vm_compute. reflexivity. Qed.

(** C1, the part the code does not do: a search whose bound is negative
    (the "-1 for unbounded" of the design) never appends a leaf entry: the
    guard of the push asks for [maxTitles >= 0], so whatever the files hold
    and in whatever order the reads come back, its array stays empty. *)
Theorem C1_negative_bound_collects_nothing :
  forall (float32 : Z -> Q) (advance : File -> Z -> option (Title * Z))
         (events : list Nearby.Event) (search : nat) (s : Nearby.Search),
    Nearby.searches (Nearby.run float32 advance events Nearby.initial) !! search
    = Some s ->
    Nearby.s_maxTitles s < 0 ->
    Nearby.s_found s = [].
Proof.
  intros float32 advance events search s Hs Hneg.
  assert (Hinv : NearbyInv.NothingFound
                   (Nearby.run float32 advance events Nearby.initial)).
  { apply run_NothingFound. unfold NearbyInv.NothingFound. constructor. }
  exact (Forall_lookup_1 _ _ _ _ Hinv Hs Hneg).
Qed.

Lemma C1_negative_bound_witness :
  Nearby.s_found
    (Nearby.mkSearch (Nearby.placesArchive Nearby.placesLeaf) Nearby.scenarioRect
       (-1) (Geometry.normalized Nearby.scenarioRect) [])
  = [] /\
  Nearby.searches
    (Nearby.run Nearby.binary32 TitleIndex.toyAdvance
       [Nearby.Call (Nearby.placesArchive Nearby.placesLeaf) Nearby.scenarioRect (-1);
        Nearby.CoordLoaded 0]
       Nearby.initial) !! 0%nat
  = Some (Nearby.mkSearch (Nearby.placesArchive Nearby.placesLeaf)
            Nearby.scenarioRect (-1) (Geometry.normalized Nearby.scenarioRect) []).
Proof.
  assert (H : Nearby.searches
            (Nearby.run Nearby.binary32 TitleIndex.toyAdvance
               [Nearby.Call (Nearby.placesArchive Nearby.placesLeaf)
                  Nearby.scenarioRect (-1);
                Nearby.CoordLoaded 0]
               Nearby.initial) !! 0%nat
          = Some (Nearby.mkSearch (Nearby.placesArchive Nearby.placesLeaf)
                    Nearby.scenarioRect (-1)
                    (Geometry.normalized Nearby.scenarioRect) []))
    by (vm_compute; reflexivity).
  split; [|exact H].
  exact (C1_negative_bound_collects_nothing Nearby.binary32 TitleIndex.toyAdvance
           _ 0%nat _ H ltac:(cbn; lia)).
Defined.

(** C5: whatever the archives hold and in whatever order the reads come
    back, every title list handed to the callback of a search is sorted by
    ascending distance from the centre of the rectangle [R] the search was
    called with (the code sorts by the distance from the centre of the
    normalized [R], which is the same point), and the coordinates of each of
    its titles satisfy [containsPoint] of the normalized [R]. *)
Theorem C5_delivered_titles_sorted_within_rect :
  forall (float32 : Z -> Q) (advance : File -> Z -> option (Title * Z))
         (events : list Nearby.Event) (search : nat) (titles : list Title),
    In (Nearby.Callback search titles)
       (Nearby.log (Nearby.run float32 advance events Nearby.initial)) ->
    exists s,
      Nearby.searches (Nearby.run float32 advance events Nearby.initial) !! search
      = Some s /\
      StronglySorted (Nearby.closerFirst (Geometry.center (Nearby.s_rect s)))
        titles /\
      StronglySorted
        (Nearby.closerFirst
           (Geometry.center (Geometry.normalized (Nearby.s_rect s))))
        titles /\
      Forall (NearbyInv.inRect (Geometry.normalized (Nearby.s_rect s))) titles.
Proof.
  intros float32 advance events search titles Hin.
  destruct (run_Sound float32 advance events Nearby.initial
              (initial_Sound)) as (Hs & _ & Hl).
  pose proof (proj1 (List.Forall_forall _ _) Hl _ Hin) as (s & Hlook & Hf & Hsorted).
  destruct (Forall_lookup_1 _ _ _ _ Hs Hlook) as [Hrect _].
  exists s. split; [exact Hlook|]. rewrite Hrect in Hf, Hsorted. split.
  - eapply StronglySorted_weaken; [|exact Hsorted].
    apply closerFirst_center_normalized.
  - split; [exact Hsorted | exact Hf].
Qed.

Lemma C5_delivered_titles_witness :
  let events :=
    [Nearby.Call (Nearby.placesArchive Nearby.placesLeaf) Nearby.scenarioRect 10;
     Nearby.CoordLoaded 0; Nearby.TitleLoaded 0; Nearby.TitleLoaded 0] in
  let titles :=
    [mkTitle "Banana" (Num 0) 0 0 0 (Some 6)
       (Some (Geometry.mkPoint (Nearby.binary32 1074790400)
                (Nearby.binary32 1111687168)));
     mkTitle "Cherry" (Num 0) 0 0 0 (Some 20)
       (Some (Geometry.mkPoint (Nearby.binary32 1091567616)
                (Nearby.binary32 1110966272)))] in
  exists s,
    Nearby.searches
      (Nearby.run Nearby.binary32 TitleIndex.toyAdvance events Nearby.initial)
      !! 0%nat = Some s /\
    StronglySorted (Nearby.closerFirst (Geometry.center (Nearby.s_rect s)))
      titles /\
    Forall (NearbyInv.inRect (Geometry.normalized (Nearby.s_rect s))) titles.
Proof.
  intros events titles.
  destruct (C5_delivered_titles_sorted_within_rect Nearby.binary32
              TitleIndex.toyAdvance events 0%nat titles)
    as (s & H1 & H2 & _ & H3).
  - left. vm_compute. reflexivity.
  - exists s. auto.
Defined.

(** C9 (as stated, refuted): the guard is [counter > 0], not "nonzero".
    One search is started on an archive with one coordinate file, a second
    call is rejected and resets the counter to 0, then the read of the first
    search comes back and takes the counter to -1.  With the counter at -1
    a new call is not rejected: it reports nothing and starts a descent. *)
Lemma C9_negative_counter_is_not_rejected :
  let a := Nearby.placesArchive Nearby.placesLeaf in
  let st :=
    Nearby.run Nearby.binary32 TitleIndex.toyAdvance
      [Nearby.Call a Nearby.scenarioRect 10; Nearby.Call a Nearby.scenarioRect 10;
       Nearby.CoordLoaded 0]
      Nearby.initial in
  let st' :=
    Nearby.step Nearby.binary32 TitleIndex.toyAdvance st
      (Nearby.Call a Nearby.scenarioRect 10) in
  Nearby.counter st = -1 /\
  Nearby.log st = [Nearby.Alert Nearby.retryMessage] /\
  Nearby.log st' = Nearby.log st /\
  length (Nearby.coordReads st) = 0%nat /\
  length (Nearby.coordReads st') = 1%nat /\
  length (Nearby.searches st') = 2%nat.
Proof. vm_compute. repeat split; reflexivity. Qed.

(** C9 (amended): whenever the counter is positive, a new
    [getTitlesInCoords] call performs no descent, reports the retry message
    and resets the counter to 0; and whenever a step of the system declares
    a search over, the counter is 0 after that step. *)
Theorem C9_positive_counter_rejects_the_call :
  forall (float32 : Z -> Q) (advance : File -> Z -> option (Title * Z))
         (st : Nearby.State) (a : LocalArchive) (rect_ : Geometry.rect)
         (maxTitles : Z),
    0 < Nearby.counter st ->
    Nearby.step float32 advance st (Nearby.Call a rect_ maxTitles)
    = Nearby.mkState 0 (Nearby.searches st) (Nearby.coordReads st)
        (Nearby.titleReads st) (Nearby.Alert Nearby.retryMessage :: Nearby.log st)
    /\
    forall (st0 : Nearby.State) (e : Nearby.Event) (search : nat),
      exists newL,
        Nearby.log (Nearby.step float32 advance st0 e) = newL ++ Nearby.log st0 /\
        (In (Nearby.SearchOver search) newL ->
         Nearby.counter (Nearby.step float32 advance st0 e) = 0).
Proof.
  intros float32 advance st a rect_ maxTitles Hpos. split.
  - cbn [Nearby.step]. unfold Nearby.getTitlesInCoords.
    rewrite (proj2 (Z.ltb_lt 0 (Nearby.counter st)) Hpos). reflexivity.
  - intros st0 e search. apply step_over_counter.
Qed.

Lemma C9_positive_counter_witness :
  let a := Nearby.placesArchive Nearby.placesLeaf in
  let st :=
    Nearby.run Nearby.binary32 TitleIndex.toyAdvance
      [Nearby.Call a Nearby.scenarioRect 10] Nearby.initial in
  Nearby.counter st = 1 /\
  Nearby.counter
    (Nearby.step Nearby.binary32 TitleIndex.toyAdvance st
       (Nearby.Call a Nearby.scenarioRect 10)) = 0.
Proof.
  intros a st.
  assert (Hc : Nearby.counter st = 1) by (vm_compute; reflexivity).
  split; [exact Hc|].
  destruct (C9_positive_counter_rejects_the_call Nearby.binary32
              TitleIndex.toyAdvance st a Nearby.scenarioRect 10
              ltac:(rewrite Hc; lia)) as [H _].
  rewrite H. reflexivity.
Defined.

(** C10: on an archive whose list of coordinate files is empty, a call made
    while the counter is 0 starts no read, leaves the counter at 0, reports
    nothing, and its callback is never invoked, whatever happens
    afterwards. *)
Theorem C10_no_coordinate_files_no_callback :
  forall (float32 : Z -> Q) (advance : File -> Z -> option (Title * Z))
         (before after : list Nearby.Event)
         (a : LocalArchive) (rect_ : Geometry.rect) (maxTitles : Z),
    let st := Nearby.run float32 advance before Nearby.initial in
    let st' := Nearby.step float32 advance st (Nearby.Call a rect_ maxTitles) in
    let search := length (Nearby.searches st) in
    _coordinateFiles a = [] ->
    Nearby.counter st = 0 ->
    Nearby.counter st' = 0 /\
    Nearby.coordReads st' = Nearby.coordReads st /\
    Nearby.titleReads st' = Nearby.titleReads st /\
    Nearby.log st' = Nearby.log st /\
    Nearby.searches st' !! search
    = Some (Nearby.mkSearch a rect_ maxTitles (Geometry.normalized rect_) []) /\
    forall titles,
      ~ In (Nearby.Callback search titles)
           (Nearby.log (Nearby.run float32 advance after st')).
Proof.
  intros float32 advance before after a rect_ maxTitles st st' search
         Hfiles Hcount.
  assert (Hwf : NearbyInv.WellFormed st)
    by (apply run_WellFormed; apply initial_WellFormed).
  assert (Hst' : st' = Nearby.setSearches
                         (Nearby.searches st
                          ++ [Nearby.mkSearch a rect_ maxTitles
                                (Geometry.normalized rect_) []]) st)
    by (apply getTitlesInCoords_no_files; assumption).
  assert (Hidle : NearbyInv.Idle search st')
    by (apply Idle_after_empty_call; assumption).
  rewrite Hst'. cbn [Nearby.counter Nearby.coordReads Nearby.titleReads
                     Nearby.log Nearby.searches Nearby.setSearches].
  split; [exact Hcount|]. eq_conj. split.
  - apply list_lookup_middle. reflexivity.
  - intros titles Hin. rewrite <- Hst' in Hin.
    destruct (run_Idle float32 advance search after st' Hidle) as (_ & _ & _ & Hl).
    pose proof (proj1 (List.Forall_forall _ _) Hl _ Hin) as Hne.
    apply Hne. reflexivity.
Qed.

Lemma C10_no_coordinate_files_witness :
  let a := mkArchive [] [] (Some TitleIndex.toyIndex) None None None None None true in
  let st' :=
    Nearby.step Nearby.binary32 TitleIndex.toyAdvance Nearby.initial
      (Nearby.Call a Nearby.scenarioRect 10) in
  Nearby.counter st' = 0 /\
  Nearby.log
    (Nearby.run Nearby.binary32 TitleIndex.toyAdvance
       [Nearby.CoordLoaded 0; Nearby.TitleLoaded 0] st') = [].
Proof.
  intros a st'.
  destruct (C10_no_coordinate_files_no_callback Nearby.binary32
              TitleIndex.toyAdvance [] [Nearby.CoordLoaded 0; Nearby.TitleLoaded 0]
              a Nearby.scenarioRect 10 eq_refl eq_refl) as (H & _).
  split; [exact H|]. vm_compute. reflexivity.
Defined.

(** *** Further properties of the math index and of the leaf loop *)

(** X1: on a math index of [n] whole records sorted by strictly increasing
    hash, [loadMathImage] of the hash of record [k] hands to the callback
    the bytes [pos .. pos + length] of the math data file, for the [pos]
    and [length] decoded at bytes 16 and 20 of that record; when the data
    file holds them, these are exactly [length] bytes. *)
Theorem X1_loadMathImage_hit_returns_recorded_bytes :
  forall (a : LocalArchive) (mathIndexFile mathDataFile : File)
         (hexString : string) (n k : Z),
    _mathIndexFile a = Some mathIndexFile ->
    _mathDataFile a = Some mathDataFile ->
    size mathIndexFile = MathImage.entrySize * n ->
    (forall i j, 0 <= i -> i < j -> j < n ->
       String.ltb (MathImage.hashAt mathIndexFile i)
         (MathImage.hashAt mathIndexFile j) = true) ->
    0 <= k < n ->
    MathImage.hashAt mathIndexFile k = hexString ->
    exists pos len,
      Util.readIntegerFrom4Bytes (MathImage.recordAt mathIndexFile k) 16 = Some pos /\
      Util.readIntegerFrom4Bytes (MathImage.recordAt mathIndexFile k) 20 = Some len /\
      MathImage.loadMathImage a hexString
      = MathImage.Image (Util.slice (content mathDataFile) pos (pos + len)) /\
      (0 <= pos -> 0 <= len -> pos + len <= size mathDataFile ->
       Z.of_nat (length (Util.slice (content mathDataFile) pos (pos + len))) = len).
Proof.
  intros a idx dat h n k Hidx Hdat Hsize Hsorted Hk Hh.
  destruct (loadMathImage_hit a idx dat h n k Hidx Hdat Hsize Hsorted Hk Hh)
    as (pos & len & Hpos & Hlen & Himage).
  exists pos, len. split; [exact Hpos|]. split; [exact Hlen|].
  split; [exact Himage|].
  intros Hp Hl Hfit. unfold size in Hfit.
  rewrite slice_nonneg by assumption.
  rewrite length_take, length_drop. lia.
Qed.

Lemma X1_loadMathImage_hit_witness :
  exists pos len,
    Util.readIntegerFrom4Bytes
      (MathImage.recordAt (mkFile "math.idx" (MathImage.entry 1 0 5 ++ MathImage.entry 2 5 3)) 1)
      16 = Some pos /\
    Util.readIntegerFrom4Bytes
      (MathImage.recordAt (mkFile "math.idx" (MathImage.entry 1 0 5 ++ MathImage.entry 2 5 3)) 1)
      20 = Some len /\
    MathImage.loadMathImage MathImage.scenarioArchive MathImage.hash02
    = MathImage.Image
        (Util.slice (map Util.u8 [72; 69; 76; 76; 79; 66; 89; 69]) pos (pos + len)).
Proof.
  destruct (X1_loadMathImage_hit_returns_recorded_bytes MathImage.scenarioArchive
              (mkFile "math.idx" (MathImage.entry 1 0 5 ++ MathImage.entry 2 5 3))
              (mkFile "math.dat" (map Util.u8 [72; 69; 76; 76; 79; 66; 89; 69]))
              MathImage.hash02 2 1)
    as (pos & len & Hpos & Hlen & Himage & _).
  - reflexivity.
  - reflexivity.
  - reflexivity.
  - intros i j Hi Hij Hj.
    assert (i = 0) as -> by lia. assert (j = 1) as -> by lia.
    vm_compute. reflexivity.
  - lia.
  - vm_compute. reflexivity.
  - exists pos, len. split; [exact Hpos|]. split; [exact Hlen|]. exact Himage.
Defined.

(** X2: whatever the math index holds, the binary search of
    [loadMathImage] comes to an end within the rounds the model allows it:
    the interval [lo, hi) shrinks at every probe. *)
Theorem X2_loadMathImage_search_ends :
  forall (a : LocalArchive) (hexString : string),
    MathImage.loadMathImage a hexString <> MathImage.Unfinished.
Proof.
  intros a h. unfold MathImage.loadMathImage.
  destruct (_mathIndexFile a) as [idx|]; [|discriminate].
  pose proof (findMathDataPosition_fuel idx h (Z.to_nat (size idx)) 0
                (inject_Z (size idx) / inject_Z MathImage.entrySize)
                (initial_fuel (size idx) ltac:(unfold size; lia))) as Hf.
  destruct (MathImage.findMathDataPosition _ idx h 0 _); try discriminate.
  - destruct (_mathDataFile a); discriminate.
  - congruence.
Qed.

(** X3: with a bound that is not negative, the loop over a leaf of [n]
    entries appends to the array the entries that lie in the target
    rectangle, in the order of the leaf, until the array holds [maxTitles]
    titles. *)
Theorem X3_leafLoop_appends_up_to_bound :
  forall (float32 : Z -> Q) (byteArray : Util.Uint8Array)
         (targetRect : Geometry.rect) (maxTitles : Z) (n : nat)
         (found : list Title) (entries : list (Geometry.point * Z)),
    0 <= maxTitles ->
    Nearby.leafEntries float32 n 0 byteArray = Some entries ->
    Nearby.leafLoop float32 n 0 byteArray targetRect maxTitles found
    = (found
       ++ firstn (Z.to_nat (maxTitles - Z.of_nat (length found)))
            (Nearby.entriesInside targetRect entries),
       true).
Proof.
  intros float32 byteArray targetRect maxTitles n found entries Hmax Hentries.
  exact (leafLoop_bounded float32 byteArray targetRect maxTitles Hmax n 0 found
           entries Hentries).
Qed.

Lemma X3_leafLoop_witness :
  exists entries,
    Nearby.leafEntries Nearby.binary32 3 0 Nearby.placesLeaf = Some entries /\
    Nearby.leafLoop Nearby.binary32 3 0 Nearby.placesLeaf
      Nearby.scenarioRect 1 []
    = ([] ++ firstn (Z.to_nat (1 - Z.of_nat (length (@nil Title))))
               (Nearby.entriesInside Nearby.scenarioRect entries),
       true).
Proof.
  eexists. split.
  - vm_compute. reflexivity.
  - apply X3_leafLoop_appends_up_to_bound.
    + lia.
    + vm_compute. reflexivity.
Defined.

(** *** Filling an archive from a list of files *)

Section InitFacts.
Import JsString Init.

Lemma stripPrefix_Some (p s rest : string) :
  stripPrefix p s = Some rest -> s = p +:+ rest.
Proof.
  revert s. induction p as [|c p IH]; intros s H; cbn in *.
  - injection H as <-. reflexivity.
  - destruct s as [|d s]; [discriminate|].
    destruct (Ascii.eqb c d) eqn:Hcd; [|discriminate].
    apply Ascii.eqb_eq in Hcd. subst d. rewrite (IH s H). reflexivity.
Qed.

Lemma stripPrefix_append (p rest : string) : stripPrefix p (p +:+ rest) = Some rest.
Proof.
  induction p as [|c p IH]; simpl; [reflexivity|].
  rewrite Ascii.eqb_refl. exact IH.
Qed.

Lemma execFileNr_Some (p s name : string) (n : Z) :
  execFileNr p s name = Some n ->
  exists d1 d2 c,
    name = p +:+ String d1 (String d2 (String c s)) /\
    isDigit d1 = true /\ isDigit d2 = true /\ notLineTerminator c = true /\
    n = 10 * digitValue d1 + digitValue d2.
Proof.
  unfold execFileNr. intros H.
  destruct (stripPrefix p name) as [[|d1 [|d2 [|c rest]]]|] eqn:Hp;
    try discriminate.
  destruct (isDigit d1) eqn:H1; [|discriminate].
  destruct (isDigit d2) eqn:H2; [|discriminate].
  destruct (notLineTerminator c) eqn:H3; [|discriminate].
  destruct (String.eqb rest s) eqn:H4; [|discriminate].
  cbn in H. injection H as <-. apply String.eqb_eq in H4. subst rest.
  exists d1, d2, c. split; [exact (stripPrefix_Some _ _ _ Hp)|]. auto.
Qed.

Lemma isDigit_value (d : ascii) : isDigit d = true -> 0 <= digitValue d <= 9.
Proof.
  unfold isDigit, digitValue. intros H.
  apply andb_true_iff in H. destruct H as [H1 H2].
  apply Nat.leb_le in H1. apply Nat.leb_le in H2. lia.
Qed.

Lemma execFileNr_range (p s name : string) (n : Z) :
  execFileNr p s name = Some n -> 0 <= n < 100.
Proof.
  intros H. destruct (execFileNr_Some _ _ _ _ H) as (d1 & d2 & c & _ & H1 & H2 & _ & ->).
  pose proof (isDigit_value d1 H1). pose proof (isDigit_value d2 H2). lia.
Qed.

(** A name that one pattern accepts is not one of the fixed names, and the
    other pattern refuses it. *)
Lemma dataFileNr_only (name : string) (n : Z) :
  dataFileNr name = Some n ->
  String.eqb name "metadata.txt" = false /\
  String.eqb name "titles.idx" = false /\
  String.eqb name "titles_search.idx" = false /\
  String.eqb name "math.idx" = false /\
  String.eqb name "math.dat" = false /\
  coordinateFileNr name = None.
Proof.
  intros H. destruct (execFileNr_Some _ _ _ _ H) as (d1 & d2 & c & -> & _).
  repeat split; reflexivity.
Qed.

Lemma coordinateFileNr_only (name : string) (n : Z) :
  coordinateFileNr name = Some n ->
  String.eqb name "metadata.txt" = false /\
  String.eqb name "titles.idx" = false /\
  String.eqb name "titles_search.idx" = false /\
  String.eqb name "math.idx" = false /\
  String.eqb name "math.dat" = false /\
  dataFileNr name = None.
Proof.
  intros H. destruct (execFileNr_Some _ _ _ _ H) as (d1 & d2 & c & -> & _).
  repeat split; reflexivity.
Qed.

Lemma arraySet_length (array : list (option File)) (i : Z) (file : File) :
  length (arraySet array i file)
  = if i <? 0 then length array else Nat.max (length array) (S (Z.to_nat i)).
Proof.
  unfold arraySet. destruct (i <? 0); [reflexivity|].
  destruct (Z.to_nat i <? length array)%nat eqn:Hlt.
  - apply Nat.ltb_lt in Hlt. rewrite length_insert. lia.
  - apply Nat.ltb_ge in Hlt.
    rewrite !length_app, length_replicate. cbn [length]. lia.
Qed.

Lemma arraySet_slot (array : list (option File)) (i : Z) (file : File) (n : nat) :
  slot (arraySet array i file) n
  = if (0 <=? i) && (n =? Z.to_nat i)%nat then Some file else slot array n.
Proof.
  unfold arraySet, slot.
  destruct (i <? 0) eqn:Hneg.
  - apply Z.ltb_lt in Hneg. rewrite (proj2 (Z.leb_gt 0 i)) by lia. reflexivity.
  - apply Z.ltb_ge in Hneg. rewrite (proj2 (Z.leb_le 0 i) Hneg). cbn [andb].
    destruct (Z.to_nat i <? length array)%nat eqn:Hlt.
    + apply Nat.ltb_lt in Hlt. destruct (n =? Z.to_nat i)%nat eqn:Hn.
      * apply Nat.eqb_eq in Hn. subst n.
        rewrite list_lookup_insert_eq by exact Hlt. reflexivity.
      * apply Nat.eqb_neq in Hn.
        rewrite list_lookup_insert_ne by lia. reflexivity.
    + apply Nat.ltb_ge in Hlt. destruct (n =? Z.to_nat i)%nat eqn:Hn.
      * apply Nat.eqb_eq in Hn. subst n.
        rewrite lookup_app_r by exact Hlt.
        rewrite lookup_app_r by (rewrite length_replicate; lia).
        rewrite length_replicate, Nat.sub_diag. reflexivity.
      * apply Nat.eqb_neq in Hn.
        destruct (Nat.lt_ge_cases n (length array)) as [Hin|Hout].
        -- rewrite lookup_app_l by exact Hin. reflexivity.
        -- rewrite lookup_app_r by exact Hout.
           rewrite (lookup_ge_None_2 array n) by exact Hout.
           destruct (Nat.lt_ge_cases (n - length array) (Z.to_nat i - length array))
             as [Hh|Hh].
           ++ rewrite lookup_app_l by (rewrite length_replicate; exact Hh).
              rewrite lookup_replicate_2 by exact Hh. reflexivity.
           ++ rewrite lookup_app_r by (rewrite length_replicate; exact Hh).
              rewrite length_replicate.
              destruct (n - length array - (Z.to_nat i - length array))%nat eqn:Hd;
                [lia|]. reflexivity.
Qed.

Lemma slot_Some (array : list (option File)) (n : nat) (f : File) :
  slot array n = Some f <-> array !! n = Some (Some f).
Proof.
  unfold slot. destruct (array !! n) as [[g|]|]; split; intros H;
    try discriminate; try (injection H as ->; reflexivity).
Qed.

Lemma fixed_name_no_number (name : string) :
  String.eqb name "titles.idx" = true \/
  String.eqb name "titles_search.idx" = true \/
  String.eqb name "math.idx" = true \/ String.eqb name "math.dat" = true ->
  dataFileNr name = None /\ coordinateFileNr name = None.
Proof.
  intros [H|[H|[H|H]]]; apply String.eqb_eq in H; subst name;
    split; reflexivity.
Qed.

Lemma assignFile_dataFiles (file : File) (a : LocalArchive) :
  _dataFiles (assignFile file a)
  = match dataFileNr (name file) with
    | Some n => arraySet (_dataFiles a) n file
    | None => _dataFiles a
    end.
Proof.
  unfold assignFile.
  destruct (String.eqb (name file) "titles.idx") eqn:H1;
    [rewrite (proj1 (fixed_name_no_number _ (or_introl H1))); reflexivity|].
  destruct (String.eqb (name file) "titles_search.idx") eqn:H2;
    [rewrite (proj1 (fixed_name_no_number _ (or_intror (or_introl H2))));
     reflexivity|].
  destruct (String.eqb (name file) "math.idx") eqn:H3;
    [rewrite (proj1 (fixed_name_no_number _
                       (or_intror (or_intror (or_introl H3))))); reflexivity|].
  destruct (String.eqb (name file) "math.dat") eqn:H4;
    [rewrite (proj1 (fixed_name_no_number _
                       (or_intror (or_intror (or_intror H4))))); reflexivity|].
  destruct (coordinateFileNr (name file)) as [m|] eqn:Hc.
  - destruct (coordinateFileNr_only _ _ Hc) as (_ & _ & _ & _ & _ & ->).
    reflexivity.
  - destruct (dataFileNr (name file)); reflexivity.
Qed.

Lemma assignFile_coordinateFiles (file : File) (a : LocalArchive) :
  _coordinateFiles (assignFile file a)
  = match coordinateFileNr (name file) with
    | Some n => arraySet (_coordinateFiles a) (n - 1) file
    | None => _coordinateFiles a
    end.
Proof.
  unfold assignFile.
  destruct (String.eqb (name file) "titles.idx") eqn:H1;
    [rewrite (proj2 (fixed_name_no_number _ (or_introl H1))); reflexivity|].
  destruct (String.eqb (name file) "titles_search.idx") eqn:H2;
    [rewrite (proj2 (fixed_name_no_number _ (or_intror (or_introl H2))));
     reflexivity|].
  destruct (String.eqb (name file) "math.idx") eqn:H3;
    [rewrite (proj2 (fixed_name_no_number _
                       (or_intror (or_intror (or_introl H3))))); reflexivity|].
  destruct (String.eqb (name file) "math.dat") eqn:H4;
    [rewrite (proj2 (fixed_name_no_number _
                       (or_intror (or_intror (or_intror H4))))); reflexivity|].
  destruct (coordinateFileNr (name file)) as [m|] eqn:Hc; [reflexivity|].
  destruct (dataFileNr (name file)); reflexivity.
Qed.

(** The metadata fields are written by the handler of the read only. *)
Lemma assignFile_metadata (file : File) (a : LocalArchive) :
  _language (assignFile file a) = _language a /\
  _date (assignFile file a) = _date a /\
  _normalizedTitles (assignFile file a) = _normalizedTitles a.
Proof.
  unfold assignFile.
  repeat match goal with
         | |- context [if ?b then _ else _] => destruct b
         | |- context [match ?o with Some _ => _ | None => _ end] => destruct o
         end; repeat split; reflexivity.
Qed.

Lemma assignFiles_app (l1 l2 : list (option File)) :
  forall (a : LocalArchive) (reads : list File),
    assignFiles (l1 ++ l2) a reads
    = assignFiles l2 (fst (assignFiles l1 a reads)) (snd (assignFiles l1 a reads)).
Proof.
  induction l1 as [|[file|] l1 IH]; intros a reads; cbn [assignFiles app];
    [reflexivity| |apply IH].
  destruct (String.eqb (name file) "metadata.txt"); apply IH.
Qed.

(** A property of the archive that every assignment of the loop keeps. *)
Lemma assignFiles_keeps (P : LocalArchive -> Prop) (archiveFiles : list (option File)) :
  (forall file a, In (Some file) archiveFiles ->
                  String.eqb (name file) "metadata.txt" = false ->
                  P a -> P (assignFile file a)) ->
  forall (a : LocalArchive) (reads : list File),
    P a -> P (fst (assignFiles archiveFiles a reads)).
Proof.
  induction archiveFiles as [|[file|] rest IH]; intros Hstep a reads Ha;
    cbn [assignFiles]; [exact Ha| |].
  - destruct (String.eqb (name file) "metadata.txt") eqn:Hm.
    + apply IH; [|exact Ha]. intros f b Hin. apply Hstep. right. exact Hin.
    + apply IH.
      * intros f b Hin. apply Hstep. right. exact Hin.
      * apply Hstep; [left; reflexivity|exact Hm|exact Ha].
  - apply IH; [|exact Ha]. intros f b Hin. apply Hstep. right. exact Hin.
Qed.

End InitFacts.

(** X4: a file of the list whose name is [wikipedia_NN.dat] is found, once
    [initializeFromArchiveFiles] has returned, in slot [NN] of [_dataFiles],
    unless a later file of the list carries the same number. *)
Theorem X4_initializeFromArchiveFiles_data_file_slot :
  forall (a : LocalArchive) (before after : list (option File)) (file : File)
         (n : Z),
    Init.dataFileNr (name file) = Some n ->
    Forall (fun later => forall f, later = Some f ->
                                   Init.dataFileNr (name f) <> Some n) after ->
    _dataFiles (fst (Init.initializeFromArchiveFiles a
                       (before ++ Some file :: after)))
      !! Z.to_nat n = Some (Some file).
Proof.
  intros a before after file n Hn Hafter.
  unfold Init.initializeFromArchiveFiles.
  rewrite assignFiles_app. cbn [Init.assignFiles].
  destruct (dataFileNr_only _ _ Hn) as (-> & _).
  apply slot_Some.
  apply (assignFiles_keeps
           (fun b => Init.slot (_dataFiles b) (Z.to_nat n) = Some file)).
  - intros g b Hin _ Hb. rewrite assignFile_dataFiles.
    destruct (Init.dataFileNr (name g)) as [m|] eqn:Hm; [|exact Hb].
    rewrite arraySet_slot.
    destruct (execFileNr_range _ _ _ _ Hm) as [Hm0 _].
    destruct (execFileNr_range _ _ _ _ Hn) as [Hn0 _].
    destruct (Z.to_nat n =? Z.to_nat m)%nat eqn:Heq.
    + apply Nat.eqb_eq in Heq. assert (m = n) as -> by lia.
      exfalso. exact (proj1 (List.Forall_forall _ _) Hafter _ Hin g eq_refl Hm).
    + rewrite andb_false_r. exact Hb.
  - rewrite assignFile_dataFiles, Hn, arraySet_slot.
    destruct (execFileNr_range _ _ _ _ Hn) as [Hn0 _].
    rewrite (proj2 (Z.leb_le 0 n) Hn0), Nat.eqb_refl. reflexivity.
Qed.

Lemma X4_data_file_slot_witness :
  _dataFiles (fst (Init.initializeFromArchiveFiles newLocalArchive
                     ([Some (Init.shard "00")] ++ Some (Init.shard "02")
                      :: [Some (mkFile "titles.idx" []); Some (Init.shard "01")])))
    !! Z.to_nat 2 = Some (Some (Init.shard "02")).
Proof.
  apply X4_initializeFromArchiveFiles_data_file_slot.
  - reflexivity.
  - repeat constructor; intros f [= <-]; vm_compute; discriminate.
Defined.

Section InitInvariants.
Import JsString Init.

(** Every slot that holds a file holds one of the list, under its number. *)
Lemma init_data_numbered (a : LocalArchive) (archiveFiles : list (option File)) :
  forall (i : nat) (f : File),
    _dataFiles (fst (initializeFromArchiveFiles a archiveFiles)) !! i
    = Some (Some f) ->
    dataFileNr (name f) = Some (Z.of_nat i) /\ In (Some f) archiveFiles.
Proof.
  unfold initializeFromArchiveFiles.
  apply (assignFiles_keeps
           (fun b => forall i f, _dataFiles b !! i = Some (Some f) ->
                                 dataFileNr (name f) = Some (Z.of_nat i)
                                 /\ In (Some f) archiveFiles)).
  - intros file b Hin _ Hb i f. rewrite assignFile_dataFiles.
    destruct (dataFileNr (name file)) as [m|] eqn:Hm; [|apply Hb].
    intros Hlook. apply slot_Some in Hlook. rewrite arraySet_slot in Hlook.
    destruct ((0 <=? m) && (i =? Z.to_nat m)%nat) eqn:Hi.
    + injection Hlook as <-. apply andb_true_iff in Hi. destruct Hi as [H0 Hi].
      apply Z.leb_le in H0. apply Nat.eqb_eq in Hi. subst i.
      rewrite Z2Nat.id by exact H0. split; [exact Hm|exact Hin].
    + apply Hb. apply slot_Some. exact Hlook.
  - cbn. intros i f Hlook. rewrite lookup_nil in Hlook. discriminate.
Qed.

Lemma init_coordinate_numbered (a : LocalArchive)
    (archiveFiles : list (option File)) :
  forall (i : nat) (f : File),
    _coordinateFiles (fst (initializeFromArchiveFiles a archiveFiles)) !! i
    = Some (Some f) ->
    coordinateFileNr (name f) = Some (Z.of_nat i + 1) /\ In (Some f) archiveFiles.
Proof.
  unfold initializeFromArchiveFiles.
  apply (assignFiles_keeps
           (fun b => forall i f, _coordinateFiles b !! i = Some (Some f) ->
                                 coordinateFileNr (name f) = Some (Z.of_nat i + 1)
                                 /\ In (Some f) archiveFiles)).
  - intros file b Hin _ Hb i f. rewrite assignFile_coordinateFiles.
    destruct (coordinateFileNr (name file)) as [m|] eqn:Hm; [|apply Hb].
    intros Hlook. apply slot_Some in Hlook. rewrite arraySet_slot in Hlook.
    destruct ((0 <=? m - 1) && (i =? Z.to_nat (m - 1))%nat) eqn:Hi.
    + injection Hlook as <-. apply andb_true_iff in Hi. destruct Hi as [H0 Hi].
      apply Z.leb_le in H0. apply Nat.eqb_eq in Hi. subst i.
      rewrite Z2Nat.id by exact H0. split; [|exact Hin].
      rewrite Hm. f_equal. lia.
    + apply Hb. apply slot_Some. exact Hlook.
  - cbn. intros i f Hlook. rewrite lookup_nil in Hlook. discriminate.
Qed.

(** A data file of the list makes the array longer than its number. *)
Lemma init_data_length (a : LocalArchive) (archiveFiles : list (option File))
    (file : File) (m : Z) :
  In (Some file) archiveFiles -> dataFileNr (name file) = Some m ->
  (Z.to_nat m < length (_dataFiles (fst (initializeFromArchiveFiles a archiveFiles))))%nat.
Proof.
  intros Hin Hm. destruct (in_split _ _ Hin) as (before & after & ->).
  unfold initializeFromArchiveFiles.
  rewrite assignFiles_app. cbn [assignFiles].
  destruct (dataFileNr_only _ _ Hm) as (-> & _).
  destruct (execFileNr_range _ _ _ _ Hm) as [Hm0 _].
  apply (assignFiles_keeps (fun b => (Z.to_nat m < length (_dataFiles b))%nat)).
  - intros g b _ _ Hb. rewrite assignFile_dataFiles.
    destruct (dataFileNr (name g)) as [k|]; [|exact Hb].
    rewrite arraySet_length. destruct (k <? 0); lia.
  - rewrite assignFile_dataFiles, Hm, arraySet_length.
    rewrite (proj2 (Z.ltb_ge m 0) Hm0). lia.
Qed.

End InitInvariants.

(** X5: once [initializeFromArchiveFiles] has returned, a slot [i] of
    [_dataFiles] that holds a file holds a file of the list whose name is
    [wikipedia_NN.dat] with [NN = i], and a slot [i] of [_coordinateFiles]
    holds a file of the list named [coordinates_NN.idx] with [NN = i + 1]:
    [coordinates_00.idx] is in no slot. *)
Theorem X5_initializeFromArchiveFiles_slots_numbered :
  forall (a : LocalArchive) (archiveFiles : list (option File)) (i : nat)
         (f : File),
    let a' := fst (Init.initializeFromArchiveFiles a archiveFiles) in
    (_dataFiles a' !! i = Some (Some f) ->
     Init.dataFileNr (name f) = Some (Z.of_nat i) /\ In (Some f) archiveFiles) /\
    (_coordinateFiles a' !! i = Some (Some f) ->
     Init.coordinateFileNr (name f) = Some (Z.of_nat i + 1)
     /\ In (Some f) archiveFiles).
Proof.
  intros a archiveFiles i f a'. split.
  - apply init_data_numbered.
  - apply init_coordinate_numbered.
Qed.

(** *** Which data file [readArticle] picks *)

Section DataFileFacts.
Import JsString Init Article.

Lemma findDataFile_hole (expected : string) (dataFiles : list (option File)) :
  In None dataFiles ->
  forall dataFile, findDataFile expected dataFiles dataFile = Hole.
Proof.
  induction dataFiles as [|[f|] rest IH]; intros Hin dataFile;
    cbn [findDataFile]; [destruct Hin| |reflexivity].
  apply IH. destruct Hin as [H|H]; [discriminate|exact H].
Qed.

Lemma findDataFile_no_match (expected : string) (dataFiles : list (option File)) :
  Forall (fun s => exists g, s = Some g /\ endsWith expected (name g) = false)
    dataFiles ->
  forall dataFile,
    findDataFile expected dataFiles dataFile
    = match dataFile with Some f => Selected f | None => Missing end.
Proof.
  induction 1 as [|s rest (g & -> & Hg) _ IH]; intros dataFile;
    cbn [findDataFile]; [reflexivity|].
  rewrite Hg. apply IH.
Qed.

Lemma findDataFile_last_match (expected : string) (f : File)
    (l1 l2 : list (option File)) :
  Forall (fun s => s <> None) l1 ->
  endsWith expected (name f) = true ->
  Forall (fun s => exists g, s = Some g /\ endsWith expected (name g) = false) l2 ->
  forall dataFile,
    findDataFile expected (l1 ++ Some f :: l2) dataFile = Selected f.
Proof.
  intros H1 Hf H2. induction H1 as [|[g|] l1 Hg _ IH]; intros dataFile;
    cbn [findDataFile app].
  - rewrite Hf. apply (findDataFile_no_match expected l2 H2 (Some f)).
  - apply IH.
  - destruct (Hg eq_refl).
Qed.

Lemma findDataFile_never_hole (expected : string) (dataFiles : list (option File)) :
  Forall (fun s => s <> None) dataFiles ->
  forall dataFile, findDataFile expected dataFiles dataFile <> Hole.
Proof.
  induction 1 as [|[g|] rest Hg _ IH]; intros dataFile; cbn [findDataFile].
  - destruct dataFile; discriminate.
  - apply IH.
  - destruct (Hg eq_refl).
Qed.

Lemma isDigit_not_dot (p : ascii) : isDigit p = true -> Ascii.eqb p "."%char = false.
Proof.
  intros H. destruct (Ascii.eqb p ".") eqn:Hp; [|reflexivity].
  apply Ascii.eqb_eq in Hp. subst p. discriminate H.
Qed.

Lemma digitValue_inj (c d : ascii) : digitValue c = digitValue d -> c = d.
Proof.
  unfold digitValue. intros H.
  rewrite <- (Ascii.ascii_nat_embedding c), <- (Ascii.ascii_nat_embedding d).
  f_equal. lia.
Qed.

(** The number as the expected name carries it: two digits below 100. *)
Lemma prefixedFileNumber_digits (n : Z) :
  0 <= n < 100 ->
  exists e1 e2,
    prefixedFileNumber (Num n) = String e1 (String e2 EmptyString) /\
    isDigit e1 = true /\ isDigit e2 = true /\
    n = 10 * digitValue e1 + digitValue e2.
Proof.
  intros Hn.
  assert (Hk : exists k : nat, n = Z.of_nat k /\ (k < 100)%nat)
    by (exists (Z.to_nat n); lia).
  destruct Hk as (k & -> & Hk).
  do 100 (destruct k as [|k];
          [do 2 eexists; split; [reflexivity|];
           split; [reflexivity|]; split; reflexivity|]).
  lia.
Qed.

Lemma matchChar_literal (p c : ascii) :
  Ascii.eqb p "."%char = false -> matchChar p c = Ascii.eqb p c.
Proof. unfold matchChar. intros ->. reflexivity. Qed.

(** A name that the data file pattern accepts ends with the expected name
    of a title exactly when the two numbers are the same. *)
Lemma endsWith_expected (title : Title) (n i : Z) (fileName : string) :
  _fileNr title = Num n -> 0 <= n < 100 ->
  dataFileNr fileName = Some i ->
  endsWith (expectedFileName title) fileName = (i =? n).
Proof.
  intros Hnr Hn Hi. unfold expectedFileName. rewrite Hnr.
  destruct (prefixedFileNumber_digits n Hn) as (e1 & e2 & -> & He1 & He2 & ->).
  destruct (execFileNr_Some _ _ _ _ Hi) as (d1 & d2 & c & -> & Hd1 & Hd2 & Hc & ->).
  unfold endsWith. simpl.
  rewrite (matchChar_literal e1) by (apply isDigit_not_dot; assumption).
  rewrite (matchChar_literal e2) by (apply isDigit_not_dot; assumption).
  assert (Hdot : matchChar "." c = true) by exact Hc.
  rewrite Hdot. cbn [andb]. rewrite andb_true_r.
  destruct (Ascii.eqb e1 d1) eqn:H1; cbn [andb].
  - apply Ascii.eqb_eq in H1. subst d1.
    destruct (Ascii.eqb e2 d2) eqn:H2.
    + apply Ascii.eqb_eq in H2. subst d2. symmetry. apply Z.eqb_refl.
    + symmetry. apply Z.eqb_neq. intros Heq.
      assert (e2 = d2) by (apply digitValue_inj; lia).
      subst d2. rewrite Ascii.eqb_refl in H2. discriminate.
  - symmetry. apply Z.eqb_neq. intros Heq.
    pose proof (isDigit_value _ He1). pose proof (isDigit_value _ He2).
    pose proof (isDigit_value _ Hd1). pose proof (isDigit_value _ Hd2).
    assert (e1 = d1) by (apply digitValue_inj; lia).
    subst d1. rewrite Ascii.eqb_refl in H1. discriminate.
Qed.

Lemma length_append_ge (r s : string) :
  (String.length s <= String.length (r +:+ s))%nat.
Proof.
  induction r as [|c r IH]; [exact (le_n _)|].
  change (String.length s <= S (String.length (r +:+ s)))%nat. lia.
Qed.

(** An expected name whose number is not written with two characters ends
    no name that the data file pattern accepts. *)
Lemma endsWith_other_length (title : Title) (i : Z) (fileName : string) :
  String.length (prefixedFileNumber (_fileNr title)) <> 2%nat ->
  dataFileNr fileName = Some i ->
  endsWith (expectedFileName title) fileName = false.
Proof.
  intros Hlen Hi. unfold expectedFileName.
  destruct (execFileNr_Some _ _ _ _ Hi) as (d1 & d2 & c & -> & _).
  destruct (prefixedFileNumber (_fileNr title)) as [|x [|y [|z rest]]].
  - reflexivity.
  - reflexivity.
  - destruct (Hlen eq_refl).
  - unfold endsWith. simpl String.length.
    pose proof (length_append_ge rest ".dat") as Hge.
    destruct (String.length (rest +:+ ".dat")) as [|[|[|[|k]]]];
      simpl in Hge; try lia.
    reflexivity.
Qed.

End DataFileFacts.

(** X6: on an archive filled by [initializeFromArchiveFiles] whose data
    array has no hole, [readArticle] reads the article of a title from the
    file in the slot of the title's file number: the file named
    [wikipedia_NN.dat] with [NN] that number. *)
Theorem X6_readArticle_reads_the_numbered_file :
  forall (webworkerBzip2 : list byte -> Article.Message)
         (decodeUtf8 : string -> option string) (fuel : nat)
         (a : LocalArchive) (archiveFiles : list (option File)) (title : Title)
         (n : Z) (f : File),
    let a' := fst (Init.initializeFromArchiveFiles a archiveFiles) in
    _fileNr title = Num n -> 0 <= n ->
    _dataFiles a' !! Z.to_nat n = Some (Some f) ->
    Forall (fun s => s <> None) (_dataFiles a') ->
    Article.readArticle webworkerBzip2 decodeUtf8 fuel a' title
    = Article.readArticleChunk webworkerBzip2 decodeUtf8 fuel title f
        Article.CHUNK_SIZE.
Proof.
  intros wb dec fuel a archiveFiles title n f a' Hnr Hn0 Hlook Hfull.
  destruct (init_data_numbered a archiveFiles _ _ Hlook) as [Hf _].
  rewrite Z2Nat.id in Hf by exact Hn0.
  pose proof (execFileNr_range _ _ _ _ Hf) as Hn.
  unfold Article.readArticle.
  rewrite <- (take_drop_middle _ _ _ Hlook).
  rewrite findDataFile_last_match; [reflexivity| | |].
  - apply Forall_take. exact Hfull.
  - rewrite (endsWith_expected title n n _ Hnr Hn Hf). apply Z.eqb_refl.
  - apply Forall_lookup_2. intros j s Hs. rewrite lookup_drop in Hs.
    destruct s as [g|];
      [|exfalso; exact (Forall_lookup_1 _ _ _ _ Hfull Hs eq_refl)].
    exists g. split; [reflexivity|].
    destruct (init_data_numbered a archiveFiles _ _ Hs) as [Hg _].
    rewrite (endsWith_expected title n _ _ Hnr Hn Hg).
    apply Z.eqb_neq. lia.
Qed.

Lemma X6_readArticle_numbered_file_witness :
  Article.readArticle Article.toyCodec Some 3
    (fst (Init.initializeFromArchiveFiles newLocalArchive
            [Some (Init.shard "01"); None; Some (Init.shard "00")]))
    (mkTitle "Paris" (Num 1) 0 3 5 (Some 0) None)
  = Article.readArticleChunk Article.toyCodec Some 3
      (mkTitle "Paris" (Num 1) 0 3 5 (Some 0) None) (Init.shard "01")
      Article.CHUNK_SIZE.
Proof.
  apply (X6_readArticle_reads_the_numbered_file Article.toyCodec Some 3
           newLocalArchive [Some (Init.shard "01"); None; Some (Init.shard "00")]
           (mkTitle "Paris" (Num 1) 0 3 5 (Some 0) None) 1 (Init.shard "01")).
  - reflexivity.
  - lia.
  - reflexivity.
  - repeat constructor; discriminate.
Defined.

(** X7: when the list holds a data file numbered [m] and no data file
    numbered [j] for some [j < m], the data array that
    [initializeFromArchiveFiles] builds has a hole: [isReady] answers true
    as soon as there is a title file, and [readArticle] raises a TypeError
    for every title, whatever its file number. *)
Theorem X7_readArticle_raises_on_a_gap :
  forall (webworkerBzip2 : list byte -> Article.Message)
         (decodeUtf8 : string -> option string) (fuel : nat)
         (a : LocalArchive) (archiveFiles : list (option File)) (title : Title)
         (file : File) (m j : Z),
    In (Some file) archiveFiles ->
    Init.dataFileNr (name file) = Some m ->
    0 <= j < m ->
    (forall g, In (Some g) archiveFiles -> Init.dataFileNr (name g) <> Some j) ->
    let a' := fst (Init.initializeFromArchiveFiles a archiveFiles) in
    (_titleFile a' <> None -> Init.isReady a' = true) /\
    Article.readArticle webworkerBzip2 decodeUtf8 fuel a' title
    = Article.TypeError.
Proof.
  intros wb dec fuel a archiveFiles title file m j Hin Hm Hj Hnone a'.
  pose proof (init_data_length a archiveFiles file m Hin Hm) as Hlen.
  fold a' in Hlen. split.
  - unfold Init.isReady. destruct (_titleFile a'); [|intros H; destruct (H eq_refl)].
    intros _. apply Nat.ltb_lt. lia.
  - unfold Article.readArticle. rewrite findDataFile_hole; [reflexivity|].
    destruct (lookup_lt_is_Some_2 (_dataFiles a') (Z.to_nat j)) as [s Hs]; [lia|].
    destruct s as [g|].
    + destruct (init_data_numbered a archiveFiles _ _ Hs) as [Hg Hing].
      rewrite Z2Nat.id in Hg by lia. destruct (Hnone g Hing Hg).
    + apply (list_elem_of_In). apply (list_elem_of_lookup_2 _ _ _ Hs).
Qed.

Lemma X7_readArticle_gap_witness :
  let a' := fst (Init.initializeFromArchiveFiles newLocalArchive
                   [Some (mkFile "titles.idx" []); Some (Init.shard "01")]) in
  (_titleFile a' <> None -> Init.isReady a' = true) /\
  Article.readArticle Article.toyCodec Some 3 a'
    (mkTitle "Paris" (Num 1) 0 3 5 (Some 0) None)
  = Article.TypeError.
Proof.
  apply (X7_readArticle_raises_on_a_gap Article.toyCodec Some 3 newLocalArchive
           [Some (mkFile "titles.idx" []); Some (Init.shard "01")]
           (mkTitle "Paris" (Num 1) 0 3 5 (Some 0) None) (Init.shard "01") 1 0).
  - right. left. reflexivity.
  - reflexivity.
  - lia.
  - intros g [[= <-]|[[= <-]|[]]]; vm_compute; discriminate.
Defined.

(** X8: on an archive filled by [initializeFromArchiveFiles] whose data
    array has no hole, a title whose file number is not written with two
    characters (255 for instance, or a number that is not one) has no data
    file: [readArticle] reports the missing file and
    raises. *)
Theorem X8_readArticle_other_number_is_missing :
  forall (webworkerBzip2 : list byte -> Article.Message)
         (decodeUtf8 : string -> option string) (fuel : nat)
         (a : LocalArchive) (archiveFiles : list (option File)) (title : Title),
    let a' := fst (Init.initializeFromArchiveFiles a archiveFiles) in
    Forall (fun s => s <> None) (_dataFiles a') ->
    String.length (Article.prefixedFileNumber (_fileNr title)) <> 2%nat ->
    Article.readArticle webworkerBzip2 decodeUtf8 fuel a' title
    = Article.MissingFile.
Proof.
  intros wb dec fuel a archiveFiles title a' Hfull Hlen.
  unfold Article.readArticle. rewrite findDataFile_no_match; [reflexivity|].
  apply Forall_lookup_2. intros i s Hs.
  destruct s as [g|];
    [|exfalso; exact (Forall_lookup_1 _ _ _ _ Hfull Hs eq_refl)].
  exists g. split; [reflexivity|].
  destruct (init_data_numbered a archiveFiles _ _ Hs) as [Hg _].
  exact (endsWith_other_length title _ _ Hlen Hg).
Qed.

Lemma X8_readArticle_missing_witness :
  Article.readArticle Article.toyCodec Some 3
    (fst (Init.initializeFromArchiveFiles newLocalArchive
            [Some (Init.shard "00"); Some (Init.shard "01")]))
    (mkTitle "Berlin" (Num 255) 200 0 0 (Some 17) None)
  = Article.MissingFile.
Proof.
  apply (X8_readArticle_other_number_is_missing Article.toyCodec Some 3
           newLocalArchive [Some (Init.shard "00"); Some (Init.shard "01")]
           (mkTitle "Berlin" (Num 255) 200 0 0 (Some 17) None)).
  - repeat constructor; discriminate.
  - vm_compute. lia.
Defined.

(** *** What [initializeFromArchiveFiles] leaves for later, and what it keeps *)

Section InitFrame.
Import JsString Init.

Lemma assignFiles_reads (archiveFiles : list (option File)) :
  forall (a : LocalArchive) (reads : list File),
    snd (assignFiles archiveFiles a reads)
    = reads ++ List.filter (fun f => String.eqb (name f) "metadata.txt")
                 (omap id archiveFiles).
Proof.
  induction archiveFiles as [|[file|] rest IH]; intros a reads;
    cbn [assignFiles omap list_omap id List.filter].
  - rewrite app_nil_r. reflexivity.
  - destruct (String.eqb (name file) "metadata.txt").
    + rewrite IH, <- app_assoc. reflexivity.
    + apply IH.
  - apply IH.
Qed.

Lemma assignFile_titleFile (file : File) (a : LocalArchive) :
  _titleFile (assignFile file a)
  = if String.eqb (name file) "titles.idx" then Some file else _titleFile a.
Proof.
  unfold assignFile.
  repeat match goal with
         | |- context [if ?b then _ else _] => destruct b
         | |- context [match ?o with Some _ => _ | None => _ end] => destruct o
         end; reflexivity.
Qed.

Lemma assignFiles_arrays (archiveFiles : list (option File)) :
  forall (a b : LocalArchive) (ra rb : list File),
    _dataFiles a = _dataFiles b -> _coordinateFiles a = _coordinateFiles b ->
    _dataFiles (fst (assignFiles archiveFiles a ra))
    = _dataFiles (fst (assignFiles archiveFiles b rb)) /\
    _coordinateFiles (fst (assignFiles archiveFiles a ra))
    = _coordinateFiles (fst (assignFiles archiveFiles b rb)).
Proof.
  induction archiveFiles as [|[file|] rest IH]; intros a b ra rb Hd Hc;
    cbn [assignFiles]; [split; assumption| |apply IH; assumption].
  destruct (String.eqb (name file) "metadata.txt"); [apply IH; assumption|].
  apply IH.
  - rewrite !assignFile_dataFiles, Hd. reflexivity.
  - rewrite !assignFile_coordinateFiles, Hc. reflexivity.
Qed.

End InitFrame.

(** X9: [initializeFromArchiveFiles] hands to [readMetadataFile], with the
    callback, exactly the files of the list named [metadata.txt], in their
    order, and writes none of the metadata fields itself.  The callback is
    called from the handler of such a read only: for a list without a
    [metadata.txt] it is never called. *)
Theorem X9_initializeFromArchiveFiles_metadata_reads :
  forall (a : LocalArchive) (archiveFiles : list (option File)),
    let result := Init.initializeFromArchiveFiles a archiveFiles in
    snd result
    = List.filter (fun f => String.eqb (name f) "metadata.txt")
        (omap id archiveFiles) /\
    _language (fst result) = _language a /\
    _date (fst result) = _date a /\
    _normalizedTitles (fst result) = _normalizedTitles a.
Proof.
  intros a archiveFiles result. split.
  - unfold result, Init.initializeFromArchiveFiles. apply assignFiles_reads.
  - unfold result, Init.initializeFromArchiveFiles.
    apply (assignFiles_keeps
             (fun b => _language b = _language a /\ _date b = _date a
                       /\ _normalizedTitles b = _normalizedTitles a)).
    + intros file b _ _ (H1 & H2 & H3).
      destruct (assignFile_metadata file b) as (-> & -> & ->). auto.
    + cbn. auto.
Qed.

(** X10: [initializeFromArchiveFiles] builds the data and coordinate arrays
    from the list alone, whatever the archive held before, but it keeps the
    title file of an earlier initialization when the list has no file named
    [titles.idx]. *)
Theorem X10_initializeFromArchiveFiles_keeps_old_title_file :
  forall (a b : LocalArchive) (archiveFiles : list (option File)),
    (forall f, In (Some f) archiveFiles -> name f <> "titles.idx") ->
    _titleFile (fst (Init.initializeFromArchiveFiles a archiveFiles))
    = _titleFile a /\
    _dataFiles (fst (Init.initializeFromArchiveFiles a archiveFiles))
    = _dataFiles (fst (Init.initializeFromArchiveFiles b archiveFiles)) /\
    _coordinateFiles (fst (Init.initializeFromArchiveFiles a archiveFiles))
    = _coordinateFiles (fst (Init.initializeFromArchiveFiles b archiveFiles)).
Proof.
  intros a b archiveFiles Hnone. split.
  - unfold Init.initializeFromArchiveFiles.
    apply (assignFiles_keeps (fun c => _titleFile c = _titleFile a)).
    + intros file c Hin _ Hc. rewrite assignFile_titleFile.
      destruct (String.eqb (name file) "titles.idx") eqn:Hname; [|exact Hc].
      apply String.eqb_eq in Hname. destruct (Hnone file Hin Hname).
    + reflexivity.
  - unfold Init.initializeFromArchiveFiles. apply assignFiles_arrays; reflexivity.
Qed.

Lemma X10_keeps_old_title_file_witness :
  _titleFile (fst (Init.initializeFromArchiveFiles TitleIndex.toyArchive
                     [Some (Init.shard "00")]))
  = Some TitleIndex.toyIndex /\
  _dataFiles (fst (Init.initializeFromArchiveFiles TitleIndex.toyArchive
                     [Some (Init.shard "00")]))
  = _dataFiles (fst (Init.initializeFromArchiveFiles newLocalArchive
                       [Some (Init.shard "00")])) /\
  _coordinateFiles (fst (Init.initializeFromArchiveFiles TitleIndex.toyArchive
                           [Some (Init.shard "00")]))
  = _coordinateFiles (fst (Init.initializeFromArchiveFiles newLocalArchive
                             [Some (Init.shard "00")])).
Proof.
  apply (X10_initializeFromArchiveFiles_keeps_old_title_file
           TitleIndex.toyArchive newLocalArchive [Some (Init.shard "00")]).
  intros f [[= <-]|[]]. vm_compute. discriminate.
Defined.

(** *** Data files read from a storage *)

Section StorageFacts.
Import JsString Init.

Variable get : string -> File + string.

Lemma arraySet_push (done : list File) (file : File) :
  arraySet (map Some done) (Z.of_nat (length done)) file
  = map Some (done ++ [file]).
Proof.
  unfold arraySet.
  rewrite (proj2 (Z.ltb_ge (Z.of_nat (length done)) 0)) by lia.
  rewrite Nat2Z.id, length_map.
  rewrite (proj2 (Nat.ltb_ge (length done) (length done))) by lia.
  rewrite Nat.sub_diag, map_app. reflexivity.
Qed.

Lemma readDataFilesFromStorage_run (directory error : string) (files : list File) :
  forall (done : list File) (a : LocalArchive) (fuel : nat),
    _dataFiles a = map Some done ->
    (forall (j : nat) (file : File),
       files !! j = Some file ->
       get (dataFilePath directory (Z.of_nat (length done) + Z.of_nat j))
       = inl file) ->
    get (dataFilePath directory
           (Z.of_nat (length done) + Z.of_nat (length files))) = inr error ->
    (length files < fuel)%nat ->
    readDataFilesFromStorage get fuel directory (Z.of_nat (length done)) a
    = Done (setDataFiles (map Some (done ++ files)) a)
        (if String.eqb error "NotFoundError" then []
         else [dataFileAlert directory
                 (Z.of_nat (length done) + Z.of_nat (length files)) error]).
Proof.
  induction files as [|file files IH]; intros done a fuel Ha Hget Hend Hfuel.
  - destruct fuel as [|fuel]; [cbn in Hfuel; lia|].
    cbn [readDataFilesFromStorage length] in *.
    rewrite Z.add_0_r in Hend |- *. rewrite Hend, app_nil_r, <- Ha.
    destruct a. destruct (String.eqb error "NotFoundError"); reflexivity.
  - destruct fuel as [|fuel]; [cbn in Hfuel; lia|].
    cbn [readDataFilesFromStorage].
    pose proof (Hget 0%nat file eq_refl) as H0. rewrite Z.add_0_r in H0.
    rewrite H0, Ha, arraySet_push.
    specialize (IH (done ++ [file])
                  (setDataFiles (map Some (done ++ [file])) a) fuel).
    rewrite length_app in IH. cbn [length] in IH.
    replace (Z.of_nat (length done) + 1)
      with (Z.of_nat (length done + 1)) by lia.
    rewrite IH.
    + rewrite <- app_assoc. cbn [app length].
      replace (Z.of_nat (length done + 1) + Z.of_nat (length files))
        with (Z.of_nat (length done) + Z.of_nat (S (length files))) by lia.
      reflexivity.
    + reflexivity.
    + intros j f Hj.
      replace (Z.of_nat (length done + 1) + Z.of_nat j)
        with (Z.of_nat (length done) + Z.of_nat (S j)) by lia.
      apply Hget. exact Hj.
    + replace (Z.of_nat (length done + 1) + Z.of_nat (length files))
        with (Z.of_nat (length done) + Z.of_nat (length (file :: files)))
        by (cbn [length]; lia).
      exact Hend.
    + cbn [length] in Hfuel. lia.
Qed.

(** Whatever the storage answers, the chain leaves no hole behind. *)
Lemma readDataFilesFromStorage_full (directory : string) :
  forall (fuel : nat) (a : LocalArchive),
    Forall (fun s => s <> None) (_dataFiles a) ->
    forall index, index = Z.of_nat (length (_dataFiles a)) ->
    forall a', (exists alerts,
                  readDataFilesFromStorage get fuel directory index a
                  = Done a' alerts)
               \/ readDataFilesFromStorage get fuel directory index a
                  = StillListing a' ->
    Forall (fun s => s <> None) (_dataFiles a').
Proof.
  induction fuel as [|fuel IH]; intros a Hfull index Hindex a' Hres;
    cbn [readDataFilesFromStorage] in Hres.
  - destruct Hres as [[alerts H]|H]; [discriminate|].
    injection H as <-. exact Hfull.
  - destruct (get (dataFilePath directory index)) as [file|error].
    + refine (IH (setDataFiles (arraySet (_dataFiles a) index file) a) _
                (index + 1) _ a' Hres).
      * cbn [_dataFiles setDataFiles]. unfold arraySet.
        rewrite (proj2 (Z.ltb_ge index 0)) by lia.
        rewrite Hindex, Nat2Z.id.
        rewrite (proj2 (Nat.ltb_ge _ _)) by lia.
        rewrite Nat.sub_diag. cbn [replicate app].
        apply Forall_app. split; [exact Hfull|].
        constructor; [discriminate|constructor].
      * cbn [_dataFiles setDataFiles]. rewrite arraySet_length.
        rewrite (proj2 (Z.ltb_ge index 0)) by lia. lia.
    + destruct Hres as [[alerts H]|H].
      * destruct (negb (String.eqb error "NotFoundError"));
          injection H as <- _; exact Hfull.
      * destruct (negb (String.eqb error "NotFoundError")); discriminate.
Qed.

End StorageFacts.

(** X11: when the storage holds the data files 0 to [k - 1] of a directory
    and refuses file [k], [readDataFilesFromStorage] started at 0 on an
    archive without data files ends after [k + 1] requests with these [k]
    files in slots 0 to [k - 1], in their order and without a hole.  It says
    nothing when the refusal is "NotFoundError" and raises one alert
    otherwise. *)
Theorem X11_readDataFilesFromStorage_fills_consecutive_slots :
  forall (get : string -> File + string) (directory error : string)
         (files : list File) (a : LocalArchive) (fuel : nat),
    _dataFiles a = [] ->
    (forall (j : nat) (file : File),
       files !! j = Some file ->
       get (Init.dataFilePath directory (Z.of_nat j)) = inl file) ->
    get (Init.dataFilePath directory (Z.of_nat (length files))) = inr error ->
    (length files < fuel)%nat ->
    Init.readDataFilesFromStorage get fuel directory 0 a
    = Init.Done (Init.setDataFiles (map Some files) a)
        (if String.eqb error "NotFoundError" then []
         else [Init.dataFileAlert directory (Z.of_nat (length files)) error]).
Proof.
  intros get directory error files a fuel Ha Hget Hend Hfuel.
  exact (readDataFilesFromStorage_run get directory error files [] a fuel Ha
           Hget Hend Hfuel).
Qed.

Lemma X11_readDataFilesFromStorage_witness :
  Init.readDataFilesFromStorage
    (Init.toyStorage "archive/" [Init.shard "00"; Init.shard "01"]) 3
    "archive/" 0 newLocalArchive
  = Init.Done
      (Init.setDataFiles (map Some [Init.shard "00"; Init.shard "01"])
         newLocalArchive)
      (if String.eqb "NotFoundError" "NotFoundError" then []
       else [Init.dataFileAlert "archive/"
               (Z.of_nat (length [Init.shard "00"; Init.shard "01"]))
               "NotFoundError"]).
Proof.
  apply X11_readDataFilesFromStorage_fills_consecutive_slots.
  - reflexivity.
  - intros [|[|j]] file H; try discriminate; injection H as <-; reflexivity.
  - reflexivity.
  - cbn [length]. lia.
Defined.

(** X12: an archive whose data files came from
    [readDataFilesFromStorage], started at 0 without data files, has no
    hole in its data array: on it
    [readArticle] never raises a TypeError. *)
Theorem X12_readArticle_after_storage_never_TypeError :
  forall (get : string -> File + string) (directory : string) (fuel : nat)
         (a a' : LocalArchive) (alerts : list string),
    _dataFiles a = [] ->
    Init.readDataFilesFromStorage get fuel directory 0 a = Init.Done a' alerts ->
    forall (webworkerBzip2 : list byte -> Article.Message)
           (decodeUtf8 : string -> option string) (rounds : nat) (title : Title),
      Article.readArticle webworkerBzip2 decodeUtf8 rounds a' title
      <> Article.TypeError.
Proof.
  intros get directory fuel a a' alerts Ha Hdone wb dec rounds title.
  assert (Hfull : Forall (fun s => s <> None) (_dataFiles a')).
  { apply (readDataFilesFromStorage_full get directory fuel a) with (index := 0).
    - rewrite Ha. constructor.
    - rewrite Ha. reflexivity.
    - left. exists alerts. exact Hdone. }
  unfold Article.readArticle.
  pose proof (findDataFile_never_hole (Article.expectedFileName title) _ Hfull None)
    as Hnever.
  destruct (Article.findDataFile _ _ None); [|discriminate|].
  - destruct rounds; cbn; [discriminate|].
    destruct (Article.onmessage _ _ _ _); try discriminate.
    clear. revert readLength.
    induction rounds as [|rounds IH]; intros readLength; cbn; [discriminate|].
    destruct (Article.onmessage _ _ _ _); try discriminate. apply IH.
  - destruct (Hnever eq_refl).
Qed.

Lemma X12_readArticle_after_storage_witness :
  _dataFiles newLocalArchive = [] /\
  Article.readArticle Article.toyCodec Some 3
    (Init.setDataFiles (map Some [Init.shard "00"; Init.shard "01"])
       newLocalArchive)
    (mkTitle "Paris" (Num 7) 0 3 5 (Some 0) None)
  <> Article.TypeError.
Proof.
  split; [reflexivity|].
  apply (X12_readArticle_after_storage_never_TypeError
           (Init.toyStorage "archive/" [Init.shard "00"; Init.shard "01"])
           "archive/" 3 newLocalArchive
           (Init.setDataFiles (map Some [Init.shard "00"; Init.shard "01"])
              newLocalArchive)
           []).
  - reflexivity.
  - reflexivity.
Defined.

(** *** Titles by prefix *)

Section PrefixFacts.
Import JsString Prefix.

Lemma prefix_length (p s : string) :
  String.prefix p s = true -> (String.length p <= String.length s)%nat.
Proof.
  revert s. induction p as [|c p IH]; intros s H; cbn [String.length]; [lia|].
  destruct s as [|d s]; cbn in H; [discriminate|].
  destruct (Ascii.ascii_dec c d); [|discriminate].
  cbn [String.length]. specialize (IH s H). lia.
Qed.

Lemma prefix_refl (p : string) : String.prefix p p = true.
Proof.
  induction p as [|c p IH]; cbn; [reflexivity|].
  destruct (Ascii.ascii_dec c c) as [_|H]; [exact IH|destruct (H eq_refl)].
Qed.

(** The test of [addNext] is the negation of "starts with". *)
Lemma lacksPrefix_prefix (p s : string) :
  lacksPrefix p s = negb (String.prefix p s).
Proof.
  unfold lacksPrefix.
  destruct (String.length s <? String.length p)%nat eqn:Hlen.
  - apply Nat.ltb_lt in Hlen. cbn [orb].
    destruct (String.prefix p s) eqn:Hp; [|reflexivity].
    apply prefix_length in Hp. lia.
  - apply Nat.ltb_ge in Hlen. cbn [orb]. f_equal.
    unfold substring.
    replace (Z.max 0 (Z.min 0 (Z.of_nat (String.length s)))) with 0 by lia.
    replace (Z.max 0 (Z.min (Z.of_nat (String.length p))
                        (Z.of_nat (String.length s))))
      with (Z.of_nat (String.length p)) by lia.
    replace (Z.min 0 (Z.of_nat (String.length p))) with 0 by lia.
    replace (Z.max 0 (Z.of_nat (String.length p)))
      with (Z.of_nat (String.length p)) by lia.
    rewrite Z.sub_0_r, Nat2Z.id. cbn [Z.to_nat].
    destruct (String.prefix p s) eqn:Hp.
    + apply String.prefix_correct in Hp. apply String.eqb_eq. exact Hp.
    + apply String.eqb_neq. intros Heq.
      apply String.prefix_correct in Heq. congruence.
Qed.

Variable advance : File -> Z -> option (Title * Z).

Lemma recordsFrom_length (n : nat) :
  forall (titleFile : File) (offset : Z),
    (length (TitleIndex.recordsFrom advance n titleFile offset) <= n)%nat.
Proof.
  induction n as [|n IH]; intros titleFile offset;
    cbn [TitleIndex.recordsFrom length]; [lia|].
  destruct (advance titleFile offset) as [[t o]|]; cbn [length]; [|lia].
  specialize (IH titleFile o). lia.
Qed.

(** What [addNext] delivers: the titles it was given, then the records
    from the offset on, while they carry the prefix and the bound is not
    reached. *)
Lemma addNext_delivers (titleFile : File) (normalize : string -> string)
    (prefix : string) (maxSize : Z) :
  forall (fuel : nat) (titles : list Title) (offset : Z),
    (Z.to_nat (maxSize - Z.of_nat (length titles)) < fuel)%nat ->
    exists more,
      addNext advance fuel titleFile normalize prefix maxSize titles offset
      = Delivered (titles ++ more) maxSize /\
      Z.of_nat (length more) <= Z.max 0 (maxSize - Z.of_nat (length titles)) /\
      Forall (fun t => String.prefix prefix (normalize (_name t)) = true) more /\
      more = TitleIndex.recordsFrom advance (length more) titleFile offset /\
      (Z.of_nat (length (titles ++ more)) < maxSize ->
       match advance titleFile (offsetAfter advance (length more) titleFile offset) with
       | None => True
       | Some (t, _) => String.prefix prefix (normalize (_name t)) = false
       end).
Proof.
  induction fuel as [|fuel IH]; intros titles offset Hfuel; [lia|].
  cbn [addNext].
  destruct (maxSize <=? Z.of_nat (length titles)) eqn:Hmax.
  { apply Z.leb_le in Hmax. exists []. rewrite app_nil_r.
    split; [reflexivity|]. split; [cbn [length]; lia|].
    split; [constructor|]. split; [reflexivity|]. intros Hlt. lia. }
  apply Z.leb_gt in Hmax.
  destruct (advance titleFile offset) as [[title offset']|] eqn:Hadv.
  2:{ exists []. rewrite app_nil_r.
      split; [reflexivity|]. split; [cbn [length]; lia|].
      split; [constructor|]. split; [reflexivity|].
      intros _. cbn [length offsetAfter]. rewrite Hadv. exact I. }
  rewrite lacksPrefix_prefix.
  destruct (String.prefix prefix (normalize (_name title))) eqn:Hp; cbn [negb].
  2:{ exists []. rewrite app_nil_r.
      split; [reflexivity|]. split; [cbn [length]; lia|].
      split; [constructor|]. split; [reflexivity|].
      intros _. cbn [length offsetAfter]. rewrite Hadv. exact Hp. }
  destruct (IH (titles ++ [title]) offset') as (more & Hres & Hlen & Hall & Hrec & Hnext).
  { rewrite length_app. cbn [length]. lia. }
  rewrite length_app in Hlen, Hnext. cbn [length] in Hlen, Hnext.
  exists (title :: more). rewrite Hres, <- app_assoc. cbn [app].
  split; [reflexivity|]. split; [cbn [length]; lia|].
  split; [constructor; assumption|].
  split.
  - cbn [length TitleIndex.recordsFrom]. rewrite Hadv, <- Hrec. reflexivity.
  - intros Hlt. cbn [length offsetAfter]. rewrite Hadv. apply Hnext.
    rewrite !length_app in *. cbn [length] in *. lia.
Qed.

End PrefixFacts.

(** X13: when there is a title file, [findTitlesWithPrefix] calls back
    within [maxSize + 1] rounds, with at most [maxSize] titles; every one of
    them has a normalized name that starts with the normalized prefix; they
    are the records of the title file from the offset that
    [findPrefixOffset] gave, in their order; and when fewer than [maxSize]
    are delivered, the next record is missing or lacks the prefix. *)
Theorem X13_findTitlesWithPrefix_delivers_prefixed_titles :
  forall (normalizeString : string -> string)
         (findPrefixOffset : File -> string -> (string -> string) -> Z)
         (advance : File -> Z -> option (Title * Z))
         (a : LocalArchive) (titleFile : File) (prefix : string) (maxSize : Z)
         (fuel : nat),
    _titleFile a = Some titleFile ->
    (Z.to_nat maxSize < fuel)%nat ->
    let normalize := TitleIndex.getNormalizeFunction normalizeString a in
    let offset := findPrefixOffset titleFile (normalize prefix) normalize in
    exists titles,
      Prefix.findTitlesWithPrefix normalizeString findPrefixOffset advance fuel a
        prefix maxSize
      = Prefix.Delivered titles maxSize /\
      Z.of_nat (length titles) <= Z.max 0 maxSize /\
      Forall (fun t => String.prefix (normalize prefix) (normalize (_name t)) = true)
        titles /\
      titles = TitleIndex.recordsFrom advance (length titles) titleFile offset /\
      (Z.of_nat (length titles) < maxSize ->
       match advance titleFile
               (Prefix.offsetAfter advance (length titles) titleFile offset) with
       | None => True
       | Some (t, _) =>
           String.prefix (normalize prefix) (normalize (_name t)) = false
       end).
Proof.
  intros normalizeString findPrefixOffset advance a titleFile prefix maxSize fuel
         Hfile Hfuel normalize offset.
  unfold Prefix.findTitlesWithPrefix. rewrite Hfile.
  destruct (addNext_delivers advance titleFile normalize (normalize prefix)
              maxSize fuel [] offset) as (more & Hres & Hlen & Hall & Hrec & Hnext).
  { cbn [length]. rewrite Z.sub_0_r. exact Hfuel. }
  exists more. cbn [app length] in *. rewrite Z.sub_0_r in Hlen.
  split; [exact Hres|]. split; [exact Hlen|]. split; [exact Hall|].
  split; [exact Hrec | exact Hnext].
Qed.

Lemma X13_findTitlesWithPrefix_witness :
  let normalize :=
    TitleIndex.getNormalizeFunction TitleIndex.toyNormalize TitleIndex.toyArchive in
  let offset :=
    TitleIndex.toyFindPrefixOffset TitleIndex.toyIndex (normalize "BAN") normalize in
  exists titles,
    Prefix.findTitlesWithPrefix TitleIndex.toyNormalize
      TitleIndex.toyFindPrefixOffset TitleIndex.toyAdvance 6
      TitleIndex.toyArchive "BAN" 5
    = Prefix.Delivered titles 5 /\
    Z.of_nat (length titles) <= Z.max 0 5 /\
    Forall (fun t => String.prefix (normalize "BAN") (normalize (_name t)) = true)
      titles /\
    titles
    = TitleIndex.recordsFrom TitleIndex.toyAdvance (length titles)
        TitleIndex.toyIndex offset /\
    (Z.of_nat (length titles) < 5 ->
     match TitleIndex.toyAdvance TitleIndex.toyIndex
             (Prefix.offsetAfter TitleIndex.toyAdvance (length titles)
                TitleIndex.toyIndex offset) with
     | None => True
     | Some (t, _) =>
         String.prefix (normalize "BAN") (normalize (_name t)) = false
     end).
Proof.
  apply (X13_findTitlesWithPrefix_delivers_prefixed_titles
           TitleIndex.toyNormalize TitleIndex.toyFindPrefixOffset
           TitleIndex.toyAdvance TitleIndex.toyArchive TitleIndex.toyIndex
           "BAN" 5 6).
  - reflexivity.
  - vm_compute. lia.
Defined.

Section LookupAndPrefix.
Import JsString Prefix.

Variable advance : File -> Z -> option (Title * Z).

(** The titles that [check] walks over are titles that [addNext] pushes. *)
Lemma check_found_in_addNext (titleFile : File) (normalize : string -> string)
    (titleName : string) (maxSize : Z) (title : Title) :
  forall (fuel : nat) (acc : list Title) (offset : Z) (rounds : nat),
    TitleIndex.check advance fuel titleFile normalize titleName
      (normalize titleName) offset
    = TitleIndex.Resolved (Some title) ->
    Z.of_nat (length acc) + Z.of_nat fuel <= maxSize ->
    (Z.to_nat (maxSize - Z.of_nat (length acc)) < rounds)%nat ->
    exists titles,
      addNext advance rounds titleFile normalize (normalize titleName) maxSize
        acc offset
      = Delivered titles maxSize /\ In title titles.
Proof.
  induction fuel as [|fuel IH]; intros acc offset rounds Hcheck Hsize Hrounds;
    cbn [TitleIndex.check] in Hcheck; [discriminate|].
  destruct rounds as [|rounds]; [lia|]. cbn [addNext].
  rewrite (proj2 (Z.leb_gt maxSize (Z.of_nat (length acc)))) by lia.
  destruct (advance titleFile offset) as [[t offset']|]; [|discriminate].
  destruct (String.eqb (normalize (_name t)) (normalize titleName)) eqn:Hnorm;
    cbn [negb] in Hcheck; [|discriminate].
  apply String.eqb_eq in Hnorm.
  rewrite lacksPrefix_prefix, Hnorm, prefix_refl. cbn [negb].
  destruct (String.eqb (_name t) titleName) eqn:Hname.
  - injection Hcheck as <-.
    destruct (addNext_delivers advance titleFile normalize (normalize titleName)
                maxSize rounds (acc ++ [t]) offset')
      as (more & Hres & _).
    { rewrite length_app. cbn [length]. lia. }
    exists ((acc ++ [t]) ++ more). split; [exact Hres|].
    apply in_or_app. left. apply in_or_app. right. left. reflexivity.
  - apply IH; [exact Hcheck| |]; rewrite length_app; cbn [length]; lia.
Qed.

End LookupAndPrefix.

(** X14: when [findPrefixOffset] gives the same offset for a prefix and for
    its normalized form, a title that [getTitleByName] resolves to within
    [fuel] rounds is among the titles that [findTitlesWithPrefix] delivers
    for the same name and a bound of at least [fuel]. *)
Theorem X14_getTitleByName_among_findTitlesWithPrefix :
  forall (normalizeString : string -> string)
         (findPrefixOffset : File -> string -> (string -> string) -> Z)
         (advance : File -> Z -> option (Title * Z))
         (a : LocalArchive) (titleName : string) (fuel : nat) (title : Title)
         (maxSize : Z),
    let normalize := TitleIndex.getNormalizeFunction normalizeString a in
    (forall titleFile prefix,
       findPrefixOffset titleFile (normalize prefix) normalize
       = findPrefixOffset titleFile prefix normalize) ->
    TitleIndex.getTitleByName normalizeString findPrefixOffset advance fuel a
      titleName
    = TitleIndex.Resolved (Some title) ->
    Z.of_nat fuel <= maxSize ->
    exists titles,
      Prefix.findTitlesWithPrefix normalizeString findPrefixOffset advance
        (S (Z.to_nat maxSize)) a titleName maxSize
      = Prefix.Delivered titles maxSize /\
      In title titles.
Proof.
  intros normalizeString findPrefixOffset advance a titleName fuel title maxSize
         normalize Hoff Hget Hsize.
  unfold TitleIndex.getTitleByName in Hget. unfold Prefix.findTitlesWithPrefix.
  destruct (_titleFile a) as [titleFile|]; [|discriminate].
  fold normalize in Hget |- *. rewrite Hoff.
  apply (check_found_in_addNext advance titleFile normalize titleName maxSize
           title fuel [] _ _ Hget); cbn [length]; lia.
Qed.

Lemma X14_getTitleByName_among_witness :
  exists titles,
    Prefix.findTitlesWithPrefix TitleIndex.toyNormalize
      TitleIndex.toyFindPrefixOffset TitleIndex.toyAdvance (S (Z.to_nat 29))
      TitleIndex.toyArchive "banana" 29
    = Prefix.Delivered titles 29 /\
    In (mkTitle "banana" (Num 0) 0 0 0 (Some 13) None) titles.
Proof.
  apply (X14_getTitleByName_among_findTitlesWithPrefix TitleIndex.toyNormalize
           TitleIndex.toyFindPrefixOffset TitleIndex.toyAdvance
           TitleIndex.toyArchive "banana" 29).
  - intros titleFile prefix. unfold TitleIndex.toyFindPrefixOffset.
    change (TitleIndex.getNormalizeFunction TitleIndex.toyNormalize
              TitleIndex.toyArchive) with TitleIndex.toyNormalize.
    rewrite toyNormalize_idempotent. reflexivity.
  - vm_compute. reflexivity.
  - lia.
Defined.

(** *** Reading past the end of a data file *)

Section PastTheEnd.
Import Util Article.

(** A read that reaches the end of the file gets the same bytes as any
    longer one. *)
Lemma slice_past_end (f : list byte) (s e e' : Z) :
  0 <= s -> Z.of_nat (length f) <= e -> Z.of_nat (length f) <= e' ->
  slice f s e = slice f s e'.
Proof.
  intros Hs He He'. unfold slice.
  rewrite (proj2 (Z.ltb_ge s 0) Hs).
  rewrite (proj2 (Z.ltb_ge e 0)) by lia.
  rewrite (proj2 (Z.ltb_ge e' 0)) by lia.
  rewrite (Z.min_r e) by lia. rewrite (Z.min_r e') by lia. reflexivity.
Qed.

Variable webworkerBzip2 : list byte -> Message.
Variable decodeUtf8 : string -> option string.

Lemma readArticleChunk_past_end (title : Title) (dataFile : File) :
  0 <= _blockStart title ->
  forall (fuel : nat) (readLength : Z),
    0 <= readLength ->
    size dataFile <= _blockStart title + readLength ->
    asksForMore title
      (webworkerBzip2 (compressedArticles title dataFile readLength)) = true ->
    readArticleChunk webworkerBzip2 decodeUtf8 fuel title dataFile readLength
    = StillReading.
Proof.
  intros Hstart. induction fuel as [|fuel IH]; intros readLength Hlen Hend Hmore;
    cbn [readArticleChunk]; [reflexivity|].
  rewrite (onmessage_asksForMore decodeUtf8 title readLength _ Hmore).
  assert (Hchunk : 0 < CHUNK_SIZE) by reflexivity.
  apply IH; [lia|lia|].
  unfold compressedArticles in *. unfold size in Hend.
  rewrite (slice_past_end (content dataFile) (_blockStart title)
             (_blockStart title + (readLength + CHUNK_SIZE))
             (_blockStart title + readLength)) by lia.
  exact Hmore.
Qed.

End PastTheEnd.

(** X15: nothing ends the rounds of [readArticleChunk] at the end of the
    data file.  Once a read reaches the end of the file, if the codec's
    answer to these bytes makes the handler ask for more (a "recurse", or a
    result too short for the article), every later read gets the same bytes
    and the same answer: the callback is never called, however many rounds
    are run. *)
Theorem X15_readArticleChunk_never_ends_past_the_end :
  forall (webworkerBzip2 : list byte -> Article.Message)
         (decodeUtf8 : string -> option string) (title : Title)
         (dataFile : File) (readLength : Z) (fuel : nat),
    0 <= _blockStart title ->
    0 <= readLength ->
    size dataFile <= _blockStart title + readLength ->
    Article.asksForMore title
      (webworkerBzip2 (Article.compressedArticles title dataFile readLength))
    = true ->
    Article.readArticleChunk webworkerBzip2 decodeUtf8 fuel title dataFile
      readLength
    = Article.StillReading.
Proof.
  intros wb dec title dataFile readLength fuel Hstart Hlen Hend Hmore.
  exact (readArticleChunk_past_end wb dec title dataFile Hstart fuel readLength
           Hlen Hend Hmore).
Qed.

Lemma X15_readArticleChunk_past_the_end_witness :
  Article.readArticleChunk Article.toyCodec Some 40
    (mkTitle "Paris" (Num 0) 0 3 5 (Some 0) None) (Init.shard "00")
    Article.CHUNK_SIZE
  = Article.StillReading.
Proof.
  apply X15_readArticleChunk_never_ends_past_the_end.
  - cbn. lia.
  - vm_compute. discriminate.
  - vm_compute. discriminate.
  - reflexivity.
Defined.

(** *** A search never delivers more titles than its bound *)

Section BoundFacts.
Import Geometry Util Nearby NearbyInv NearbyBound.

Variable float32 : Z -> Q.
Variable advance : File -> Z -> option (Title * Z).

Lemma leafLoop_within_bound (byteArray : Uint8Array) (targetRect : rect)
    (maxTitles : Z) :
  forall (n : nat) (i : Z) (found : list Title),
    Z.of_nat (length found) <= maxTitles ->
    Z.of_nat (length (fst (leafLoop float32 n i byteArray targetRect maxTitles
                             found))) <= maxTitles.
Proof.
  induction n as [|n IH]; intros i found Hfound; cbn [leafLoop]; [exact Hfound|].
  destruct (readCoordinates float32 byteArray (2 + i * 12)) as [p|];
    [|exact Hfound].
  destruct (readIntegerFrom4Bytes byteArray (2 + i * 12 + 8)) as [pos|];
    [|exact Hfound].
  destruct (negb (containsPoint targetRect p)); [apply IH; exact Hfound|].
  destruct ((0 <=? maxTitles) && (Z.of_nat (length found) <? maxTitles)) eqn:Hpush;
    [|apply IH; exact Hfound].
  apply andb_true_iff in Hpush. destruct Hpush as [_ Hlt].
  apply Z.ltb_lt in Hlt. apply IH. rewrite length_app. cbn [length]. lia.
Qed.

Lemma SameBounds_refl (ss : list Search) : SameBounds ss ss.
Proof. intros search s Hs. exists s. split; [exact Hs|reflexivity]. Qed.

Lemma SameBounds_app (ss : list Search) (s0 : Search) : SameBounds ss (ss ++ [s0]).
Proof.
  intros search s Hs. exists s. split; [|reflexivity].
  apply lookup_app_l_Some. exact Hs.
Qed.

Lemma SameBounds_insert (ss : list Search) (i : nat) (s : Search)
    (found : list Title) :
  ss !! i = Some s -> SameBounds ss (<[i := setFound found s]> ss).
Proof.
  intros Hi search s1 Hs1. destruct (Nat.eq_dec search i) as [->|Hne].
  - rewrite Hi in Hs1. injection Hs1 as <-.
    exists (setFound found s). split; [|reflexivity].
    apply list_lookup_insert_eq. apply (lookup_lt_Some _ _ _ Hi).
  - exists s1. split; [|reflexivity].
    rewrite list_lookup_insert_ne by congruence. exact Hs1.
Qed.

Lemma BoundedRead_mono (ss ss' : list Search) (r : TitleRead) :
  SameBounds ss ss' -> BoundedRead ss r -> BoundedRead ss' r.
Proof.
  intros Hext (s & Hs & Hlen & Hi). destruct (Hext _ _ Hs) as (s' & Hs' & Hmax).
  exists s'. rewrite Hmax. auto.
Qed.

Lemma BoundedEffect_mono (ss ss' : list Search) (e : Effect) :
  SameBounds ss ss' -> BoundedEffect ss e -> BoundedEffect ss' e.
Proof.
  intros Hext. destruct e as [m|search|search titles|]; cbn; try exact id.
  intros (s & Hs & Hlen). destruct (Hext _ _ Hs) as (s' & Hs' & Hmax).
  exists s'. rewrite Hmax. auto.
Qed.

(** A title read that has just been issued is within the bound: it is for
    an entry of the array of its search. *)
Lemma NewTitleRead_bounded (st' : State) (search : nat) (titlesFound : list Title)
    (tr : TitleRead) :
  Forall BoundedSearch (searches st') ->
  NewTitleRead st' search titlesFound tr ->
  (length titlesFound <= tr_i tr)%nat ->
  BoundedRead (searches st') tr.
Proof.
  intros Hss (s & position & Hs & Hp & Htr) Hlen.
  exists s. rewrite Htr. cbn [tr_search tr_titlesFound tr_i].
  split; [exact Hs|]. split; [exact Hlen|]. intros Hmax.
  pose proof (Forall_lookup_1 _ _ _ _ Hss Hs Hmax) as Hbound.
  pose proof (lookup_lt_Some _ _ _ Hp). lia.
Qed.

(** The title read that the handler of the read [r] issues is for the
    next entry. *)
Lemma onTitleList_next (r : TitleRead) (st : State) :
  let st' := onTitleList advance r st in
  titleReads st' = titleReads st \/
  exists tr title,
    titleReads st' = titleReads st ++ [tr] /\
    NewTitleRead st' (tr_search r) (titlesWith r title) tr /\
    tr_i tr = S (tr_i r).
Proof.
  cbv zeta.
  destruct (onTitleList_cases advance r st)
    as [H|[(m & H)|[(s & title & Hs & H)|(title & H)]]];
    cbv zeta in H; rewrite H; try (left; reflexivity).
  match goal with |- context [readTitlesFromTitleCoordsInTitleFile ?a ?b ?c ?d] =>
    destruct (readTitles_shape a b c d) as (_ & _ & _ & H4)
  end.
  cbv zeta in H4. destruct H4 as [[Ht _]|(tr & Ht & Hi & Hn & _)].
  - left. exact Ht.
  - right. exists tr, title. split; [exact Ht|]. split; [exact Hn|exact Hi].
Qed.

Lemma sortTitles_length (c : point) (titles : list Title) :
  length (sortTitles c titles) = length titles.
Proof.
  unfold sortTitles. apply Permutation_length. apply merge_sort_Permutation.
Qed.

Lemma step_Bounded (st : State) (e : Event) :
  Bounded st -> Bounded (step float32 advance st e).
Proof.
  intros (Hs & Ht & Hl). destruct e as [a rect_ maxTitles|i|i]; cbn [step].
  - destruct (getTitlesInCoords_shape a rect_ maxTitles st)
      as [[_ H]|(_ & H1 & H2 & H3 & _)].
    + cbv zeta in H. rewrite H. unfold Bounded. cbn.
      split; [exact Hs|]. split; [exact Ht|]. constructor; [exact I|exact Hl].
    + cbv zeta in H1, H2, H3. unfold Bounded. rewrite H1, H2.
      pose proof (SameBounds_app (searches st)
                    (mkSearch a rect_ maxTitles (normalized rect_) [])) as Hext.
      split.
      { apply Forall_app. split; [exact Hs|].
        constructor; [|constructor]. intros Hmax. cbn. exact Hmax. }
      split.
      { eapply Forall_impl; [exact Ht|]. intros r. apply BoundedRead_mono.
        exact Hext. }
      assert (Hl' : Forall (BoundedEffect (searches st
                      ++ [mkSearch a rect_ maxTitles (normalized rect_) []]))
                      (log st)).
      { eapply Forall_impl; [exact Hl|]. intros x. apply BoundedEffect_mono.
        exact Hext. }
      destruct H3 as [->| ->]; [exact Hl'|].
      constructor; [exact I|exact Hl'].
  - destruct (coordReads st !! i) as [r|] eqn:Hr;
      [|unfold Bounded; auto].
    match goal with |- context [onload _ r ?X] =>
      set (st' := onload float32 r X);
      destruct (onload_shape float32 r X)
        as (H1 & _ & H3 & (newL & H4 & HnewL & _))
    end.
    cbv zeta in H1, H3, H4, HnewL. fold st' in H1, H3, H4, HnewL.
    cbn [searches coordReads titleReads log] in H1, H3, H4.
    assert (Hgood : Forall BoundedSearch (searches st')
                    /\ SameBounds (searches st) (searches st')).
    { destruct H1 as [->|(s & n & Hlook & ->)];
        [split; [exact Hs|apply SameBounds_refl]|].
      split; [|apply SameBounds_insert; exact Hlook].
      apply Forall_insert; [exact Hs|].
      pose proof (Forall_lookup_1 _ _ _ _ Hs Hlook) as Hbound.
      intros Hmax. cbn [setFound s_maxTitles s_found] in *.
      apply leafLoop_within_bound. exact (Hbound Hmax). }
    destruct Hgood as [Hgood Hext].
    assert (Ht' : Forall (BoundedRead (searches st')) (titleReads st)).
    { eapply Forall_impl; [exact Ht|]. intros x. apply BoundedRead_mono.
      exact Hext. }
    unfold Bounded. split; [exact Hgood|]. split.
    { destruct H3 as [->|(tr & -> & Hn)]; [exact Ht'|].
      apply Forall_app. split; [exact Ht'|].
      constructor; [|constructor].
      apply (NewTitleRead_bounded st' (cr_search r) [] tr Hgood Hn).
      cbn [length]. lia. }
    rewrite H4. apply Forall_app. split.
    { eapply Forall_impl; [exact HnewL|]. cbn.
      intros x [->|[->|[-> [s Hlook]]]]; cbn; try exact I.
      exists s. split; [exact Hlook|]. intros Hmax. exact Hmax. }
    eapply Forall_impl; [exact Hl|]. intros x. apply BoundedEffect_mono.
    exact Hext.
  - destruct (titleReads st !! i) as [r|] eqn:Hr;
      [|unfold Bounded; auto].
    destruct (Forall_lookup_1 _ _ _ _ Ht Hr) as (s0 & Hs0 & Hlen & Hi).
    match goal with |- context [onTitleList _ r ?X] =>
      set (st' := onTitleList advance r X);
      destruct (onTitleList_shape advance r X)
        as (_ & H1 & _ & _ & (newL & H4 & HnewL));
      pose proof (onTitleList_next r X) as H3
    end.
    cbv zeta in H1, H3, H4, HnewL. fold st' in H1, H3, H4.
    cbn [searches coordReads titleReads log] in H1, H3, H4, HnewL.
    assert (Hwith : forall title,
              (length (titlesWith r title) <= S (tr_i r))%nat).
    { intros title. unfold titlesWith. rewrite length_app. cbn [length]. lia. }
    unfold Bounded. rewrite H1. split; [exact Hs|]. split.
    { destruct H3 as [->|(tr & title & -> & Hn & Hnext)];
        [apply Forall_delete; exact Ht|].
      apply Forall_app. split; [apply Forall_delete; exact Ht|].
      constructor; [|constructor]. rewrite <- H1.
      apply (NewTitleRead_bounded st' (tr_search r) (titlesWith r title) tr);
        [rewrite H1; exact Hs | exact Hn |].
      rewrite Hnext. apply Hwith. }
    rewrite H4. apply Forall_app. split; [|exact Hl].
    eapply Forall_impl; [exact HnewL|]. cbn.
    intros x [->|[(m & ->)|(s & title & Hlook & ->)]]; cbn; try exact I.
    cbn [searches] in Hlook. rewrite Hs0 in Hlook. injection Hlook as <-.
    exists s0. split; [exact Hs0|]. intros Hmax.
    rewrite sortTitles_length. specialize (Hwith title). specialize (Hi Hmax). lia.
Qed.

Lemma run_Bounded (events : list Event) :
  forall st, Bounded st -> Bounded (run float32 advance events st).
Proof.
  induction events as [|e events IH]; intros st Hinv; [exact Hinv|].
  cbn [run fold_left]. apply IH. apply step_Bounded. exact Hinv.
Qed.

Lemma initial_Bounded : Bounded initial.
Proof. unfold Bounded. cbn. repeat split; constructor. Qed.

End BoundFacts.

(** X16: whatever the archives hold and in whatever order the reads come
    back, a title list that a search with a bound [maxTitles >= 0] passes
    to its callback holds at most [maxTitles] titles. *)
Theorem X16_getTitlesInCoords_delivers_at_most_maxTitles :
  forall (float32 : Z -> Q) (advance : File -> Z -> option (Title * Z))
         (events : list Nearby.Event) (search : nat) (titles : list Title)
         (s : Nearby.Search),
    let st := Nearby.run float32 advance events Nearby.initial in
    In (Nearby.Callback search titles) (Nearby.log st) ->
    Nearby.searches st !! search = Some s ->
    0 <= Nearby.s_maxTitles s ->
    Z.of_nat (length titles) <= Nearby.s_maxTitles s.
Proof.
  intros float32 advance events search titles s st Hin Hs Hmax.
  destruct (run_Bounded float32 advance events Nearby.initial initial_Bounded)
    as (_ & _ & Hl).
  fold st in Hl.
  pose proof (proj1 (List.Forall_forall _ _) Hl _ Hin) as (s' & Hs' & Hlen).
  rewrite Hs in Hs'. injection Hs' as <-. exact (Hlen Hmax).
Qed.

Lemma X16_delivers_at_most_maxTitles_witness :
  Z.of_nat
    (length
       [Nearby.setGeolocation
          (Some (Geometry.mkPoint (Nearby.binary32 1091567616)
                   (Nearby.binary32 1110966272)))
          (mkTitle "Cherry" (Num 0) 0 0 0 (Some 20) None)])
  <= Nearby.s_maxTitles
       (Nearby.mkSearch (Nearby.placesArchive Nearby.placesLeaf)
          Nearby.scenarioRect 1 (Geometry.normalized Nearby.scenarioRect)
          [Nearby.positionTitle 20
             (Geometry.mkPoint (Nearby.binary32 1091567616)
                (Nearby.binary32 1110966272))]).
Proof.
  apply (X16_getTitlesInCoords_delivers_at_most_maxTitles Nearby.binary32
           TitleIndex.toyAdvance
           [Nearby.Call (Nearby.placesArchive Nearby.placesLeaf)
              Nearby.scenarioRect 1;
            Nearby.CoordLoaded 0; Nearby.TitleLoaded 0] 0%nat).
  - left. vm_compute. reflexivity.
  - vm_compute. reflexivity.
  - vm_compute. discriminate.
Defined.

(** *** How a search starts *)

Section StartFacts.
Import Geometry Util Nearby NearbyStart.

Lemma rootReads_cons (search i : nat) (file : File) (files : list File) :
  rootReads search i (file :: files)
  = mkCoordRead search i 0 GLOBE_RECTANGLE
      (slice (content file) 0 (0 + 22 * 65535))
    :: rootReads search (S i) files.
Proof.
  unfold rootReads. cbn [imap]. rewrite Nat.add_0_r. f_equal.
  apply imap_ext. intros j f _. cbn.
  replace (i + S j)%nat with (S (i + j)) by lia. reflexivity.
Qed.

Lemma startFiles_files (search : nat) (a : LocalArchive) (n : nat) :
  forall (files : list File) (i : nat) (st : State),
    (forall j f, files !! j = Some f ->
                 _coordinateFiles a !! (i + j)%nat = Some (Some f)) ->
    startFiles search a (length files + n) i st
    = startFiles search a n (i + length files)
        (mkState (counter st + Z.of_nat (length files)) (searches st)
           (coordReads st ++ rootReads search i files) (titleReads st) (log st)).
Proof.
  induction files as [|file files IH]; intros i st Hfiles.
  - cbn [length Nat.add rootReads imap]. rewrite Nat.add_0_r, Z.add_0_r, app_nil_r.
    destruct st. reflexivity.
  - cbn [length Nat.add startFiles].
    unfold getTitlesInCoordsInt.
    pose proof (Hfiles 0%nat file eq_refl) as H0. rewrite Nat.add_0_r in H0.
    rewrite H0. rewrite IH.
    + cbn [counter searches coordReads titleReads log addCoordRead setCounter].
      rewrite rootReads_cons, <- app_assoc. cbn [app].
      replace (S i + length files)%nat with (i + S (length files))%nat by lia.
      replace (counter st + 1 + Z.of_nat (length files))
        with (counter st + Z.of_nat (S (length files))) by lia.
      reflexivity.
    + intros j f Hj. replace (S i + j)%nat with (i + S j)%nat by lia.
      apply Hfiles. exact Hj.
Qed.

Lemma lookup_map_Some_files (files : list File) (tail : list (option File)) :
  forall j f, files !! j = Some f -> (map Some files ++ tail) !! (0 + j)%nat = Some (Some f).
Proof.
  intros j f Hj. cbn [Nat.add]. apply lookup_app_l_Some.
  rewrite list_lookup_fmap, Hj. reflexivity.
Qed.

End StartFacts.

(** X17: when every slot of [_coordinateFiles] holds a file and the
    counter is not positive, [getTitlesInCoords] registers one search with
    the normalized rectangle, issues one read per coordinate file, each at
    offset 0 for the rectangle of the globe, adds the number of files to the
    counter, and calls nothing. *)
Theorem X17_getTitlesInCoords_starts_one_read_per_file :
  forall (float32 : Z -> Q) (advance : File -> Z -> option (Title * Z))
         (st : Nearby.State) (a : LocalArchive) (rect_ : Geometry.rect)
         (maxTitles : Z) (files : list File),
    Nearby.counter st <= 0 ->
    _coordinateFiles a = map Some files ->
    Nearby.step float32 advance st (Nearby.Call a rect_ maxTitles)
    = Nearby.mkState (Nearby.counter st + Z.of_nat (length files))
        (Nearby.searches st
         ++ [Nearby.mkSearch a rect_ maxTitles (Geometry.normalized rect_) []])
        (Nearby.coordReads st
         ++ NearbyStart.rootReads (length (Nearby.searches st)) 0 files)
        (Nearby.titleReads st) (Nearby.log st).
Proof.
  intros float32 advance st a rect_ maxTitles files Hcounter Hfiles.
  cbn [Nearby.step]. unfold Nearby.getTitlesInCoords.
  rewrite (proj2 (Z.ltb_ge 0 (Nearby.counter st)) Hcounter).
  rewrite Hfiles, length_map.
  replace (length files) with (length files + 0)%nat at 1 by lia.
  rewrite (startFiles_files _ a 0 files 0).
  - reflexivity.
  - intros j f Hj. rewrite Hfiles.
    rewrite <- (app_nil_r (map Some files)).
    apply lookup_map_Some_files. exact Hj.
Qed.

Lemma X17_getTitlesInCoords_start_witness :
  Nearby.step Nearby.binary32 TitleIndex.toyAdvance Nearby.initial
    (Nearby.Call (Nearby.placesArchive Nearby.placesLeaf) Nearby.scenarioRect 10)
  = Nearby.mkState
      (Nearby.counter Nearby.initial
       + Z.of_nat (length [mkFile "coordinates_01.idx" Nearby.placesLeaf]))
      (Nearby.searches Nearby.initial
       ++ [Nearby.mkSearch (Nearby.placesArchive Nearby.placesLeaf)
             Nearby.scenarioRect 10 (Geometry.normalized Nearby.scenarioRect) []])
      (Nearby.coordReads Nearby.initial
       ++ NearbyStart.rootReads (length (Nearby.searches Nearby.initial)) 0
            [mkFile "coordinates_01.idx" Nearby.placesLeaf])
      (Nearby.titleReads Nearby.initial) (Nearby.log Nearby.initial).
Proof.
  apply X17_getTitlesInCoords_starts_one_read_per_file.
  - cbn. lia.
  - reflexivity.
Defined.

(** X18: when a slot of [_coordinateFiles] is a hole, a call of
    [getTitlesInCoords] made at counter 0 raises at that slot: the reads of
    the files before the hole are out, the files after it are never read,
    and the counter stays one above the number of reads.  The next call,
    for whatever archive, is then refused with the retry message; it
    starts nothing and sets the counter back to 0. *)
Theorem X18_missing_coordinate_file_blocks_the_next_call :
  forall (float32 : Z -> Q) (advance : File -> Z -> option (Title * Z))
         (st : Nearby.State) (a : LocalArchive) (rect_ : Geometry.rect)
         (maxTitles : Z) (files : list File) (rest : list (option File))
         (a2 : LocalArchive) (rect2 : Geometry.rect) (maxTitles2 : Z),
    Nearby.counter st = 0 ->
    _coordinateFiles a = map Some files ++ None :: rest ->
    let st1 := Nearby.step float32 advance st (Nearby.Call a rect_ maxTitles) in
    let st2 := Nearby.step float32 advance st1 (Nearby.Call a2 rect2 maxTitles2) in
    st1 = Nearby.mkState (Z.of_nat (length files) + 1)
            (Nearby.searches st
             ++ [Nearby.mkSearch a rect_ maxTitles (Geometry.normalized rect_) []])
            (Nearby.coordReads st
             ++ NearbyStart.rootReads (length (Nearby.searches st)) 0 files)
            (Nearby.titleReads st) (Nearby.Exception :: Nearby.log st) /\
    st2 = Nearby.mkState 0 (Nearby.searches st1) (Nearby.coordReads st1)
            (Nearby.titleReads st1)
            (Nearby.Alert Nearby.retryMessage :: Nearby.log st1).
Proof.
  intros float32 advance st a rect_ maxTitles files rest a2 rect2 maxTitles2
         Hcounter Hfiles st1 st2.
  assert (H1 : st1 = Nearby.mkState (Z.of_nat (length files) + 1)
            (Nearby.searches st
             ++ [Nearby.mkSearch a rect_ maxTitles (Geometry.normalized rect_) []])
            (Nearby.coordReads st
             ++ NearbyStart.rootReads (length (Nearby.searches st)) 0 files)
            (Nearby.titleReads st) (Nearby.Exception :: Nearby.log st)).
  { unfold st1. cbn [Nearby.step]. unfold Nearby.getTitlesInCoords.
    rewrite Hcounter. cbn [Z.ltb Z.compare].
    rewrite Hfiles, length_app, length_map. cbn [length].
    rewrite (startFiles_files _ a (S (length rest)) files 0).
    - cbn [Nearby.startFiles Nat.add].
      unfold Nearby.getTitlesInCoordsInt. rewrite Hfiles.
      rewrite lookup_app_r by (rewrite length_map; lia).
      rewrite length_map, Nat.sub_diag. cbn. rewrite Hcounter.
      reflexivity.
    - intros j f Hj. rewrite Hfiles. apply lookup_map_Some_files. exact Hj. }
  split; [exact H1|].
  unfold st2. cbn [Nearby.step]. unfold Nearby.getTitlesInCoords.
  rewrite H1. cbn [Nearby.counter].
  rewrite (proj2 (Z.ltb_lt 0 (Z.of_nat (length files) + 1))) by lia.
  reflexivity.
Qed.

Lemma X18_missing_coordinate_file_witness :
  let a :=
    mkArchive [] [None; Some (mkFile "coordinates_02.idx" Nearby.placesLeaf)]
      (Some TitleIndex.toyIndex) None None None None None true in
  let st1 :=
    Nearby.step Nearby.binary32 TitleIndex.toyAdvance Nearby.initial
      (Nearby.Call a Nearby.scenarioRect 10) in
  let st2 :=
    Nearby.step Nearby.binary32 TitleIndex.toyAdvance st1
      (Nearby.Call (Nearby.placesArchive Nearby.placesLeaf) Nearby.scenarioRect 10) in
  st1 = Nearby.mkState (Z.of_nat (length (@nil File)) + 1)
          (Nearby.searches Nearby.initial
           ++ [Nearby.mkSearch a Nearby.scenarioRect 10
                 (Geometry.normalized Nearby.scenarioRect) []])
          (Nearby.coordReads Nearby.initial
           ++ NearbyStart.rootReads (length (Nearby.searches Nearby.initial)) 0 [])
          (Nearby.titleReads Nearby.initial)
          (Nearby.Exception :: Nearby.log Nearby.initial) /\
  st2 = Nearby.mkState 0 (Nearby.searches st1) (Nearby.coordReads st1)
          (Nearby.titleReads st1)
          (Nearby.Alert Nearby.retryMessage :: Nearby.log st1).
Proof.
  intros a.
  apply (X18_missing_coordinate_file_blocks_the_next_call Nearby.binary32
           TitleIndex.toyAdvance Nearby.initial a Nearby.scenarioRect 10 []
           [Some (mkFile "coordinates_02.idx" Nearby.placesLeaf)]).
  - reflexivity.
  - reflexivity.
Defined.

(** *** Where a random title is looked for *)

Section RandomFacts.
Import Util Prefix.

Lemma nth_error_lookup_list {A : Type} (l : list A) :
  forall i : nat, nth_error l i = l !! i.
Proof. induction l as [|x l IH]; intros [|i]; cbn; auto. Qed.

Lemma at_lookup (bytes : list byte) (i : nat) :
  at_ bytes (Z.of_nat i) = byteVal <$> bytes !! i.
Proof.
  unfold at_. rewrite (proj2 (Z.ltb_ge (Z.of_nat i) 0)) by lia.
  rewrite Nat2Z.id, nth_error_lookup_list. reflexivity.
Qed.

(** The loop stops at the first line feed of the array, or at its end. *)
Lemma newLine_first (byteArray : Uint8Array) :
  forall k : Z,
    let r := newLine byteArray k in
    k <= r <= k + Z.of_nat (length byteArray) /\
    (forall j : nat, k + Z.of_nat j < r -> at_ byteArray (Z.of_nat j) <> Some 10) /\
    (r < k + Z.of_nat (length byteArray) ->
     at_ byteArray (r - k) = Some 10).
Proof.
  induction byteArray as [|b rest IH]; intros k; cbn [newLine length].
  - cbv zeta. split; [lia|]. split; [intros j Hj; lia|lia].
  - destruct (byteVal b =? 10) eqn:Hb.
    + apply Z.eqb_eq in Hb. cbv zeta. split; [lia|].
      split; [intros j Hj; lia|]. intros _.
      rewrite Z.sub_diag. change 0 with (Z.of_nat 0). rewrite at_lookup.
      cbn. rewrite Hb. reflexivity.
    + apply Z.eqb_neq in Hb. specialize (IH (k + 1)). cbv zeta in IH |- *.
      destruct IH as (Hr & Hbefore & Hat). split; [lia|]. split.
      * intros [|j] Hj; rewrite at_lookup; cbn.
        -- intros [= H]. exact (Hb H).
        -- rewrite <- at_lookup. apply Hbefore. lia.
      * intros Hlt.
        replace (newLine rest (k + 1) - k)
          with (Z.of_nat (S (Z.to_nat (newLine rest (k + 1) - (k + 1))))) by lia.
        rewrite at_lookup. cbn [lookup list_lookup].
        rewrite <- at_lookup. rewrite Z2Nat.id by lia. apply Hat. lia.
Qed.

End RandomFacts.

(** X19: whatever offset in [0, size] the random expression gives,
    [getRandomTitle] creates its iterator strictly after it, so never at
    offset 0: the first record of the title file is never the one it
    decodes.  No byte between that offset and the byte before the
    iterator's offset is a line feed; that last byte is a line feed of the
    title file, unless the bytes read hold none, in which case the iterator
    is created one past the end of what was read. *)
Theorem X19_getRandomTitle_starts_after_the_next_line_feed :
  forall (MAX_TITLE_LENGTH : Z) (offset : Z) (titleFile : File),
    0 <= MAX_TITLE_LENGTH ->
    0 <= offset <= size titleFile ->
    let start := Prefix.iteratorOffset MAX_TITLE_LENGTH offset titleFile in
    offset < start /\
    (forall j, offset <= j < start - 1 ->
               Util.at_ (content titleFile) j <> Some 10) /\
    (Util.at_ (content titleFile) (start - 1) = Some 10 \/
     start = Z.min (offset + MAX_TITLE_LENGTH) (size titleFile) + 1).
Proof.
  intros MAX offset titleFile HMAX [Hlow Hhigh] start.
  unfold start, Prefix.iteratorOffset, Prefix.readFileSlice.
  rewrite slice_nonneg by assumption.
  set (window := firstn (Z.to_nat MAX) (skipn (Z.to_nat offset) (content titleFile))).
  destruct (newLine_first window 0) as (Hr & Hbefore & Hat).
  set (r := Prefix.newLine window 0) in *.
  assert (Hwindow : forall j : nat,
            (j < length window)%nat ->
            Util.at_ window (Z.of_nat j)
            = Util.at_ (content titleFile) (offset + Z.of_nat j)).
  { intros j Hj.
    replace (offset + Z.of_nat j) with (Z.of_nat (Z.to_nat offset + j)) by lia.
    rewrite !at_lookup. unfold window.
    unfold window in Hj. rewrite length_take in Hj.
    rewrite lookup_take_lt by lia. rewrite lookup_drop. reflexivity. }
  assert (Hlen : Z.of_nat (length window)
                 = Z.min MAX (size titleFile - offset)).
  { unfold window. rewrite length_take, length_drop. unfold size in *. lia. }
  split; [lia|]. split.
  - intros j Hj.
    replace j with (offset + Z.of_nat (Z.to_nat (j - offset))) by lia.
    rewrite <- Hwindow by lia. apply Hbefore. lia.
  - destruct (Z.lt_ge_cases r (Z.of_nat (length window))) as [Hin|Hout].
    + left. replace (offset + r + 1 - 1)
        with (offset + Z.of_nat (Z.to_nat r)) by lia.
      rewrite <- Hwindow by lia. rewrite Z2Nat.id by lia.
      rewrite <- (Z.sub_0_r r). apply Hat. lia.
    + right. lia.
Qed.

Lemma X19_getRandomTitle_start_witness :
  let start := Prefix.iteratorOffset 300 7 TitleIndex.toyIndex in
  7 < start /\
  (forall j, 7 <= j < start - 1 ->
             Util.at_ (content TitleIndex.toyIndex) j <> Some 10) /\
  (Util.at_ (content TitleIndex.toyIndex) (start - 1) = Some 10 \/
   start = Z.min (7 + 300) (size TitleIndex.toyIndex) + 1).
Proof.
  apply (X19_getRandomTitle_starts_after_the_next_line_feed 300 7
           TitleIndex.toyIndex).
  - lia.
  - vm_compute. split; discriminate.
Defined.

(** *** Normalization and the metadata *)

(** X20: once the handler of [readMetadataFile] has run to its end on a
    text, [normalizeStringIfCompatibleArchive] and the function that
    [getNormalizeFunction] returns agree on every string, and both leave
    the string as it is exactly when the text gives [normalized_titles] the
    value "0"; for any other value, and without the key, they normalize. *)
Theorem X20_normalization_follows_the_metadata :
  forall (normalizeString : string -> string) (a a' : LocalArchive)
         (metadata s : string),
    Metadata.readMetadataFile a metadata = (a', Metadata.Loaded) ->
    Prefix.normalizeStringIfCompatibleArchive normalizeString a' s
    = TitleIndex.getNormalizeFunction normalizeString a' s /\
    Prefix.normalizeStringIfCompatibleArchive normalizeString a' s
    = if match Metadata.exec "normalized_titles" metadata with
         | Some normalizedTitlesInt => String.eqb normalizedTitlesInt "0"
         | None => false
         end
      then s else normalizeString s.
Proof.
  intros normalizeString a a' metadata s Hread.
  unfold Metadata.readMetadataFile in Hread.
  destruct (Metadata.exec "language" metadata) as [l|]; [|discriminate].
  destruct (Metadata.exec "date" metadata) as [d|]; [|discriminate].
  unfold Prefix.normalizeStringIfCompatibleArchive, TitleIndex.getNormalizeFunction.
  destruct (Metadata.exec "normalized_titles" metadata) as [v|].
  - destruct (String.eqb v "0"); injection Hread as <-; split; reflexivity.
  - injection Hread as <-. split; reflexivity.
Qed.

Lemma X20_normalization_witness :
  Prefix.normalizeStringIfCompatibleArchive TitleIndex.toyNormalize
    (fst (Metadata.readMetadataFile newLocalArchive Metadata.dumpText)) "Banana"
  = TitleIndex.getNormalizeFunction TitleIndex.toyNormalize
      (fst (Metadata.readMetadataFile newLocalArchive Metadata.dumpText)) "Banana" /\
  Prefix.normalizeStringIfCompatibleArchive TitleIndex.toyNormalize
    (fst (Metadata.readMetadataFile newLocalArchive Metadata.dumpText)) "Banana"
  = if match Metadata.exec "normalized_titles" Metadata.dumpText with
       | Some normalizedTitlesInt => String.eqb normalizedTitlesInt "0"
       | None => false
       end
    then "Banana" else TitleIndex.toyNormalize "Banana".
Proof.
  apply (X20_normalization_follows_the_metadata TitleIndex.toyNormalize
           newLocalArchive).
  vm_compute. reflexivity.
Defined.

(** *** Coordinate files read from a storage *)

Section CoordinateStorageFacts.
Import JsString Init.

Variable get : string -> File + string.

Lemma readCoordinateFilesFromStorage_run (directory error : string)
    (files : list File) :
  forall (done : list File) (a : LocalArchive) (fuel : nat),
    _coordinateFiles a = map Some done ->
    (forall (j : nat) (file : File),
       files !! j = Some file ->
       get (coordinateFilePath directory
              (Z.of_nat (length done) + 1 + Z.of_nat j))
       = inl file) ->
    get (coordinateFilePath directory
           (Z.of_nat (length done) + 1 + Z.of_nat (length files))) = inr error ->
    (length files < fuel)%nat ->
    readCoordinateFilesFromStorage get fuel directory
      (Z.of_nat (length done) + 1) a
    = Done (setCoordinateFiles (map Some (done ++ files)) a)
        (if String.eqb error "NotFoundError" then []
         else [coordinateFileAlert directory
                 (Z.of_nat (length done) + 1 + Z.of_nat (length files)) error]).
Proof.
  induction files as [|file files IH]; intros done a fuel Ha Hget Hend Hfuel.
  - destruct fuel as [|fuel]; [cbn in Hfuel; lia|].
    cbn [readCoordinateFilesFromStorage length] in *.
    rewrite Z.add_0_r in Hend |- *. rewrite Hend, app_nil_r, <- Ha.
    destruct a. destruct (String.eqb error "NotFoundError"); reflexivity.
  - destruct fuel as [|fuel]; [cbn in Hfuel; lia|].
    cbn [readCoordinateFilesFromStorage].
    pose proof (Hget 0%nat file eq_refl) as H0. rewrite Z.add_0_r in H0.
    rewrite H0, Ha.
    replace (Z.of_nat (length done) + 1 - 1) with (Z.of_nat (length done)) by lia.
    rewrite arraySet_push.
    specialize (IH (done ++ [file])
                  (setCoordinateFiles (map Some (done ++ [file])) a) fuel).
    rewrite length_app in IH. cbn [length] in IH.
    replace (Z.of_nat (length done) + 1 + 1)
      with (Z.of_nat (length done + 1) + 1) by lia.
    rewrite IH.
    + rewrite <- app_assoc. cbn [app length].
      replace (Z.of_nat (length done + 1) + 1 + Z.of_nat (length files))
        with (Z.of_nat (length done) + 1 + Z.of_nat (S (length files))) by lia.
      reflexivity.
    + reflexivity.
    + intros j f Hj.
      replace (Z.of_nat (length done + 1) + 1 + Z.of_nat j)
        with (Z.of_nat (length done) + 1 + Z.of_nat (S j)) by lia.
      apply Hget. exact Hj.
    + replace (Z.of_nat (length done + 1) + 1 + Z.of_nat (length files))
        with (Z.of_nat (length done) + 1 + Z.of_nat (length (file :: files)))
        by (cbn [length]; lia).
      exact Hend.
    + cbn [length] in Hfuel. lia.
Qed.

End CoordinateStorageFacts.

(** X21: when the storage holds the coordinate files 1 to [k] of a
    directory and refuses file [k + 1], [readCoordinateFilesFromStorage]
    started at 1 on an archive without coordinate files ends with file [i]
    in slot [i - 1] for every [i] from 1 to [k], without a hole; a refusal
    other than "NotFoundError" raises one alert. *)
Theorem X21_readCoordinateFilesFromStorage_fills_consecutive_slots :
  forall (get : string -> File + string) (directory error : string)
         (files : list File) (a : LocalArchive) (fuel : nat),
    _coordinateFiles a = [] ->
    (forall (j : nat) (file : File),
       files !! j = Some file ->
       get (Init.coordinateFilePath directory (1 + Z.of_nat j)) = inl file) ->
    get (Init.coordinateFilePath directory (1 + Z.of_nat (length files)))
    = inr error ->
    (length files < fuel)%nat ->
    Init.readCoordinateFilesFromStorage get fuel directory 1 a
    = Init.Done (Init.setCoordinateFiles (map Some files) a)
        (if String.eqb error "NotFoundError" then []
         else [Init.coordinateFileAlert directory
                 (1 + Z.of_nat (length files)) error]).
Proof.
  intros get directory error files a fuel Ha Hget Hend Hfuel.
  exact (readCoordinateFilesFromStorage_run get directory error files [] a fuel
           Ha Hget Hend Hfuel).
Qed.

Lemma X21_readCoordinateFilesFromStorage_witness :
  Init.readCoordinateFilesFromStorage
    (fun path =>
       if String.eqb path "archive/coordinates_01.idx"
       then inl (mkFile "coordinates_01.idx" Nearby.placesLeaf)
       else inr "SecurityError")
    2 "archive/" 1 newLocalArchive
  = Init.Done
      (Init.setCoordinateFiles
         (map Some [mkFile "coordinates_01.idx" Nearby.placesLeaf])
         newLocalArchive)
      (if String.eqb "SecurityError" "NotFoundError" then []
       else [Init.coordinateFileAlert "archive/"
               (1 + Z.of_nat (length [mkFile "coordinates_01.idx" Nearby.placesLeaf]))
               "SecurityError"]).
Proof.
  apply X21_readCoordinateFilesFromStorage_fills_consecutive_slots.
  - reflexivity.
  - intros [|j] file H; try discriminate. injection H as <-. reflexivity.
  - reflexivity.
  - cbn [length]. lia.
Defined.

(** *** Prefix search and sequential reading *)

Section PrefixAndSequence.
Import Prefix.

Variable advance : File -> Z -> option (Title * Z).

Lemma Nearby_addNext_records (titleFile : File) :
  forall (remaining : nat) (offset : Z) (titles : list Title),
    Nearby.addNext advance remaining titleFile offset titles
    = titles ++ TitleIndex.recordsFrom advance remaining titleFile offset.
Proof.
  induction remaining as [|remaining IH]; intros offset titles;
    cbn [Nearby.addNext TitleIndex.recordsFrom].
  - rewrite app_nil_r. reflexivity.
  - destruct (advance titleFile offset) as [[title offset']|].
    + rewrite IH, <- app_assoc. reflexivity.
    + rewrite app_nil_r. reflexivity.
Qed.

Lemma recordsFrom_take (titleFile : File) :
  forall (k n : nat) (offset : Z),
    (k <= n)%nat ->
    TitleIndex.recordsFrom advance k titleFile offset
    = firstn k (TitleIndex.recordsFrom advance n titleFile offset).
Proof.
  induction k as [|k IH]; intros n offset Hk; [reflexivity|].
  destruct n as [|n]; [lia|]. cbn [TitleIndex.recordsFrom].
  destruct (advance titleFile offset) as [[title offset']|]; [|reflexivity].
  cbn [firstn]. f_equal. apply IH. lia.
Qed.

End PrefixAndSequence.

(** X22: the titles that [findTitlesWithPrefix(prefix, maxSize)] delivers
    are the first ones of the list that [getTitlesStartingAtOffset] returns
    for the offset given by [findPrefixOffset] and the same count; that
    list holds at most [maxSize] titles. *)
Theorem X22_findTitlesWithPrefix_is_a_segment_of_the_sequence :
  forall (normalizeString : string -> string)
         (findPrefixOffset : File -> string -> (string -> string) -> Z)
         (advance : File -> Z -> option (Title * Z))
         (a : LocalArchive) (titleFile : File) (prefix : string) (maxSize : Z)
         (fuel : nat),
    _titleFile a = Some titleFile ->
    (Z.to_nat maxSize < fuel)%nat ->
    let normalize := TitleIndex.getNormalizeFunction normalizeString a in
    let offset := findPrefixOffset titleFile (normalize prefix) normalize in
    exists titles sequence,
      Prefix.findTitlesWithPrefix normalizeString findPrefixOffset advance fuel a
        prefix maxSize
      = Prefix.Delivered titles maxSize /\
      Nearby.getTitlesStartingAtOffset advance a offset maxSize = Some sequence /\
      titles = firstn (length titles) sequence /\
      Z.of_nat (length sequence) <= Z.max 0 maxSize.
Proof.
  intros normalizeString findPrefixOffset advance a titleFile prefix maxSize fuel
         Hfile Hfuel normalize offset.
  unfold Prefix.findTitlesWithPrefix, Nearby.getTitlesStartingAtOffset.
  rewrite Hfile.
  destruct (addNext_delivers advance titleFile normalize (normalize prefix)
              maxSize fuel [] offset) as (more & Hres & Hlen & _ & Hrec & _).
  { cbn [length]. rewrite Z.sub_0_r. exact Hfuel. }
  cbn [app length] in *. rewrite Z.sub_0_r in Hlen.
  exists more, (TitleIndex.recordsFrom advance (Z.to_nat maxSize) titleFile offset).
  split; [exact Hres|]. split.
  - rewrite Nearby_addNext_records. reflexivity.
  - split.
    + rewrite Hrec at 1. apply recordsFrom_take. lia.
    + pose proof (recordsFrom_length advance (Z.to_nat maxSize) titleFile offset).
      lia.
Qed.

Lemma X22_findTitlesWithPrefix_segment_witness :
  let normalize :=
    TitleIndex.getNormalizeFunction TitleIndex.toyNormalize TitleIndex.toyArchive in
  let offset :=
    TitleIndex.toyFindPrefixOffset TitleIndex.toyIndex (normalize "BAN") normalize in
  exists titles sequence,
    Prefix.findTitlesWithPrefix TitleIndex.toyNormalize
      TitleIndex.toyFindPrefixOffset TitleIndex.toyAdvance 6
      TitleIndex.toyArchive "BAN" 5
    = Prefix.Delivered titles 5 /\
    Nearby.getTitlesStartingAtOffset TitleIndex.toyAdvance TitleIndex.toyArchive
      offset 5 = Some sequence /\
    titles = firstn (length titles) sequence /\
    Z.of_nat (length sequence) <= Z.max 0 5.
Proof.
  apply (X22_findTitlesWithPrefix_is_a_segment_of_the_sequence
           TitleIndex.toyNormalize TitleIndex.toyFindPrefixOffset
           TitleIndex.toyAdvance TitleIndex.toyArchive TitleIndex.toyIndex
           "BAN" 5 6).
  - reflexivity.
  - vm_compute. lia.
Defined.

(** *** What the counter counts *)

Section CounterFacts.
Import Geometry Util Nearby NearbyInv NearbyStart.

Variable float32 : Z -> Q.
Variable advance : File -> Z -> option (Title * Z).








End CounterFacts.


